(** * Cinematic studio: frame compositor, capture session and shot planner

    A shallow embedding of [components/CinematicCanvas.tsx] (the procedural
    layer stack and the frame clock) and of the [CinematicStudio] component
    (the capture session [handleGenerate] and the shot planner
    [buildShotPlan]), followed by the properties of the specification that
    are about them.

    Conventions of the embedding.
    - A JavaScript [number] is an exact rational ([Q]): the rounding of
      binary floating point is left out, and comparisons of numbers are
      stated with [==], [<] and [<=] of [Q].  [Math.round] is
      [floor (x + 1/2)], the value ECMAScript prescribes (ties go up).  A
      division by zero, which gives an infinity or NaN in JavaScript and 0
      in [Q], occurs only for a zero width, height, aspect ratio or
      duration; the statements that divide assume these positive.  Where
      the code tests the sign of a quantity that is zero in exact
      arithmetic, the rounding of doubles can decide the test the other
      way (see [paintBars]): what is stated of the bars for every frame
      size holds whichever way such a test goes, and what is stated of
      exact arithmetic only says so.
    - The one place where the code leaves the range in which doubles are
      exact on integers is [parseInt]: its result is rounded to the nearest
      double, ties to even, as ECMAScript prescribes.
    - [Math.sin], [Math.cos], [Math.PI] and the stream of values returned by
      [Math.random] are parameters of the rendering section.
    - The 2D context is a record of the drawing state, the [save] stack, the
      current path and the list of operations painted so far.
    - The browser objects the capture session touches (media tracks,
      interval timers, blob URLs, the recorder) are a record [Browser]; what
      the platform answers during one call of [handleGenerate] is a record
      [Scenario].  The routine runs in a monad of state, exceptions and
      suspension; its trace lists the state setters and browser calls it
      made, oldest first.
    - [lib/cinematicPresets] is not among the sources: its lookups are
      modelled from the specification, its tables and [getResolution] are
      parameters. *)

From Stdlib Require Import QArith Qround Qminmax Lqa Lia ZArith String Ascii List Sorted.
From stdpp Require Import base decidable option list gmap sets strings.
Import ListNotations.

Open Scope Q_scope.

(** ** JavaScript numbers and the [Math] functions the program calls *)

Module JS.

Definition Math_round (x : Q) : Q := inject_Z (Qfloor (x + 0.5)).

Definition Math_max (x y : Q) : Q := Qmax x y.

Definition Math_min (x y : Q) : Q := Qmin x y.

(** [x % 1] for a number: the remainder has the sign of the dividend. *)
Definition mod1 (x : Q) : Q :=
  if Qle_bool 0 x then x - inject_Z (Qfloor x) else x - inject_Z (Qceiling x).

(** ToInt32, applied by [>>] and [&] to their operands. *)
Definition toInt32 (z : Z) : Z := ((z + 2 ^ 31) mod 2 ^ 32 - 2 ^ 31)%Z.

Definition shr (z : Z) (k : Z) : Z := Z.shiftr (toInt32 z) k.

Definition band (a b : Z) : Z := Z.land (toInt32 a) (toInt32 b).

Definition hexDigit (c : ascii) : option Z :=
  let n := Z.of_N (N_of_ascii c) in
  if ((48 <=? n) && (n <=? 57))%Z then Some (n - 48)%Z
  else if ((97 <=? n) && (n <=? 102))%Z then Some (n - 87)%Z
  else if ((65 <=? n) && (n <=? 70))%Z then Some (n - 55)%Z
  else None.

(** The longest prefix of hexadecimal digits, read as a number;
    the second component counts the digits read. *)
Fixpoint hexPrefix (s : string) (acc : Z) (n : nat) : Z * nat :=
  match s with
  | EmptyString => (acc, n)
  | String c rest =>
      match hexDigit c with
      | Some d => hexPrefix rest (16 * acc + d)%Z (S n)
      | None => (acc, n)
      end
  end.

Definition isSpace (c : ascii) : bool :=
  let n := N_of_ascii c in
  ((n =? 32) || (n =? 9) || (n =? 10) || (n =? 11) || (n =? 12) || (n =? 13))%N.

Fixpoint trimStart (s : string) : string :=
  match s with
  | String c rest => if isSpace c then trimStart rest else s
  | EmptyString => EmptyString
  end.

Definition strip0x (s : string) : string :=
  match s with
  | String "0" (String "x" rest) => rest
  | String "0" (String "X" rest) => rest
  | _ => s
  end.

(** The values [parseInt] returns: NaN, an infinity, or a double that is
    an integer. *)
Inductive Number :=
| NaN
| Infinity (negative : bool)
| Integer (z : Z).

(** The double nearest to the integer [n >= 0], ties to even: an integer
    of more than 53 bits keeps its 53 leading bits. *)
Definition roundToDouble (n : Z) : Z :=
  let excess := (Z.log2 n + 1 - 53)%Z in
  if (excess <=? 0)%Z then n
  else
    let unit := (2 ^ excess)%Z in
    let q := (n / unit)%Z in
    let rest := (n mod unit)%Z in
    let half := (unit / 2)%Z in
    let q := if ((half <? rest) || ((rest =? half) && Z.odd q))%Z
             then (q + 1)%Z else q in
    (q * unit)%Z.

(** The Number value of the integer of magnitude [n] and the given sign;
    what rounds to 2^1024 or more is an infinity. *)
Definition toNumber (negative : bool) (n : Z) : Number :=
  let m := roundToDouble n in
  if (2 ^ 1024 <=? m)%Z then Infinity negative
  else Integer (if negative then (- m)%Z else m).

(** [parseInt(s, 16)] *)
Definition parseInt16 (s : string) : Number :=
  let t := trimStart s in
  let '(neg, t) :=
    match t with
    | String "-" rest => (true, rest)
    | String "+" rest => (false, rest)
    | _ => (false, t)
    end in
  let '(v, n) := hexPrefix (strip0x t) 0%Z 0%nat in
  match n with
  | O => NaN
  | S _ => toNumber neg v
  end.

(** A number as an operand of [>>] or [&]: ToInt32 sends NaN and the
    infinities to 0 (and reduces an integer modulo 2^32, see [toInt32]). *)
Definition operand (x : Number) : Z :=
  match x with
  | Integer z => z
  | NaN | Infinity _ => 0%Z
  end.

(** [s.replace(pat, "")] for a one-character pattern: the first
    occurrence is removed. *)
Fixpoint removeFirst (pat : ascii) (s : string) : string :=
  match s with
  | EmptyString => EmptyString
  | String c rest =>
      if Ascii.eqb c pat then rest else String c (removeFirst pat rest)
  end.

End JS.

Import JS.

(** ** Settings and preset catalogs ([lib/cinematicPresets]) *)

Record CinematicSettings := {
  duration : Q;
  frameRate : Q;
  resolutionPresetId : string;
  aspectRatio : Q;
  moodId : string;
  cameraMotionId : string;
  bloom : Q;
  grain : Q;
  parallax : Q;
  chromaShift : Q
}.

Record Mood := {
  mood_id : string;
  mood_name : string;
  mood_description : string;
  palette0 : string;
  palette1 : string;
  palette2 : string;
  light : string;
  haze : string
}.

Record CameraMotion := {
  motion_id : string;
  motion_name : string;
  motion_description : string
}.

Section Catalog.

Context {Entry : Type} (entryId : Entry -> string).

(** Modelled from the spec: the preset module [lib/cinematicPresets] is
    not part of the sources.  A catalog is a fixed table looked up by id;
    an id that is absent resolves to the designated default entry. *)
Definition lookupPreset (table : list Entry) (dflt : Entry) (id : string) : Entry :=
  match List.find (fun e => bool_decide (entryId e = id)) table with
  | Some e => e
  | None => dflt
  end.

End Catalog.

(** Modelled from the spec: [getMood] of [lib/cinematicPresets], a lookup
    in the mood table with the default mood as fallback. *)
Definition getMood (moods : list Mood) (defaultMood : Mood) (id : string) : Mood :=
  lookupPreset mood_id moods defaultMood id.

(** Modelled from the spec: [getCameraMotion] of [lib/cinematicPresets], a
    lookup in the camera-motion table with the default motion as fallback. *)
Definition getCameraMotion (cameraMotions : list CameraMotion)
    (defaultMotion : CameraMotion) (id : string) : CameraMotion :=
  lookupPreset motion_id cameraMotions defaultMotion id.

(** ** The 2D drawing context *)

Module Canvas.

Inductive Color :=
| CssText (s : string)
| CssRgb (r g b : Q)
| CssRgba (r g b a : Q).

(** The noise tile held by the off-screen grain canvas: [data i] is the
    i-th byte of its image data. *)
Record GrainTile := {
  tileWidth : Z;
  tileHeight : Z;
  data : nat -> Q
}.

Inductive Style :=
| Solid (c : Color)
| LinearGradient (x0 y0 x1 y1 : Q) (stops : list (Q * Color))
| RadialGradient (x0 y0 r0 x1 y1 r1 : Q) (stops : list (Q * Color))
| Pattern (tile : GrainTile) (repetition : string).

Inductive Filter :=
| FilterNone
| BlurSaturate (blurPx saturate : Q).

Record CtxState := {
  fillStyle : Style;
  strokeStyle : Style;
  globalAlpha : Q;
  globalCompositeOperation : string;
  filter : Filter;
  lineWidth : Q
}.

Inductive PathOp :=
| MoveTo (x y : Q)
| LineTo (x y : Q)
| ClosePath.

Inductive DrawOp :=
| ClearRect (x y w h : Q)
| FillRect (st : CtxState) (x y w h : Q)
| FillPath (st : CtxState) (p : list PathOp)
| StrokePath (st : CtxState) (p : list PathOp).

Record Ctx := {
  cur : CtxState;
  saved : list CtxState;
  path : list PathOp;
  painted : list DrawOp
}.

Definition freshState : CtxState :=
  {| fillStyle := Solid (CssText "#000000");
     strokeStyle := Solid (CssText "#000000");
     globalAlpha := 1;
     globalCompositeOperation := "source-over";
     filter := FilterNone;
     lineWidth := 1 |}.

Definition freshCtx : Ctx :=
  {| cur := freshState; saved := []; path := []; painted := [] |}.

Definition withState (f : CtxState -> CtxState) (c : Ctx) : Ctx :=
  {| cur := f (cur c); saved := saved c; path := path c; painted := painted c |}.

Definition emit (op : DrawOp) (c : Ctx) : Ctx :=
  {| cur := cur c; saved := saved c; path := path c; painted := painted c ++ [op] |}.

Definition setFillStyle (s : Style) : Ctx -> Ctx :=
  withState (fun st =>
    {| fillStyle := s; strokeStyle := strokeStyle st; globalAlpha := globalAlpha st;
       globalCompositeOperation := globalCompositeOperation st;
       filter := filter st; lineWidth := lineWidth st |}).

Definition setStrokeStyle (s : Style) : Ctx -> Ctx :=
  withState (fun st =>
    {| fillStyle := fillStyle st; strokeStyle := s; globalAlpha := globalAlpha st;
       globalCompositeOperation := globalCompositeOperation st;
       filter := filter st; lineWidth := lineWidth st |}).

Definition setGlobalAlpha (a : Q) : Ctx -> Ctx :=
  withState (fun st =>
    {| fillStyle := fillStyle st; strokeStyle := strokeStyle st; globalAlpha := a;
       globalCompositeOperation := globalCompositeOperation st;
       filter := filter st; lineWidth := lineWidth st |}).

Definition setComposite (op : string) : Ctx -> Ctx :=
  withState (fun st =>
    {| fillStyle := fillStyle st; strokeStyle := strokeStyle st;
       globalAlpha := globalAlpha st; globalCompositeOperation := op;
       filter := filter st; lineWidth := lineWidth st |}).

Definition setFilter (f : Filter) : Ctx -> Ctx :=
  withState (fun st =>
    {| fillStyle := fillStyle st; strokeStyle := strokeStyle st;
       globalAlpha := globalAlpha st;
       globalCompositeOperation := globalCompositeOperation st;
       filter := f; lineWidth := lineWidth st |}).

Definition setLineWidth (w : Q) : Ctx -> Ctx :=
  withState (fun st =>
    {| fillStyle := fillStyle st; strokeStyle := strokeStyle st;
       globalAlpha := globalAlpha st;
       globalCompositeOperation := globalCompositeOperation st;
       filter := filter st; lineWidth := w |}).

Definition save (c : Ctx) : Ctx :=
  {| cur := cur c; saved := cur c :: saved c; path := path c; painted := painted c |}.

Definition restore (c : Ctx) : Ctx :=
  match saved c with
  | [] => c
  | st :: rest => {| cur := st; saved := rest; path := path c; painted := painted c |}
  end.

Definition clearRect (x y w h : Q) (c : Ctx) : Ctx := emit (ClearRect x y w h) c.

Definition fillRect (x y w h : Q) (c : Ctx) : Ctx := emit (FillRect (cur c) x y w h) c.

Definition beginPath (c : Ctx) : Ctx :=
  {| cur := cur c; saved := saved c; path := []; painted := painted c |}.

Definition addPath (p : PathOp) (c : Ctx) : Ctx :=
  {| cur := cur c; saved := saved c; path := path c ++ [p]; painted := painted c |}.

Definition fill (c : Ctx) : Ctx := emit (FillPath (cur c) (path c)) c.

Definition stroke (c : Ctx) : Ctx := emit (StrokePath (cur c) (path c)) c.

(** Assigning [canvas.width] or [canvas.height] clears the bitmap and
    resets the context to its default state. *)
Definition resizeCanvas (c : Ctx) : Ctx := freshCtx.

(** The rectangles filled so far, oldest first. *)
Definition filledRects (c : Ctx) : list (Q * Q * Q * Q) :=
  flat_map (fun op => match op with
                      | FillRect _ x y w h => [(x, y, w, h)]
                      | _ => []
                      end) (painted c).

End Canvas.

Import Canvas.

(** ** The procedural layer stack ([components/CinematicCanvas.tsx]) *)

Record Particle := {
  baseX : Q;
  baseY : Q;
  amplitude : Q;
  speed : Q;
  radius : Q;
  axis : Q
}.

Definition ofNat (n : nat) : Q := inject_Z (Z.of_nat n).

Section Render.

(** [Math.sin], [Math.cos] and [Math.PI]. *)
Variables Math_sin Math_cos : Q -> Q.
Variable Math_PI : Q.

Definition hexToRgb (hex : string) : Z * Z * Z :=
  let sanitized := removeFirst "#" hex in
  let bigint := operand (parseInt16 sanitized) in
  let r := band (shr bigint 16) 255 in
  let g := band (shr bigint 8) 255 in
  let b := band bigint 255 in
  (r, g, b).

Definition clamp (value : Q) : Q := Math_min 255 (Math_max 0 (Math_round value)).

Definition pulseFactor (time amplitude : Q) : Q :=
  1 + Math_sin (time * Math_PI * 2) * amplitude.

Definition applyPulse (hexColor : string) (time amplitude : Q) : Color :=
  let '(r, g, b) := hexToRgb hexColor in
  let pulse := pulseFactor time amplitude in
  CssRgb (clamp (inject_Z r * pulse)) (clamp (inject_Z g * pulse))
         (clamp (inject_Z b * pulse)).

Definition getCameraMotionOffset (motionId : string) (elapsed axis : Q) : Q * Q :=
  if bool_decide (motionId = "dolly") then
    (Math_sin (elapsed * 0.4) * 420 * axis, Math_cos (elapsed * 0.25) * 280)
  else if bool_decide (motionId = "drift") then
    (Math_sin (elapsed * 0.6 + axis) * 320, Math_sin (elapsed * 0.35 + axis) * 220)
  else if bool_decide (motionId = "pulse") then
    (Math_sin (elapsed * 3) * 65, Math_cos (elapsed * 1.5) * 45)
  else
    (Math_cos (elapsed * 0.35) * 380, Math_sin (elapsed * 0.3) * 200).

Definition getCameraSpeedMultiplier (motionId : string) : Q :=
  if bool_decide (motionId = "dolly") then 1.4
  else if bool_decide (motionId = "drift") then 0.9
  else if bool_decide (motionId = "pulse") then 1.8
  else 1.

Definition paintBackground (ctx : Ctx) (width height elapsed : Q) (mood : Mood)
    (settings : CinematicSettings) : Ctx :=
  let gradient :=
    LinearGradient 0 0 0 height
      [ (0, applyPulse (palette0 mood) (elapsed * 0.1) 0.04);
        (0.45, applyPulse (palette1 mood) (elapsed * 0.12) 0.08);
        (1, CssText (palette2 mood)) ] in
  let ctx := setFillStyle gradient ctx in
  let ctx := fillRect 0 0 width height ctx in
  let radial :=
    RadialGradient (width * 0.5)
      (height * 0.35 + Math_sin (elapsed * 0.6) * width * 0.05)
      (width * 0.1) (width * 0.5) height width
      [ (0, CssText (light mood ++ "90")); (1, CssText "transparent") ] in
  let ctx := setFillStyle radial ctx in
  let ctx := setComposite "lighter" ctx in
  let ctx := fillRect 0 0 width height ctx in
  let ctx := setComposite "source-over" ctx in
  let ctx := setFillStyle (Solid (CssText (haze mood))) ctx in
  fillRect 0 (height * 0.65) width (height * 0.35) ctx.

(** The inner loop of [paintParallaxShapes]: [n] iterations are left and
    the loop variable is [x]. *)
Fixpoint parallaxCurve (n : nat) (x width baseY amplitude slope waveSpeed elapsed : Q)
    (layer : Q) (settings : CinematicSettings) (ctx : Ctx) : Ctx :=
  match n with
  | O => ctx
  | S n' =>
      let normalizedX := x / width in
      let offset :=
        Math_sin (normalizedX * Math_PI * (3 + layer) + elapsed * waveSpeed)
          * amplitude * slope
        + Math_cos (normalizedX * Math_PI * 6 + elapsed * 0.25) * 18
          * parallax settings in
      let y := baseY + offset in
      let ctx := if Qeq_bool x 0 then addPath (MoveTo x y) ctx
                 else addPath (LineTo x y) ctx in
      parallaxCurve n' (x + 4) width baseY amplitude slope waveSpeed elapsed
                    layer settings ctx
  end.

(** How often [for (let x = 0; x <= width; x += 4)] runs its body. *)
Definition curveSteps (width : Q) : nat :=
  if Qle_bool 0 width then Z.to_nat (Qfloor (width / 4) + 1) else O.

Definition parallaxLayer (width height elapsed : Q) (settings : CinematicSettings)
    (ctx : Ctx) (layer : nat) : Ctx :=
  let layers := 4 in
  let depth := ofNat layer / layers in
  let intensity := 1 - depth in
  let baseY := height * (0.4 + depth * 0.4) in
  let amplitude := 60 + depth * 120 in
  let waveSpeed :=
    (0.1 + depth * 0.2) * getCameraSpeedMultiplier (cameraMotionId settings) in
  let slope := 0.3 + depth * 0.5 in
  let ctx := beginPath ctx in
  let ctx := parallaxCurve (curveSteps width) 0 width baseY amplitude slope
               waveSpeed elapsed (ofNat layer) settings ctx in
  let ctx := addPath (LineTo width height) ctx in
  let ctx := addPath (LineTo 0 height) ctx in
  let ctx := addPath ClosePath ctx in
  let gradient :=
    LinearGradient 0 (baseY - 200) 0 height
      [ (0, CssRgba 0 0 0 (0.15 + depth * 0.3));
        (1, CssRgba 0 0 0 (0.35 + depth * 0.6)) ] in
  let ctx := setFillStyle gradient ctx in
  let ctx := fill ctx in
  let ctx := setGlobalAlpha (0.18 * intensity) ctx in
  let ctx := setStrokeStyle (Solid (CssRgba 255 255 255 (0.1 * intensity))) ctx in
  let ctx := setLineWidth (1.5 - depth * 1.1) ctx in
  let ctx := stroke ctx in
  setGlobalAlpha 1 ctx.

Definition paintParallaxShapes (ctx : Ctx) (width height elapsed : Q)
    (settings : CinematicSettings) : Ctx :=
  fold_left (parallaxLayer width height elapsed settings) (seq 0 4) ctx.

Definition lightSweep (width height elapsed : Q) (mood : Mood)
    (settings : CinematicSettings) (ctx : Ctx) (index : nat) : Ctx :=
  let base := elapsed * 0.2 in
  let progress := mod1 (base + ofNat index * 0.6) in
  let sweepX :=
    width * 0.2 + progress * width * 0.6
    + Math_sin (elapsed * 0.6 + ofNat index) * width * 0.08 in
  let sweepWidth := width * (0.15 + bloom settings * 0.25) in
  let gradient :=
    LinearGradient (sweepX - sweepWidth) 0 (sweepX + sweepWidth) 0
      [ (0, CssText "transparent");
        (0.5, CssText (light mood ++ (if Nat.eqb index 0 then "80" else "40")));
        (1, CssText "transparent") ] in
  let ctx := setFillStyle gradient ctx in
  let ctx := setComposite "screen" ctx in
  fillRect (sweepX - sweepWidth) (height * 0.1) (sweepWidth * 2) (height * 0.8) ctx.

Definition paintLightSweeps (ctx : Ctx) (width height elapsed : Q) (mood : Mood)
    (settings : CinematicSettings) : Ctx :=
  let ctx := fold_left (lightSweep width height elapsed mood settings) (seq 0 3) ctx in
  setComposite "source-over" ctx.

(** Where [paintParticles] puts the particle of index [index]. *)
Definition particleX (width elapsed : Q) (settings : CinematicSettings)
    (particle : Particle) (index : nat) : Q :=
  let motion := getCameraMotionOffset (cameraMotionId settings) elapsed (axis particle) in
  (baseX particle + Math_sin (elapsed * 0.17 + ofNat index) * 0.02 + fst motion * 0.001)
    * width
  + Math_sin (elapsed * speed particle * 0.2 + ofNat index) * width * 0.02.

Definition particleY (height elapsed : Q) (settings : CinematicSettings)
    (particle : Particle) (index : nat) : Q :=
  let motion := getCameraMotionOffset (cameraMotionId settings) elapsed (axis particle) in
  (baseY particle
   + Math_cos (elapsed * 0.12 + ofNat index) * 0.02
   + snd motion * 0.001
   + Math_sin (elapsed * speed particle * 0.1 + ofNat index) * 0.01)
    * height.

Definition paintParticle (width height elapsed : Q) (settings : CinematicSettings)
    (mood : Mood) (ctx : Ctx) (entry : nat * Particle) : Ctx :=
  let '(index, particle) := entry in
  let x := particleX width elapsed settings particle index in
  let y := particleY height elapsed settings particle index in
  let radius := radius particle * (1 + Math_sin (elapsed * speed particle) * 0.4) in
  let gradient :=
    RadialGradient x y 0 x y (radius * 18)
      [ (0, CssText (light mood ++ "dd")); (1, CssText "transparent") ] in
  let ctx := setFillStyle gradient ctx in
  fillRect (x - radius * 10) (y - radius * 10) (radius * 20) (radius * 20) ctx.

(** [paintParticles] reads the particle array and returns it as it got
    it, next to the context it painted on. *)
Definition paintParticles (ctx : Ctx) (width height elapsed : Q)
    (particles : list Particle) (settings : CinematicSettings) (mood : Mood)
    : Ctx * list Particle :=
  let ctx := save ctx in
  let ctx := setComposite "lighter" ctx in
  let ctx := setGlobalAlpha (0.4 + bloom settings * 0.3) ctx in
  let ctx := fold_left (paintParticle width height elapsed settings mood)
               (combine (seq 0 (length particles)) particles) ctx in
  let ctx := setGlobalAlpha (0.8 * chromaShift settings) ctx in
  let ctx := setComposite "screen" ctx in
  let ctx := setFilter (BlurSaturate (1.5 + bloom settings * 5)
                                     (1.3 + chromaShift settings * 0.7)) ctx in
  let ctx := setFillStyle (Solid (CssText (palette2 mood ++ "66"))) ctx in
  let ctx := fillRect 0 0 width height ctx in
  let ctx := setFilter FilterNone ctx in
  (restore ctx, particles).

(** The two guards compare exact rationals.  Where the thickness is zero
    or nearly so in exact arithmetic, the doubles of the code can decide a
    guard the other way: on a 1836 x 720 frame at the ratio 2.55 the
    product [720 * 2.55] rounds below 1836, the thickness comes out as
    [1.1e-13] and the code paints two bars that thin, where this
    definition paints none. *)
Definition paintBars (ctx : Ctx) (width height : Q) (settings : CinematicSettings) : Ctx :=
  let targetAspect := aspectRatio settings in
  let currentAspect := width / height in
  let ctx := save ctx in
  let ctx := setGlobalAlpha 0.75 ctx in
  let ctx := setFillStyle (Solid (CssText "rgba(0,0,0,0.85)")) ctx in
  let ctx :=
    if Qlt_le_dec targetAspect currentAspect then
      let desiredHeight := width / targetAspect in
      let barHeight := (height - desiredHeight) / 2 in
      if Qlt_le_dec 0 barHeight then
        let ctx := fillRect 0 0 width barHeight ctx in
        fillRect 0 (height - barHeight) width barHeight ctx
      else ctx
    else
      let desiredWidth := height * targetAspect in
      let barWidth := (width - desiredWidth) / 2 in
      if Qlt_le_dec 0 barWidth then
        let ctx := fillRect 0 0 barWidth height ctx in
        fillRect (width - barWidth) 0 barWidth height ctx
      else ctx in
  restore ctx.

Definition paintGrain (ctx : Ctx) (width height : Q) (grainCanvas : GrainTile)
    (settings : CinematicSettings) : Ctx :=
  let ctx := save ctx in
  let ctx := setGlobalAlpha (grain settings) ctx in
  let ctx := setFillStyle (Pattern grainCanvas "repeat") ctx in
  let ctx := fillRect 0 0 width height ctx in
  restore ctx.

Definition drawFrame (ctx : Ctx) (width height elapsed : Q)
    (settings : CinematicSettings) (mood : Mood) (particles : list Particle)
    (grainCanvas : GrainTile) : Ctx * list Particle :=
  let ctx := save ctx in
  let ctx := clearRect 0 0 width height ctx in
  let ctx := paintBackground ctx width height elapsed mood settings in
  let ctx := paintParallaxShapes ctx width height elapsed settings in
  let ctx := paintLightSweeps ctx width height elapsed mood settings in
  let '(ctx, particles) := paintParticles ctx width height elapsed particles settings mood in
  let ctx := paintBars ctx width height settings in
  let ctx := paintGrain ctx width height grainCanvas settings in
  (restore ctx, particles).

(** *** The frame clock: the effect of [CinematicCanvas] *)

(** [Math_random k] is what the k-th call of [Math.random] returns. *)
Variable Math_random : nat -> Q.

(** [getResolution] of [lib/cinematicPresets], which is not part of the
    sources: preset id and aspect ratio to pixel width and height. *)
Variable getResolution : string -> Q -> Q * Q.

(** The mood table of [lib/cinematicPresets] and its default entry. *)
Variable moods : list Mood.
Variable defaultMood : Mood.

(** [{ ...defaultSettings, ...settings }]: [settings] carries every field
    of the record, so each default is overridden. *)
Definition mergeSettings (defaultSettings settings : CinematicSettings)
    : CinematicSettings := settings.

(** The callback of [Array.from({ length }).map]: [n] elements are left,
    the next index is [index] and [k] calls of [Math.random] were made. *)
Fixpoint mapParticles (n index k : nat) : list Particle * nat :=
  match n with
  | O => ([], k)
  | S n' =>
      let particle :=
        {| baseX := Math_random k;
           baseY := Math_random (k + 1);
           amplitude := 0.05 + Math_random (k + 2) * 0.35;
           speed := 0.6 + Math_random (k + 3) * 1.2;
           radius := 0.6 + Math_random (k + 4) * 1.9;
           axis := if Nat.eqb (index mod 2) 0 then 1 else -1 |} in
      let '(rest, k') := mapParticles n' (S index) (k + 5) in
      (particle :: rest, k')
  end.

Definition particleCount (settings : CinematicSettings) : Q :=
  Math_round (120 * (parallax settings + 0.5)).

(** ToLength of [Array.from]: a negative length is an empty array. *)
Definition arrayLength (n : Q) : nat := Z.to_nat (Qfloor n).

Definition makeParticles (settings : CinematicSettings) (k : nat)
    : list Particle * nat :=
  mapParticles (arrayLength (particleCount settings)) 0 k.

(** Storing a number in a [Uint8ClampedArray]: clamped to 0..255 and
    rounded to the nearest integer, ties to even. *)
Definition toUint8Clamped (x : Q) : Q :=
  let y := Qmax 0 (Qmin 255 x) in
  let f := Qfloor y in
  let d := y - inject_Z f in
  if Qlt_le_dec d 0.5 then inject_Z f
  else if Qlt_le_dec 0.5 d then inject_Z (f + 1)
  else if Z.even f then inject_Z f else inject_Z (f + 1).

Definition blankTile : GrainTile :=
  {| tileWidth := 240; tileHeight := 135; data := fun _ => 0 |}.

(** [generateGrain]: one call of [Math.random] per texel, written to the
    three colour bytes; the alpha byte is 35. *)
Definition generateGrain (grainCtx : bool) (tile : GrainTile) (k : nat)
    : GrainTile * nat :=
  if grainCtx then
    let texels := Z.to_nat (tileWidth tile * tileHeight tile) in
    ({| tileWidth := tileWidth tile; tileHeight := tileHeight tile;
        data := fun i =>
          if (i <? 4 * texels)%nat then
            if Nat.eqb (i mod 4) 3 then 35
            else toUint8Clamped (Math_random (k + i / 4) * 255)
          else 0 |},
     (k + texels)%nat)
  else (tile, k).

Record CanvasElement := {
  context2d : option Ctx;
  grainContext2d : bool
}.

Record FrameClock := {
  clockCtx : Ctx;
  clockWidth : Q;
  clockHeight : Q;
  clockSettings : CinematicSettings;
  clockMood : Mood;
  clockStartTime : Q;
  clockParticles : list Particle;
  clockGrainCtx : bool;
  clockGrainCanvas : GrainTile;
  randomCalls : nat;
  animationFrameRef : option nat
}.

(** The body of the effect up to the first [requestAnimationFrame];
    [None] when the canvas or its 2D context is missing.  [now] is what
    [performance.now()] returns. *)
Definition startClock (canvasRef : option CanvasElement)
    (defaultSettings settings : CinematicSettings) (now : Q) (k : nat)
    : option FrameClock :=
  match canvasRef with
  | None => None
  | Some canvas =>
      match context2d canvas with
      | None => None
      | Some ctx =>
          let effectiveSettings := mergeSettings defaultSettings settings in
          let '(width, height) :=
            getResolution (resolutionPresetId effectiveSettings)
                          (aspectRatio effectiveSettings) in
          let ctx := resizeCanvas ctx in
          let mood := getMood moods defaultMood (moodId effectiveSettings) in
          let startTime := now in
          let '(particles, k) := makeParticles effectiveSettings k in
          let '(grainCanvas, k) := generateGrain (grainContext2d canvas) blankTile k in
          Some {| clockCtx := ctx;
                  clockWidth := width;
                  clockHeight := height;
                  clockSettings := effectiveSettings;
                  clockMood := mood;
                  clockStartTime := startTime;
                  clockParticles := particles;
                  clockGrainCtx := grainContext2d canvas;
                  clockGrainCanvas := grainCanvas;
                  randomCalls := k;
                  animationFrameRef := Some 1%nat |}
      end
  end.

Definition renderFrame (s : FrameClock) (timestamp : Q) : FrameClock :=
  let elapsed := (timestamp - clockStartTime s) / 1000 in
  let '(grainCanvas, k) :=
    generateGrain (clockGrainCtx s) (clockGrainCanvas s) (randomCalls s) in
  let '(ctx, particles) :=
    drawFrame (clockCtx s) (clockWidth s) (clockHeight s) elapsed (clockSettings s)
              (clockMood s) (clockParticles s) grainCanvas in
  {| clockCtx := ctx;
     clockWidth := clockWidth s;
     clockHeight := clockHeight s;
     clockSettings := clockSettings s;
     clockMood := clockMood s;
     clockStartTime := clockStartTime s;
     clockParticles := particles;
     clockGrainCtx := clockGrainCtx s;
     clockGrainCanvas := grainCanvas;
     randomCalls := k;
     animationFrameRef := match animationFrameRef s with
                          | Some id => Some (S id)
                          | None => Some 1%nat
                          end |}.

(** The clock after the display has delivered the ticks [timestamps]. *)
Definition runFrames (s : FrameClock) (timestamps : list Q) : FrameClock :=
  fold_left renderFrame timestamps s.

End Render.

(** ** The studio component: capture session and shot planner *)

Module Studio.

Record ShotPlan := {
  title : string;
  description : string;
  shotDuration : Q
}.

Section ShotPlanner.

(** The tables of [lib/cinematicPresets] and [String.prototype.toLowerCase]. *)
Variable moods : list Mood.
Variable defaultMood : Mood.
Variable cameraMotions : list CameraMotion.
Variable defaultMotion : CameraMotion.
Variable toLowerCase : string -> string.

Definition buildShotPlan (settings : CinematicSettings) : list ShotPlan :=
  let segments := 3 in
  let segmentDuration := duration settings / segments in
  let mood := getMood moods defaultMood (moodId settings) in
  let motion := getCameraMotion cameraMotions defaultMotion (cameraMotionId settings) in
  [ {| title := "Plan d’ouverture · establishing";
       description :=
         "Halo " ++ toLowerCase (mood_name mood) ++ " avec mouvement "
         ++ toLowerCase (motion_name motion)
         ++ " qui révèle progressivement les volumes.";
       shotDuration := segmentDuration * 1.1 |};
    {| title := "Plan médian · montée en tension";
       description :=
         "Lignes de perspective amplifiées, oscillation des couches parallaxe et intensification du flare principal.";
       shotDuration := segmentDuration * 0.9 |};
    {| title := "Plan final · apogée";
       description :=
         "Pulse chromatique soutenu, grain accentué et ralentissement progressif pour préparer un cut vers le noir.";
       shotDuration := segmentDuration * 1.2 |} ].

End ShotPlanner.

(** *** Browser objects *)

Record MediaRecorderOptions := {
  mimeType : string;
  videoBitsPerSecond : Q
}.

Record MediaRecorder := {
  stream : nat;
  options : MediaRecorderOptions
}.

(** A thrown value: an [Error] (a [DOMException] is one) with its message,
    or something that is not an [Error]. *)
Inductive Thrown :=
| ErrorObject (message : string)
| NotAnError.

(** Media streams, timers and blob URLs are named by numbers; the browser
    hands out fresh ones.  [liveTracks] holds the streams whose tracks
    have not been stopped, [activeIntervals] the interval timers that
    have not been cleared, and [objectUrls] maps each blob URL that has
    not been revoked to the sizes of the chunks of its blob. *)
Record Browser := {
  liveTracks : gset nat;
  activeIntervals : gset nat;
  objectUrls : gmap nat (list nat);
  nextStream : nat;
  nextTimer : nat;
  nextUrl : nat
}.

(** React state and refs of [CinematicStudio]. *)
Record Component := {
  isGenerating : bool;
  progress : Q;
  videoUrl : option nat;
  error : option string;
  mediaRecorderRef : option MediaRecorder;
  progressIntervalRef : option nat
}.

Inductive Event :=
| SetError (e : option string)
| SetIsGenerating (b : bool)
| SetProgress (p : Q)
| SetVideoUrl (u : option nat)
| RevokeObjectURL (u : nat)
| CaptureStream (frameRate : Q) (result : option nat)
| NewMediaRecorder (stream : nat) (opts : MediaRecorderOptions)
| RecorderStart
| SetInterval (id : nat) (ms : Q)
| SetTimeout (id : nat) (ms : Q)
| RecorderStop
| CreateObjectURL (u : nat) (chunks : list nat)
| ClearInterval (id : nat)
| TrackStop (stream : nat).

(** What the sink does between [recorder.start()] and the settlement of
    [stopPromise]. *)
Inductive Sink :=
| StopsOnRequest            (* records until [stop()], then fires [stop] *)
| StopsEarly                (* fires [stop] by itself before the deadline *)
| Fails (cause : option string) (stopFollows : bool)
                            (* fires [error] before the deadline; a [stop]
                               event may follow it *)
| Silent.                   (* never fires [stop] nor [error] *)

(** What the platform answers during one call of [handleGenerate]. *)
Record Scenario := {
  canvasPresent : bool;
  mediaRecorderDefined : bool;
  captureStreamWorks : bool;
  constructorThrows : option Thrown;
  startThrows : option Thrown;
  chunks : list (option nat);   (* [event.data] sizes of [dataavailable] *)
  ticks : list Q;               (* [performance.now() - startTime] read by
                                   the interval callbacks that run before
                                   the sink fires [stop] or [error] by
                                   itself, or up to the deadline if it
                                   does not *)
  lateTicks : list Q;           (* the same for the callbacks that run
                                   after that: up to the deadline after an
                                   early [stop] or an [error], and between
                                   the deadline and the [stop] event that
                                   answers [recorder.stop()] otherwise *)
  sink : Sink
}.

Record World := {
  comp : Component;
  browser : Browser;
  trace : list Event
}.

(** *** A state monad with exceptions and suspension *)

Inductive Result (A : Type) :=
| Ok (a : A)
| Throw (e : Thrown)
| Pending.                  (* awaiting a promise that never settles *)

Arguments Ok {A} a.
Arguments Throw {A} e.
Arguments Pending {A}.

Definition M (A : Type) : Type := World -> Result A * World.

Definition ret {A} (a : A) : M A := fun w => (Ok a, w).

Definition bind {A B} (m : M A) (f : A -> M B) : M B :=
  fun w =>
    match m w with
    | (Ok a, w') => f a w'
    | (Throw e, w') => (Throw e, w')
    | (Pending, w') => (Pending, w')
    end.

Definition throw {A} (e : Thrown) : M A := fun w => (Throw e, w).

Definition suspend {A} : M A := fun w => (Pending, w).

(** [try { body } catch (err) { handler err } finally { finalizer }];
    a body that never resumes runs neither. *)
Definition tryCatchFinally (body : M unit) (handler : Thrown -> M unit)
    (finalizer : M unit) : M unit :=
  fun w =>
    match body w with
    | (Ok _, w') => finalizer w'
    | (Throw e, w') => bind (handler e) (fun _ => finalizer) w'
    | (Pending, w') => (Pending, w')
    end.

Declare Scope studio_scope.
Delimit Scope studio_scope with studio.
Notation "x <- m ;; k" := (bind m (fun x => k))
  (at level 100, m at next level, right associativity) : studio_scope.
Notation "m ;;; k" := (bind m (fun _ => k))
  (at level 100, right associativity) : studio_scope.
Open Scope studio_scope.

Definition logEvent (e : Event) (w : World) : World :=
  {| comp := comp w; browser := browser w; trace := trace w ++ [e] |}.

Definition modify (f : World -> World) : M unit := fun w => (Ok tt, f w).

Definition withComp (f : Component -> Component) (w : World) : World :=
  {| comp := f (comp w); browser := browser w; trace := trace w |}.

Definition withBrowser (f : Browser -> Browser) (w : World) : World :=
  {| comp := comp w; browser := f (browser w); trace := trace w |}.

Definition get {A} (f : World -> A) : M A := fun w => (Ok (f w), w).

(** *** State setters and browser calls *)

Definition setError (e : option string) : M unit :=
  modify (fun w => logEvent (SetError e) (withComp (fun c =>
    {| isGenerating := isGenerating c; progress := progress c; videoUrl := videoUrl c;
       error := e; mediaRecorderRef := mediaRecorderRef c;
       progressIntervalRef := progressIntervalRef c |}) w)).

Definition setIsGenerating (b : bool) : M unit :=
  modify (fun w => logEvent (SetIsGenerating b) (withComp (fun c =>
    {| isGenerating := b; progress := progress c; videoUrl := videoUrl c;
       error := error c; mediaRecorderRef := mediaRecorderRef c;
       progressIntervalRef := progressIntervalRef c |}) w)).

Definition setProgress (p : Q) : M unit :=
  modify (fun w => logEvent (SetProgress p) (withComp (fun c =>
    {| isGenerating := isGenerating c; progress := p; videoUrl := videoUrl c;
       error := error c; mediaRecorderRef := mediaRecorderRef c;
       progressIntervalRef := progressIntervalRef c |}) w)).

Definition setVideoUrl (u : option nat) : M unit :=
  modify (fun w => logEvent (SetVideoUrl u) (withComp (fun c =>
    {| isGenerating := isGenerating c; progress := progress c; videoUrl := u;
       error := error c; mediaRecorderRef := mediaRecorderRef c;
       progressIntervalRef := progressIntervalRef c |}) w)).

Definition setMediaRecorderRef (r : option MediaRecorder) : M unit :=
  modify (withComp (fun c =>
    {| isGenerating := isGenerating c; progress := progress c; videoUrl := videoUrl c;
       error := error c; mediaRecorderRef := r;
       progressIntervalRef := progressIntervalRef c |})).

Definition setProgressIntervalRef (id : option nat) : M unit :=
  modify (withComp (fun c =>
    {| isGenerating := isGenerating c; progress := progress c; videoUrl := videoUrl c;
       error := error c; mediaRecorderRef := mediaRecorderRef c;
       progressIntervalRef := id |})).

Definition revokeObjectURL (u : nat) : M unit :=
  modify (fun w => logEvent (RevokeObjectURL u) (withBrowser (fun b =>
    {| liveTracks := liveTracks b; activeIntervals := activeIntervals b;
       objectUrls := delete u (objectUrls b);
       nextStream := nextStream b; nextTimer := nextTimer b; nextUrl := nextUrl b |}) w)).

Definition createObjectURL (blob : list nat) : M nat :=
  fun w =>
    let u := nextUrl (browser w) in
    (Ok u, logEvent (CreateObjectURL u blob) (withBrowser (fun b =>
      {| liveTracks := liveTracks b; activeIntervals := activeIntervals b;
         objectUrls := <[u := blob]> (objectUrls b);
         nextStream := nextStream b; nextTimer := nextTimer b;
         nextUrl := S (nextUrl b) |}) w)).

Definition captureStream (sc : Scenario) (frameRate : Q) : M (option nat) :=
  fun w =>
    if captureStreamWorks sc then
      let s := nextStream (browser w) in
      (Ok (Some s), logEvent (CaptureStream frameRate (Some s)) (withBrowser (fun b =>
        {| liveTracks := {[ s ]} ∪ liveTracks b; activeIntervals := activeIntervals b;
           objectUrls := objectUrls b;
           nextStream := S (nextStream b); nextTimer := nextTimer b;
           nextUrl := nextUrl b |}) w))
    else (Ok None, logEvent (CaptureStream frameRate None) w).

Definition newMediaRecorder (sc : Scenario) (stream : nat)
    (opts : MediaRecorderOptions) : M MediaRecorder :=
  modify (logEvent (NewMediaRecorder stream opts)) ;;;
  match constructorThrows sc with
  | Some e => throw e
  | None => ret {| stream := stream; options := opts |}
  end.

Definition recorderStart (sc : Scenario) : M unit :=
  modify (logEvent RecorderStart) ;;;
  match startThrows sc with
  | Some e => throw e
  | None => ret tt
  end.

Definition recorderStop : M unit := modify (logEvent RecorderStop).

Definition setInterval (ms : Q) : M nat :=
  fun w =>
    let id := nextTimer (browser w) in
    (Ok id, logEvent (SetInterval id ms) (withBrowser (fun b =>
      {| liveTracks := liveTracks b; activeIntervals := {[ id ]} ∪ activeIntervals b;
         objectUrls := objectUrls b;
         nextStream := nextStream b; nextTimer := S (nextTimer b);
         nextUrl := nextUrl b |}) w)).

Definition setTimeout (ms : Q) : M nat :=
  fun w =>
    let id := nextTimer (browser w) in
    (Ok id, logEvent (SetTimeout id ms) (withBrowser (fun b =>
      {| liveTracks := liveTracks b; activeIntervals := activeIntervals b;
         objectUrls := objectUrls b;
         nextStream := nextStream b; nextTimer := S (nextTimer b);
         nextUrl := nextUrl b |}) w)).

Definition clearInterval (id : nat) : M unit :=
  modify (fun w => logEvent (ClearInterval id) (withBrowser (fun b =>
    {| liveTracks := liveTracks b; activeIntervals := activeIntervals b ∖ {[ id ]};
       objectUrls := objectUrls b;
       nextStream := nextStream b; nextTimer := nextTimer b; nextUrl := nextUrl b |}) w)).

(** [stream.getTracks().forEach((track) => track.stop())] *)
Definition stopTracks (stream : nat) : M unit :=
  modify (fun w => logEvent (TrackStop stream) (withBrowser (fun b =>
    {| liveTracks := liveTracks b ∖ {[ stream ]}; activeIntervals := activeIntervals b;
       objectUrls := objectUrls b;
       nextStream := nextStream b; nextTimer := nextTimer b; nextUrl := nextUrl b |}) w)).

(** *** [handleGenerate] *)

Definition recorderOptions (settings : CinematicSettings) : MediaRecorderOptions :=
  {| mimeType := "video/webm;codecs=vp9";
     videoBitsPerSecond := Math_max 2500000 (Math_round (6000000 * bloom settings)) |}.

(** [ondataavailable]: the chunks pushed to [blobs]. *)
Definition keptBlobs (chunks : list (option nat)) : list nat :=
  flat_map (fun data => match data with
                        | Some size => if (0 <? size)%nat then [size] else []
                        | None => []
                        end) chunks.

(** [recorder.onstop]: the URL it passes to [resolve]. *)
Definition onstop (sc : Scenario) : M nat := createObjectURL (keptBlobs (chunks sc)).

(** [recorder.onerror]: the value it passes to [reject]. *)
Definition onerror (cause : option string) : Thrown :=
  match cause with
  | Some message => ErrorObject message
  | None => ErrorObject "Erreur inconnue pendant l’enregistrement."
  end.

(** The argument of [setProgress] in the callback given to [setInterval];
    [elapsed] is [performance.now() - startTime]. *)
Definition tickProgress (totalDuration elapsed : Q) : Q :=
  Math_min 100 (elapsed / totalDuration * 100).

Definition onTick (totalDuration elapsed : Q) : M unit :=
  setProgress (tickProgress totalDuration elapsed).

Fixpoint runTicks (totalDuration : Q) (readings : list Q) : M unit :=
  match readings with
  | [] => ret tt
  | elapsed :: rest => onTick totalDuration elapsed ;;; runTicks totalDuration rest
  end.

Inductive Promise :=
| Unsettled
| Resolved (url : nat)
| Rejected (e : Thrown).

(** What happens while the routine waits for the deadline, and what has
    become of [stopPromise] by then.  The interval callbacks of [ticks]
    run; a sink that stops or fails by itself then fires its events, which
    settle [stopPromise] at once, and the interval goes on reporting
    ([lateTicks]) until the deadline. *)
Definition recordingPhase (sc : Scenario) (totalDuration : Q) : M Promise :=
  runTicks totalDuration (ticks sc) ;;;
  match sink sc with
  | StopsOnRequest => ret Unsettled
  | Silent => ret Unsettled
  | StopsEarly =>
      url <- onstop sc ;;
      runTicks totalDuration (lateTicks sc) ;;;
      ret (Resolved url)
  | Fails cause stopFollows =>
      (if stopFollows then (_ <- onstop sc ;; ret tt) else ret tt) ;;;
      runTicks totalDuration (lateTicks sc) ;;;
      ret (Rejected (onerror cause))
  end.

(** [await stopPromise]: settled already, or settled by the [stop] event
    that answers [recorder.stop()], before which the interval still
    reports ([lateTicks]). *)
Definition awaitStop (sc : Scenario) (totalDuration : Q) (p : Promise) : M nat :=
  match p with
  | Resolved url => ret url
  | Rejected e => throw e
  | Unsettled =>
      runTicks totalDuration (lateTicks sc) ;;;
      match sink sc with
      | StopsOnRequest => onstop sc
      | _ => suspend
      end
  end.

Definition tryBody (settings : CinematicSettings) (sc : Scenario)
    (videoUrl : option nat) : M unit :=
  setError None ;;;
  setIsGenerating true ;;;
  setProgress 0 ;;;
  match videoUrl with
  | Some u => revokeObjectURL u ;;; setVideoUrl None
  | None => ret tt
  end ;;;
  stream <- captureStream sc (frameRate settings) ;;
  match stream with
  | None => throw (ErrorObject "Impossible de capturer le flux vidéo depuis le canvas.")
  | Some stream =>
      recorder <- newMediaRecorder sc stream (recorderOptions settings) ;;
      setMediaRecorderRef (Some recorder) ;;;
      recorderStart sc ;;;
      let totalDuration := duration settings * 1000 in
      id <- setInterval 120 ;;
      setProgressIntervalRef (Some id) ;;;
      _ <- setTimeout totalDuration ;;
      stopPromise <- recordingPhase sc totalDuration ;;
      match stopPromise with
      | Unsettled => recorderStop      (* [recorder.state !== "inactive"] *)
      | _ => ret tt
      end ;;;
      url <- awaitStop sc totalDuration stopPromise ;;
      setVideoUrl (Some url) ;;;
      setProgress 100
  end.

Definition catchHandler (err : Thrown) : M unit :=
  setError (Some match err with
                 | ErrorObject message => message
                 | NotAnError =>
                     "Une erreur inattendue est survenue pendant la génération."
                 end).

Definition finallyBlock : M unit :=
  ref <- get (fun w => progressIntervalRef (comp w)) ;;
  match ref with
  | Some id => if Nat.eqb id 0 then ret tt else clearInterval id
  | None => ret tt
  end ;;;
  recorder <- get (fun w => mediaRecorderRef (comp w)) ;;
  match recorder with
  | Some r => stopTracks (stream r)
  | None => ret tt
  end ;;;
  setIsGenerating false.

(** [videoUrl] is the state the callback closed over, the one of the
    render that created it. *)
Definition handleGenerateM (settings : CinematicSettings) (sc : Scenario) : M unit :=
  if negb (canvasPresent sc) then
    setError (Some "Canvas introuvable pour l’enregistrement.")
  else if negb (mediaRecorderDefined sc) then
    setError (Some "MediaRecorder n’est pas disponible dans ce navigateur. Essayez Chrome ou Edge version récente.")
  else
    videoUrl <- get (fun w => videoUrl (comp w)) ;;
    tryCatchFinally (tryBody settings sc videoUrl) catchHandler finallyBlock.

(** One call of [handleGenerate] from the component state [c] and the
    browser state [b]; the trace holds the calls it made, oldest first. *)
Definition handleGenerate (settings : CinematicSettings) (sc : Scenario)
    (c : Component) (b : Browser) : Result unit * World :=
  handleGenerateM settings sc {| comp := c; browser := b; trace := [] |}.

(** The values passed to [setProgress], oldest first. *)
Definition progressReports (t : list Event) : list Q :=
  flat_map (fun e => match e with SetProgress p => [p] | _ => [] end) t.

(** The option objects passed to [new MediaRecorder], oldest first. *)
Definition recorderCalls (t : list Event) : list MediaRecorderOptions :=
  flat_map (fun e => match e with NewMediaRecorder _ opts => [opts] | _ => [] end) t.

(** The scenarios in which [handleGenerate] reaches [setVideoUrl(url)]. *)
Definition completes (sc : Scenario) : bool :=
  canvasPresent sc && mediaRecorderDefined sc && captureStreamWorks sc
  && match constructorThrows sc, startThrows sc, sink sc with
     | None, None, StopsOnRequest => true
     | None, None, StopsEarly => true
     | _, _, _ => false
     end.

(** The checks [handleGenerate] makes before it creates the recorder. *)
Definition passesChecks (sc : Scenario) : bool :=
  canvasPresent sc && mediaRecorderDefined sc && captureStreamWorks sc.



Definition isCreateObjectURL (e : Event) : bool :=
  match e with CreateObjectURL _ _ => true | _ => false end.

(** The component as first rendered, and a browser that has handed out
    nothing yet. *)
Definition initialComponent : Component :=
  {| isGenerating := false; progress := 0; videoUrl := None; error := None;
     mediaRecorderRef := None; progressIntervalRef := None |}.

Definition initialBrowser : Browser :=
  {| liveTracks := ∅; activeIntervals := ∅; objectUrls := ∅;
     nextStream := 1; nextTimer := 1; nextUrl := 1 |}.

End Studio.

(** ** Sample inputs *)

Import Studio.

Definition demoSettings : CinematicSettings :=
  {| duration := 6; frameRate := 30; resolutionPresetId := "hd";
     aspectRatio := 16 # 9; moodId := "noir"; cameraMotionId := "orbit";
     bloom := 0.5; grain := 0.3; parallax := 0.5; chromaShift := 0.2 |}.

Definition scopeSettings : CinematicSettings :=
  {| duration := 6; frameRate := 30; resolutionPresetId := "hd";
     aspectRatio := 2.39; moodId := "noir"; cameraMotionId := "orbit";
     bloom := 0.5; grain := 0.3; parallax := 0.5; chromaShift := 0.2 |}.

(** A bounded stand-in for the sine, used to run the layer stack on
    concrete inputs. *)
Definition rationalWave (x : Q) : Q := 2 * x / (1 + x * x).

Definition noirMood : Mood :=
  {| mood_id := "noir"; mood_name := "Noir"; mood_description := "";
     palette0 := "#0f172a"; palette1 := "#1e293b"; palette2 := "#020617";
     light := "#f8fafc"; haze := "#0f172a55" |}.

(** ** The camera-motion catalog the two switches implement

    The contract of the specification for a preset catalog is
    [lookupPreset]; the table below lists, for each [case] label of
    [getCameraMotionOffset] and [getCameraSpeedMultiplier], what the switch
    returns under that label. *)

Record CameraPreset := {
  camera_id : string;
  speedMultiplier : Q;
  motionOffset : Q -> Q -> Q * Q
}.

Section CameraCatalog.

Variables Math_sin Math_cos : Q -> Q.

Definition dollyPreset : CameraPreset :=
  {| camera_id := "dolly"; speedMultiplier := 1.4;
     motionOffset := fun elapsed axis =>
       (Math_sin (elapsed * 0.4) * 420 * axis, Math_cos (elapsed * 0.25) * 280) |}.

Definition driftPreset : CameraPreset :=
  {| camera_id := "drift"; speedMultiplier := 0.9;
     motionOffset := fun elapsed axis =>
       (Math_sin (elapsed * 0.6 + axis) * 320, Math_sin (elapsed * 0.35 + axis) * 220) |}.

Definition pulsePreset : CameraPreset :=
  {| camera_id := "pulse"; speedMultiplier := 1.8;
     motionOffset := fun elapsed axis =>
       (Math_sin (elapsed * 3) * 65, Math_cos (elapsed * 1.5) * 45) |}.

Definition orbitPreset : CameraPreset :=
  {| camera_id := "orbit"; speedMultiplier := 1;
     motionOffset := fun elapsed axis =>
       (Math_cos (elapsed * 0.35) * 380, Math_sin (elapsed * 0.3) * 200) |}.

Definition cameraCatalog : list CameraPreset :=
  [dollyPreset; driftPreset; pulsePreset; orbitPreset].

(** The lookup of the specification on that table, [orbit] being the
    designated default. *)
Definition lookupCamera (id : string) : CameraPreset :=
  lookupPreset camera_id cameraCatalog orbitPreset id.

End CameraCatalog.

Definition cameraIds : list string := ["dolly"; "drift"; "pulse"; "orbit"].

Definition duskMood : Mood :=
  {| mood_id := "dusk"; mood_name := "Dusk"; mood_description := "";
     palette0 := "#1b1035"; palette1 := "#7c2d12"; palette2 := "#020617";
     light := "#fbbf24"; haze := "#7c2d1255" |}.

Definition orbitMotion : CameraMotion :=
  {| motion_id := "orbit"; motion_name := "Orbit"; motion_description := "" |}.

(** A stand-in for [getResolution]: 1280 pixels wide, the height rounded
    from the aspect ratio. *)
Definition sampleResolution (presetId : string) (aspect : Q) : Q * Q :=
  (1280, Math_round (1280 / aspect)).

Definition sampleCanvas : CanvasElement :=
  {| context2d := Some freshCtx; grainContext2d := true |}.

(** A session that completes: the sink stops when asked to. *)
Definition okScenario : Scenario :=
  {| canvasPresent := true; mediaRecorderDefined := true; captureStreamWorks := true;
     constructorThrows := None; startThrows := None;
     chunks := [Some 4096%nat; None; Some 0%nat];
     ticks := [120; 3000; 5990]; lateTicks := [6001];
     sink := StopsOnRequest |}.
(** A browser that defines [MediaRecorder] but does not record
    [video/webm;codecs=vp9]: the constructor throws. *)
Definition unsupportedCodecScenario : Scenario :=
  {| canvasPresent := true; mediaRecorderDefined := true; captureStreamWorks := true;
     constructorThrows := Some (ErrorObject "NotSupportedError");
     startThrows := None; chunks := []; ticks := []; lateTicks := [];
     sink := StopsOnRequest |}.

(** The component after a first artifact has been generated. *)
Definition componentWithArtifact : Component :=
  {| isGenerating := false; progress := 100; videoUrl := Some 1%nat; error := None;
     mediaRecorderRef :=
       Some {| stream := 1%nat; options := recorderOptions demoSettings |};
     progressIntervalRef := Some 1%nat |}.

Definition browserWithArtifact : Browser :=
  {| liveTracks := ∅; activeIntervals := ∅; objectUrls := {[ 1%nat := [4096%nat] ]};
     nextStream := 2; nextTimer := 3; nextUrl := 2 |}.

(** ** Colours in [#rrggbb] notation *)

(** The hexadecimal digit of value [d], in lower case. *)
Definition hexChar (d : Z) : ascii :=
  match d with
  | 0 => "0" | 1 => "1" | 2 => "2" | 3 => "3" | 4 => "4" | 5 => "5" | 6 => "6"
  | 7 => "7" | 8 => "8" | 9 => "9" | 10 => "a" | 11 => "b" | 12 => "c" | 13 => "d"
  | 14 => "e" | _ => "f"
  end%Z%char.

(** The two digits of the byte [c], followed by [rest]. *)
Definition hexByte (c : Z) (rest : string) : string :=
  String (hexChar (c / 16)) (String (hexChar (c mod 16)) rest).

(** The colour of channels [r], [g] and [b] as the presets write it: ["#"]
    and six hexadecimal digits. *)
Definition hexColour (r g b : Z) : string :=
  String "#" (hexByte r (hexByte g (hexByte b EmptyString))).

(** [value] is the channel [channel] of a colour after the scaling by
    [pulse]: a whole number from 0 to 255, the nearest to [channel * pulse]
    (ties go up), or 255 where the product exceeds it. *)
Definition pulsed (channel : Z) (pulse value : Q) : Prop :=
  (exists n : Z, value = inject_Z n /\ (0 <= n <= 255)%Z)
  /\ -0.5 < value - Qmin 255 (inject_Z channel * pulse)
  /\ value - Qmin 255 (inject_Z channel * pulse) <= 0.5.

(** ** Observations of the capture session *)

(** The periods passed to [setInterval], oldest first. *)
Definition intervalPeriods (t : list Event) : list Q :=
  flat_map (fun e => match e with SetInterval _ ms => [ms] | _ => [] end) t.

(** The delays passed to [setTimeout], oldest first. *)
Definition timeoutDelays (t : list Event) : list Q :=
  flat_map (fun e => match e with SetTimeout _ ms => [ms] | _ => [] end) t.

(** The scenarios in which [recorder.start()] returns. *)
Definition startsRecording (sc : Scenario) : bool :=
  passesChecks sc
  && match constructorThrows sc, startThrows sc with
     | None, None => true
     | _, _ => false
     end.


(** ** Observations on the drawing log and on the particles *)

(** [c'] has the [save] stack of [c] and has painted [ops] after what [c]
    had painted. *)
Definition appends (c c' : Ctx) (ops : list DrawOp) : Prop :=
  saved c' = saved c /\ painted c' = painted c ++ ops.

(** A straight segment of a path. *)
Definition isLineTo (p : PathOp) : Prop :=
  match p with LineTo _ _ => True | _ => False end.

(** Two particles that differ at most in their amplitude. *)
Definition sameButAmplitude (p q : Particle) : Prop :=
  baseX p = baseX q /\ baseY p = baseY q /\ speed p = speed q
  /\ radius p = radius q /\ axis p = axis q.

(** ** The settings form and the effect on [videoUrl] of [CinematicStudio] *)

(** The calls [handleSettingChange(key, value)]: a key of
    [CinematicSettings] with a value of the type of that key. *)
Inductive SettingChange :=
| ChangeDuration (value : Q)
| ChangeFrameRate (value : Q)
| ChangeResolutionPresetId (value : string)
| ChangeAspectRatio (value : Q)
| ChangeMoodId (value : string)
| ChangeCameraMotionId (value : string)
| ChangeBloom (value : Q)
| ChangeGrain (value : Q)
| ChangeParallax (value : Q)
| ChangeChromaShift (value : Q).

Definition changedKey (change : SettingChange) : string :=
  match change with
  | ChangeDuration _ => "duration"
  | ChangeFrameRate _ => "frameRate"
  | ChangeResolutionPresetId _ => "resolutionPresetId"
  | ChangeAspectRatio _ => "aspectRatio"
  | ChangeMoodId _ => "moodId"
  | ChangeCameraMotionId _ => "cameraMotionId"
  | ChangeBloom _ => "bloom"
  | ChangeGrain _ => "grain"
  | ChangeParallax _ => "parallax"
  | ChangeChromaShift _ => "chromaShift"
  end.

(** The updater given to [setSettings]: [{ ...prev, [key]: value }]. *)
Definition handleSettingChange (change : SettingChange) (prev : CinematicSettings)
    : CinematicSettings :=
  let keep := prev in
  match change with
  | ChangeDuration value =>
      {| duration := value; frameRate := frameRate keep;
         resolutionPresetId := resolutionPresetId keep; aspectRatio := aspectRatio keep;
         moodId := moodId keep; cameraMotionId := cameraMotionId keep;
         bloom := bloom keep; grain := grain keep; parallax := parallax keep;
         chromaShift := chromaShift keep |}
  | ChangeFrameRate value =>
      {| duration := duration keep; frameRate := value;
         resolutionPresetId := resolutionPresetId keep; aspectRatio := aspectRatio keep;
         moodId := moodId keep; cameraMotionId := cameraMotionId keep;
         bloom := bloom keep; grain := grain keep; parallax := parallax keep;
         chromaShift := chromaShift keep |}
  | ChangeResolutionPresetId value =>
      {| duration := duration keep; frameRate := frameRate keep;
         resolutionPresetId := value; aspectRatio := aspectRatio keep;
         moodId := moodId keep; cameraMotionId := cameraMotionId keep;
         bloom := bloom keep; grain := grain keep; parallax := parallax keep;
         chromaShift := chromaShift keep |}
  | ChangeAspectRatio value =>
      {| duration := duration keep; frameRate := frameRate keep;
         resolutionPresetId := resolutionPresetId keep; aspectRatio := value;
         moodId := moodId keep; cameraMotionId := cameraMotionId keep;
         bloom := bloom keep; grain := grain keep; parallax := parallax keep;
         chromaShift := chromaShift keep |}
  | ChangeMoodId value =>
      {| duration := duration keep; frameRate := frameRate keep;
         resolutionPresetId := resolutionPresetId keep; aspectRatio := aspectRatio keep;
         moodId := value; cameraMotionId := cameraMotionId keep;
         bloom := bloom keep; grain := grain keep; parallax := parallax keep;
         chromaShift := chromaShift keep |}
  | ChangeCameraMotionId value =>
      {| duration := duration keep; frameRate := frameRate keep;
         resolutionPresetId := resolutionPresetId keep; aspectRatio := aspectRatio keep;
         moodId := moodId keep; cameraMotionId := value;
         bloom := bloom keep; grain := grain keep; parallax := parallax keep;
         chromaShift := chromaShift keep |}
  | ChangeBloom value =>
      {| duration := duration keep; frameRate := frameRate keep;
         resolutionPresetId := resolutionPresetId keep; aspectRatio := aspectRatio keep;
         moodId := moodId keep; cameraMotionId := cameraMotionId keep;
         bloom := value; grain := grain keep; parallax := parallax keep;
         chromaShift := chromaShift keep |}
  | ChangeGrain value =>
      {| duration := duration keep; frameRate := frameRate keep;
         resolutionPresetId := resolutionPresetId keep; aspectRatio := aspectRatio keep;
         moodId := moodId keep; cameraMotionId := cameraMotionId keep;
         bloom := bloom keep; grain := value; parallax := parallax keep;
         chromaShift := chromaShift keep |}
  | ChangeParallax value =>
      {| duration := duration keep; frameRate := frameRate keep;
         resolutionPresetId := resolutionPresetId keep; aspectRatio := aspectRatio keep;
         moodId := moodId keep; cameraMotionId := cameraMotionId keep;
         bloom := bloom keep; grain := grain keep; parallax := value;
         chromaShift := chromaShift keep |}
  | ChangeChromaShift value =>
      {| duration := duration keep; frameRate := frameRate keep;
         resolutionPresetId := resolutionPresetId keep; aspectRatio := aspectRatio keep;
         moodId := moodId keep; cameraMotionId := cameraMotionId keep;
         bloom := bloom keep; grain := grain keep; parallax := parallax keep;
         chromaShift := value |}
  end.

(** The cleanup returned by the effect on [videoUrl]; React runs it with
    the [videoUrl] of the render that created it, when that state changes
    and when the component unmounts. *)
Definition videoUrlCleanup (videoUrl : option nat) : M unit :=
  match videoUrl with
  | Some u => revokeObjectURL u
  | None => ret tt
  end.

(** The component unmounts after a call of [handleGenerate] has returned:
    the cleanup of the last render runs. *)
Definition unmountAfter (session : Result unit * World) : Result unit * World :=
  videoUrlCleanup (videoUrl (comp (snd session))) (snd session).

(** The message [catch] shows for a thrown value. *)
Definition shownMessage (err : Thrown) : string :=
  match err with
  | ErrorObject message => message
  | NotAnError => "Une erreur inattendue est survenue pendant la génération."
  end.

Definition isRecorderStop (e : Event) : bool :=
  match e with RecorderStop => true | _ => false end.

(** The sizes of the [dataavailable] payloads, a missing payload counting
    as empty. *)
Definition payloadSizes (chunks : list (option nat)) : list nat :=
  map (fun data => match data with Some size => size | None => 0%nat end) chunks.

(** A session whose recorder fires [error] without an [error] property,
    then [stop]. *)
Definition recorderErrorScenario : Scenario :=
  {| canvasPresent := true; mediaRecorderDefined := true; captureStreamWorks := true;
     constructorThrows := None; startThrows := None;
     chunks := [Some 2048%nat]; ticks := [120; 240]; lateTicks := [];
     sink := Fails None true |}.

(** A session whose recorder stops by itself halfway to the deadline. *)
Definition earlyStopScenario : Scenario :=
  {| canvasPresent := true; mediaRecorderDefined := true; captureStreamWorks := true;
     constructorThrows := None; startThrows := None;
     chunks := [Some 4096%nat]; ticks := [120; 3000]; lateTicks := [3120; 5990];
     sink := StopsEarly |}.

(** A session whose recorder never fires [stop]. *)
Definition silentScenario : Scenario :=
  {| canvasPresent := true; mediaRecorderDefined := true; captureStreamWorks := true;
     constructorThrows := None; startThrows := None;
     chunks := []; ticks := [120; 5990]; lateTicks := [6100; 6220];
     sink := Silent |}.

(** * Properties *)

(** ** Sample runs of the embedding *)

Example Math_round_ties_go_up :
  Math_round 2.5 = 3 /\ Math_round (-2.5) = -2 /\ Math_round 2.4 = 2.
Proof. repeat split; reflexivity. Qed.

Example mod1_keeps_sign : mod1 1.75 == 0.75 /\ mod1 (-1.75) == -0.75.
Proof. split; reflexivity. Qed.

Example hexToRgb_sample :
  hexToRgb "#0f172a" = (15, 23, 42)%Z /\ hexToRgb "#zz" = (0, 0, 0)%Z.
Proof. split; reflexivity. Qed.

(** [parseInt] returns a double: of the 54 bits of [0x20000000000001] the
    last is lost, and a number too large for a double is an infinity. *)
Example parseInt16_rounds_to_a_double :
  parseInt16 "20000000000001" = Integer (2 ^ 53)
  /\ hexToRgb "#20000000000001" = (0, 0, 0)%Z
  /\ parseInt16 "-1fffffffffffff" = Integer (- (2 ^ 53 - 1))
  /\ parseInt16 (String "1" (string_of_list_ascii (repeat "0"%char 256)))
     = Infinity false.
Proof. repeat split; vm_compute; reflexivity. Qed.

Example applyPulse_sample :
  applyPulse rationalWave (22 # 7) "#0f172a" 0.2 0.04 = CssRgb 16 24 44.
Proof. vm_compute. reflexivity. Qed.

Example toUint8Clamped_ties_to_even :
  toUint8Clamped 254.5 = 254 /\ toUint8Clamped 253.5 = 254
  /\ toUint8Clamped 300 = 255 /\ toUint8Clamped (-3) = 0.
Proof. repeat split; vm_compute; reflexivity. Qed.

(** One frame of the sample session: the cleared frame, three background
    fills, a fill and a stroke for each of the four parallax layers, three
    light sweeps, 120 particles, the wash and the grain; no bar. *)
Example drawFrame_sample_operations :
  length (painted (fst (drawFrame rationalWave rationalWave (22 # 7) freshCtx 1280 720 2
                          demoSettings noirMood
                          (fst (makeParticles (fun _ => 0.5) demoSettings 0))
                          blankTile)))
  = (1 + 3 + 4 * 2 + 3 + 120 + 1 + 1)%nat.
Proof. vm_compute. reflexivity. Qed.

(** The scenario of the specification: 6 seconds at 30 frames per second
    with bloom 0.5.  The recorder is given 3 000 000 bits per second, the
    deadline is set at 6000 ms, one artifact is created and kept, and the
    stream and the interval are released. *)
Example handleGenerate_sample_session :
  let result := handleGenerate demoSettings okScenario initialComponent initialBrowser in
  fst result = Ok tt
  /\ recorderCalls (trace (snd result))
     = [ {| mimeType := "video/webm;codecs=vp9"; videoBitsPerSecond := 3000000 |} ]
  /\ In (SetTimeout 2 6000) (trace (snd result))
  /\ List.filter isCreateObjectURL (trace (snd result))
     = [ CreateObjectURL 1 [4096%nat] ]
  /\ videoUrl (comp (snd result)) = Some 1%nat
  /\ progress (comp (snd result)) = 100
  /\ liveTracks (browser (snd result)) = ∅
  /\ activeIntervals (browser (snd result)) = ∅.
Proof. cbv zeta. repeat split; vm_compute; tauto. Qed.

(** ** Shot planner *)

(** C3: the shot planner returns exactly three entries; their durations are
    a third of the total duration times 1.1, 0.9 and 1.2, in that order;
    they sum to [duration * (1.1 + 0.9 + 1.2) / 3], that is 16/15 of the
    duration (1.0667 to four decimals), which is the duration itself only
    when the duration is zero. *)
Theorem buildShotPlan_three_weighted_segments :
  forall (moods : list Mood) (defaultMood : Mood) (cameraMotions : list CameraMotion)
         (defaultMotion : CameraMotion) (toLowerCase : string -> string)
         (settings : CinematicSettings),
  let plan := buildShotPlan moods defaultMood cameraMotions defaultMotion toLowerCase
                settings in
  let total := fold_right Qplus 0 (map shotDuration plan) in
  length plan = 3%nat
  /\ map shotDuration plan
     = [ duration settings / 3 * 1.1; duration settings / 3 * 0.9;
         duration settings / 3 * 1.2 ]
  /\ total == duration settings * (1.1 + 0.9 + 1.2) / 3
  /\ total == duration settings * (16 # 15)
  /\ 1.0666 < 16 # 15 < 1.0667
  /\ (total == duration settings <-> duration settings == 0).
Proof.
  intros moods defaultMood cameraMotions defaultMotion toLowerCase settings plan total.
  subst total plan. unfold buildShotPlan. cbn [map shotDuration fold_right length].
  repeat split; try reflexivity; try field.
  - intros H. set (d := duration settings) in *.
    assert (E : d / 3 * 1.1 + (d / 3 * 0.9 + (d / 3 * 1.2 + 0)) == d * (16 # 15))
      by field.
    rewrite E in H. lra.
  - intros H. rewrite H. reflexivity.
Qed.

(** ** Letterbox bars *)

Lemma Qdiv_lt_cross (t w h : Q) : 0 < h -> t < w / h -> t * h < w.
Proof.
  intros Hh Hlt.
  assert (E : w == w / h * h) by (field; lra).
  rewrite E. apply Qmult_lt_compat_r; assumption.
Qed.

Lemma Qdiv_le_cross (t w h : Q) : 0 < h -> w / h <= t -> w <= t * h.
Proof.
  intros Hh Hle.
  assert (E : w == w / h * h) by (field; lra).
  rewrite E. apply Qmult_le_compat_r; lra.
Qed.

Lemma painted_restore (c : Ctx) : painted (restore c) = painted c.
Proof. unfold restore. destruct (saved c); reflexivity. Qed.

(** With positive dimensions and a positive target ratio the thickness
    [paintBars] computes is never positive, in either branch. *)
Lemma barHeight_not_positive (width height target : Q) :
  0 < width -> 0 < height -> 0 < target ->
  target < width / height -> (height - width / target) / 2 <= 0.
Proof.
  intros Hw Hh Ht Hlt.
  apply Qdiv_lt_cross in Hlt; [| assumption].
  assert (height < width / target).
  { apply Qlt_shift_div_l; [assumption |]. lra. }
  apply Qle_shift_div_r; lra.
Qed.

Lemma barWidth_not_positive (width height target : Q) :
  0 < width -> 0 < height -> 0 < target ->
  width / height <= target -> (width - height * target) / 2 <= 0.
Proof.
  intros Hw Hh Ht Hle.
  apply Qdiv_le_cross in Hle; [| assumption].
  apply Qle_shift_div_r; lra.
Qed.

(** In exact arithmetic the thickness is never positive where its branch
    is taken (for doubles, see the remark at [paintBars]). *)
Lemma paintBars_paints_nothing (ctx : Ctx) (width height : Q)
    (settings : CinematicSettings) :
  0 < width -> 0 < height -> 0 < aspectRatio settings ->
  painted (paintBars ctx width height settings) = painted ctx.
Proof.
  intros Hw Hh Ht. unfold paintBars.
  rewrite painted_restore.
  destruct (Qlt_le_dec (aspectRatio settings) (width / height)) as [Hwide | Hnarrow].
  - pose proof (barHeight_not_positive width height _ Hw Hh Ht Hwide) as Hbar.
    destruct (Qlt_le_dec 0 ((height - width / aspectRatio settings) / 2)) as [Hpos | _].
    + exfalso. lra.
    + reflexivity.
  - pose proof (barWidth_not_positive width height _ Hw Hh Ht Hnarrow) as Hbar.
    destruct (Qlt_le_dec 0 ((width - height * aspectRatio settings) / 2)) as [Hpos | _].
    + exfalso. lra.
    + reflexivity.
Qed.

(** C2: on a 1920 x 803 frame with the 2.39 target ratio the native ratio is
    the larger one, yet no bar is painted: the thickness computed in that
    branch, [(803 - 1920 / 2.39) / 2], is negative.  The same happens in the
    other branch on a 1280 x 720 frame. *)
Theorem paintBars_wider_frame_paints_no_bar :
  aspectRatio scopeSettings < 1920 / 803
  /\ (803 - 1920 / aspectRatio scopeSettings) / 2 < 0
  /\ filledRects (paintBars freshCtx 1920 803 scopeSettings) = []
  /\ 1280 / 720 <= aspectRatio scopeSettings
  /\ (1280 - 720 * aspectRatio scopeSettings) / 2 < 0
  /\ filledRects (paintBars freshCtx 1280 720 scopeSettings) = [].
Proof. repeat split; vm_compute; first [reflexivity | discriminate]. Qed.

(** ** Colour arithmetic *)


Lemma toInt32_small (z : Z) : (- 2 ^ 31 <= z < 2 ^ 31)%Z -> toInt32 z = z.
Proof.
  intros Hz. unfold toInt32. rewrite Z.mod_small by lia. lia.
Qed.

Lemma band_255 (a : Z) : band a 255 = (toInt32 a mod 256)%Z.
Proof.
  unfold band. rewrite (toInt32_small 255) by lia.
  change 255%Z with (Z.ones 8). rewrite Z.land_ones by lia. reflexivity.
Qed.

Lemma shr_div (z k : Z) : (0 <= k)%Z -> shr z k = (toInt32 z / 2 ^ k)%Z.
Proof. intros Hk. unfold shr. apply Z.shiftr_div_pow2. exact Hk. Qed.


Lemma clamp_cases (value : Q) :
  let n := Qfloor (value + 0.5) in
  clamp value = inject_Z (if (n <? 0)%Z then 0 else if (255 <? n)%Z then 255 else n).
Proof.
  cbv zeta. unfold clamp, Math_min, Math_max, Math_round.
  set (n := Qfloor (value + 0.5)).
  unfold Qmin, Qmax, GenericMinMax.gmin, GenericMinMax.gmax.
  destruct (Z.ltb_spec n 0) as [Hneg | Hpos].
  - assert (E : (0 ?= inject_Z n) = Gt).
    { apply Qgt_alt. rewrite Zlt_Qlt in Hneg. exact Hneg. }
    rewrite E. reflexivity.
  - assert (E : (0 ?= inject_Z n) <> Gt).
    { apply Qle_alt. rewrite Zle_Qle in Hpos. exact Hpos. }
    destruct (0 ?= inject_Z n) eqn:E0; try congruence.
    + apply Qeq_alt in E0. 
      assert (Hn : n = 0%Z) by (apply inject_Z_injective; symmetry; exact E0).
      subst n. rewrite Hn. reflexivity.
    + destruct (Z.ltb_spec 255 n) as [Hbig | Hsmall].
      * assert (E1 : (255 ?= inject_Z n) = Lt).
        { apply Qlt_alt. rewrite Zlt_Qlt in Hbig. exact Hbig. }
        rewrite E1. reflexivity.
      * destruct (255 ?= inject_Z n) eqn:E1.
        -- apply Qeq_alt in E1.
           assert (Hn : n = 255%Z) by (apply inject_Z_injective; symmetry; exact E1).
           rewrite Hn. reflexivity.
        -- apply Qlt_alt in E1. change 255 with (inject_Z 255) in E1.
           rewrite <- Zlt_Qlt in E1. lia.
        -- reflexivity.
Qed.

Lemma hexToRgb_bytes (hex : string) :
  let '(r, g, b) := hexToRgb hex in
  (0 <= r <= 255)%Z /\ (0 <= g <= 255)%Z /\ (0 <= b <= 255)%Z.
Proof.
  unfold hexToRgb. rewrite !band_255.
  repeat split;
    match goal with
    | |- context [(?t mod 256)%Z] =>
        pose proof (Z.mod_pos_bound t 256 ltac:(lia)); lia
    end.
Qed.

Lemma Qfloor_unique (x : Q) (z : Z) : inject_Z z <= x < inject_Z (z + 1) -> Qfloor x = z.
Proof.
  intros [Hlo Hhi].
  pose proof (Qfloor_le x) as Hf. pose proof (Qlt_floor x) as Hc.
  assert (H1 : inject_Z (Qfloor x) < inject_Z (z + 1)) by lra.
  assert (H2 : inject_Z z < inject_Z (Qfloor x + 1)) by lra.
  rewrite <- Zlt_Qlt in H1, H2. lia.
Qed.

(** Six digits stay below the 53 bits a double holds exactly. *)
Lemma roundToDouble_exact (n : Z) : (0 <= n < 2 ^ 53)%Z -> roundToDouble n = n.
Proof.
  intros [Hlo Hhi]. unfold roundToDouble. cbv zeta.
  assert (Hlog : (Z.log2 n < 53)%Z).
  { destruct (Z.eq_dec n 0%Z) as [-> | Hne]; [reflexivity |].
    apply Z.log2_lt_pow2; lia. }
  assert (Hle : (Z.log2 n + 1 - 53 <=? 0)%Z = true) by (apply Z.leb_le; lia).
  rewrite Hle. reflexivity.
Qed.

Lemma toNumber_exact (n : Z) : (0 <= n < 2 ^ 53)%Z -> toNumber false n = Integer n.
Proof.
  intros Hn. unfold toNumber. cbv zeta. rewrite (roundToDouble_exact n Hn).
  assert (Hfin : (2 ^ 1024 <=? n)%Z = false).
  { apply Z.leb_gt. apply Z.lt_trans with (2 ^ 53)%Z; [lia |].
    apply Z.pow_lt_mono_r; lia. }
  rewrite Hfin. reflexivity.
Qed.

Lemma hexDigit_hexChar (d : Z) : (0 <= d < 16)%Z -> hexDigit (hexChar d) = Some d.
Proof.
  intros Hd.
  assert (Hn : d = Z.of_nat (Z.to_nat d)) by lia.
  assert (Hlt : (Z.to_nat d < 16)%nat) by lia.
  rewrite Hn. generalize dependent (Z.to_nat d). clear. intros n _ Hlt.
  do 16 (destruct n as [| n]; [reflexivity |]). lia.
Qed.

Lemma hexPrefix_hexChar (d : Z) (rest : string) (acc : Z) (n : nat) :
  (0 <= d < 16)%Z ->
  hexPrefix (String (hexChar d) rest) acc n = hexPrefix rest (16 * acc + d)%Z (S n).
Proof.
  intros Hd. cbn [hexPrefix]. rewrite (hexDigit_hexChar d Hd). reflexivity.
Qed.

(** A string that starts with two hexadecimal digits has no space, sign
    or [0x] to skip. *)
Lemma parseInt16_digits (d1 d2 : Z) (rest : string) :
  (0 <= d1 < 16)%Z -> (0 <= d2 < 16)%Z ->
  parseInt16 (String (hexChar d1) (String (hexChar d2) rest))
  = let '(v, n) := hexPrefix rest (16 * d1 + d2)%Z 2 in
    match n with
    | O => NaN
    | S _ => toNumber false v
    end.
Proof.
  intros H1 H2.
  assert (E1 : d1 = Z.of_nat (Z.to_nat d1)) by lia.
  assert (E2 : d2 = Z.of_nat (Z.to_nat d2)) by lia.
  assert (L1 : (Z.to_nat d1 < 16)%nat) by lia.
  assert (L2 : (Z.to_nat d2 < 16)%nat) by lia.
  rewrite E1, E2. generalize dependent (Z.to_nat d2). generalize dependent (Z.to_nat d1).
  clear. intros n1 _ L1 n2 _ L2.
  do 16 (destruct n1 as [| n1];
         [do 16 (destruct n2 as [| n2]; [reflexivity |]); lia |]).
  lia.
Qed.

Lemma hexByte_digits (c : Z) :
  (0 <= c <= 255)%Z -> (0 <= c / 16 < 16)%Z /\ (0 <= c mod 16 < 16)%Z.
Proof. intros Hc. split; [Z.div_mod_to_equations; lia | apply Z.mod_pos_bound; lia]. Qed.

Lemma parseInt16_hexColour (r g b : Z) :
  (0 <= r <= 255)%Z -> (0 <= g <= 255)%Z -> (0 <= b <= 255)%Z ->
  parseInt16 (hexByte r (hexByte g (hexByte b EmptyString)))
  = Integer (r * 65536 + g * 256 + b).
Proof.
  intros Hr Hg Hb.
  destruct (hexByte_digits r Hr) as [Hr1 Hr2].
  destruct (hexByte_digits g Hg) as [Hg1 Hg2].
  destruct (hexByte_digits b Hb) as [Hb1 Hb2].
  unfold hexByte. rewrite parseInt16_digits by assumption.
  rewrite !hexPrefix_hexChar by assumption. cbn [hexPrefix].
  assert (E : (16 * (16 * (16 * (16 * (16 * (r / 16) + r mod 16) + g / 16) + g mod 16)
                     + b / 16) + b mod 16
               = r * 65536 + g * 256 + b)%Z)
    by (Z.div_mod_to_equations; lia).
  rewrite E. apply toNumber_exact. lia.
Qed.

(** [hexToRgb] reads a colour in [#rrggbb] notation back into its three
    channels. *)
Lemma hexToRgb_hexColour (r g b : Z) :
  (0 <= r <= 255)%Z -> (0 <= g <= 255)%Z -> (0 <= b <= 255)%Z ->
  hexToRgb (hexColour r g b) = (r, g, b).
Proof.
  intros Hr Hg Hb. unfold hexToRgb, hexColour. cbv zeta.
  change (removeFirst "#" (String "#" ?s)) with s.
  rewrite (parseInt16_hexColour r g b Hr Hg Hb). cbn [operand].
  rewrite !band_255, !shr_div by lia.
  set (z := (r * 65536 + g * 256 + b)%Z).
  assert (Hz : (0 <= z < 2 ^ 24)%Z) by (unfold z; lia).
  rewrite (toInt32_small z) by lia.
  rewrite (toInt32_small (z / 2 ^ 16)), (toInt32_small (z / 2 ^ 8))
    by (split; [apply Z.div_le_lower_bound | apply Z.div_lt_upper_bound]; lia).
  change (2 ^ 16)%Z with 65536%Z. change (2 ^ 8)%Z with 256%Z.
  assert (Er : ((z / 65536) mod 256 = r)%Z) by (unfold z; Z.div_mod_to_equations; lia).
  assert (Eg : ((z / 256) mod 256 = g)%Z) by (unfold z; Z.div_mod_to_equations; lia).
  assert (Eb : (z mod 256 = b)%Z) by (unfold z; Z.div_mod_to_equations; lia).
  rewrite Er, Eg, Eb. reflexivity.
Qed.

(** What [clamp] makes of a product that is not negative. *)
Lemma clamp_pulsed (channel : Z) (pulse : Q) :
  (0 <= channel)%Z -> 0 <= pulse -> pulsed channel pulse (clamp (inject_Z channel * pulse)).
Proof.
  intros Hc Hp.
  assert (Hx : 0 <= inject_Z channel * pulse).
  { apply Qmult_le_0_compat; [| exact Hp].
    change 0 with (inject_Z 0). rewrite <- Zle_Qle. exact Hc. }
  unfold pulsed. set (x := inject_Z channel * pulse) in *. clearbody x.
  rewrite clamp_cases. cbv zeta.
  pose proof (Qfloor_le (x + 0.5)) as Hlo. pose proof (Qlt_floor (x + 0.5)) as Hhi.
  rewrite inject_Z_plus in Hhi. change (inject_Z 1) with 1 in Hhi.
  set (n := Qfloor (x + 0.5)) in *.
  assert (Hn : (0 <= n)%Z).
  { unfold n. change 0%Z with (Qfloor 0). apply Qfloor_resp_le. lra. }
  destruct (Z.ltb_spec n 0) as [Hneg | _]; [lia |].
  destruct (Z.ltb_spec 255 n) as [Hbig | Hsmall]; cbv iota.
  - split; [exists 255%Z; split; [reflexivity | lia] |].
    assert (H256 : inject_Z 256 <= inject_Z n) by (rewrite <- Zle_Qle; lia).
    change (inject_Z 256) with 256 in H256.
    assert (Hmin : Qmin 255 x == 255) by (apply Q.min_l; lra).
    change (inject_Z 255) with 255. split; lra.
  - split; [exists n; split; [reflexivity | lia] |].
    assert (H255 : inject_Z n <= inject_Z 255) by (rewrite <- Zle_Qle; lia).
    change (inject_Z 255) with 255 in H255.
    destruct (Qlt_le_dec 255 x) as [Hover | Hunder].
    + assert (Hmin : Qmin 255 x == 255) by (apply Q.min_l; lra).
      split; lra.
    + assert (Hmin : Qmin 255 x == x) by (apply Q.min_r; exact Hunder).
      split; lra.
Qed.

(** ** Background layer *)

Lemma pulseFactor_bounds (Math_sin : Q -> Q) (Math_PI time amplitude : Q) :
  (forall x, -1 <= Math_sin x <= 1) -> 0 <= amplitude ->
  1 - amplitude <= pulseFactor Math_sin Math_PI time amplitude <= 1 + amplitude.
Proof.
  intros Hsin Ha. unfold pulseFactor.
  destruct (Hsin (time * Math_PI * 2)) as [Hlo Hhi].
  set (s := Math_sin (time * Math_PI * 2)) in *.
  split; nra.
Qed.

Lemma painted_fillRect (x y w h : Q) (c : Ctx) :
  painted (fillRect x y w h c) = painted c ++ [FillRect (cur c) x y w h].
Proof. reflexivity. Qed.

Lemma painted_setFillStyle (s : Style) (c : Ctx) : painted (setFillStyle s c) = painted c.
Proof. reflexivity. Qed.

Lemma painted_setComposite (op : string) (c : Ctx) :
  painted (setComposite op c) = painted c.
Proof. reflexivity. Qed.

(** C9: the background layer first fills the frame with a vertical gradient
    (from the top edge to the bottom edge) over the three palette stops.
    The first two stops are [applyPulse] of the palette colour: when the
    palette writes its colours as [#rrggbb], each channel of stop 0 is the
    whole number nearest to the channel of palette colour 0 times
    [1 + sin(2 pi 0.1 t) * 0.04], each channel of stop 1 the one nearest to
    the channel of palette colour 1 times [1 + sin(2 pi 0.12 t) * 0.08]
    (capped at 255), with [t] the elapsed time; the two factors stay within
    4% and 8% of 1.  The third stop is the palette colour itself.  The last
    rectangle the layer fills is the haze band: full width, from 65% of
    the height down to the bottom edge, 35% of the height thick. *)
Theorem paintBackground_gradient_and_haze :
  forall (Math_sin : Q -> Q) (Math_PI : Q) (ctx : Ctx) (width height elapsed : Q)
         (mood : Mood) (settings : CinematicSettings),
  (forall x, -1 <= Math_sin x <= 1) ->
  exists (st1 st2 st3 : CtxState) (a0 a1 : Q),
    painted (paintBackground Math_sin Math_PI ctx width height elapsed mood settings)
    = painted ctx
      ++ [ FillRect st1 0 0 width height;
           FillRect st2 0 0 width height;
           FillRect st3 0 (height * 0.65) width (height * 0.35) ]
    /\ fillStyle st1
       = LinearGradient 0 0 0 height
           [ (0, applyPulse Math_sin Math_PI (palette0 mood) (elapsed * 0.1) a0);
             (0.45, applyPulse Math_sin Math_PI (palette1 mood) (elapsed * 0.12) a1);
             (1, CssText (palette2 mood)) ]
    /\ a0 = 0.04 /\ a1 = 0.08
    /\ (forall a, In a [a0; a1] -> 0.04 <= a <= 0.08)
    /\ (forall (hex : string) (t a : Q),
          applyPulse Math_sin Math_PI hex t a
          = let '(r, g, b) := hexToRgb hex in
            let pulse := 1 + Math_sin (t * Math_PI * 2) * a in
            CssRgb (clamp (inject_Z r * pulse)) (clamp (inject_Z g * pulse))
                   (clamp (inject_Z b * pulse)))
    /\ (forall (t a : Q), In a [a0; a1] ->
          1 - a <= pulseFactor Math_sin Math_PI t a <= 1 + a)
    /\ (forall r0 g0 b0 r1 g1 b1 : Z,
          Forall (fun c => (0 <= c <= 255)%Z) [r0; g0; b0; r1; g1; b1] ->
          palette0 mood = hexColour r0 g0 b0 ->
          palette1 mood = hexColour r1 g1 b1 ->
          exists (p0 p1 u0 v0 w0 u1 v1 w1 : Q),
            fillStyle st1
            = LinearGradient 0 0 0 height
                [ (0, CssRgb u0 v0 w0); (0.45, CssRgb u1 v1 w1);
                  (1, CssText (palette2 mood)) ]
            /\ p0 = 1 + Math_sin (elapsed * 0.1 * Math_PI * 2) * 0.04
            /\ p1 = 1 + Math_sin (elapsed * 0.12 * Math_PI * 2) * 0.08
            /\ 0.96 <= p0 <= 1.04 /\ 0.92 <= p1 <= 1.08
            /\ pulsed r0 p0 u0 /\ pulsed g0 p0 v0 /\ pulsed b0 p0 w0
            /\ pulsed r1 p1 u1 /\ pulsed g1 p1 v1 /\ pulsed b1 p1 w1)
    /\ fillStyle st3 = Solid (CssText (haze mood))
    /\ height * 0.65 + height * 0.35 == height
    /\ height * 0.35 == (35 # 100) * height.
Proof.
  intros Math_sin Math_PI ctx width height elapsed mood settings Hsin.
  unfold paintBackground. cbv zeta.
  set (gradient := LinearGradient 0 0 0 height _).
  set (radial := RadialGradient _ _ _ _ _ _ _).
  set (c1 := setFillStyle gradient ctx).
  set (c2 := setComposite "lighter" (setFillStyle radial (fillRect 0 0 width height c1))).
  set (c3 := setFillStyle (Solid (CssText (haze mood)))
               (setComposite "source-over" (fillRect 0 0 width height c2))).
  exists (cur c1), (cur c2), (cur c3), 0.04, 0.08.
  split.
  { rewrite painted_fillRect. unfold c3.
    rewrite painted_setFillStyle, painted_setComposite, painted_fillRect. unfold c2.
    rewrite painted_setComposite, painted_setFillStyle, painted_fillRect. unfold c1.
    rewrite painted_setFillStyle, <- !app_assoc. reflexivity. }
  split; [reflexivity |].
  split; [reflexivity |].
  split; [reflexivity |].
  split.
  { intros a [<- | [<- | []]]; split; vm_compute; discriminate. }
  split; [reflexivity |].
  split.
  { intros t a Ha. apply pulseFactor_bounds; [exact Hsin |].
    destruct Ha as [<- | [<- | []]]; vm_compute; discriminate. }
  split.
  { intros r0 g0 b0 r1 g1 b1 Hbytes Hfirst Hsecond.
    repeat match goal with
           | H : Forall _ (_ :: _) |- _ =>
               let Hc := fresh "Hc" in
               apply Forall_cons_iff in H; destruct H as [Hc H]
           end.
    pose proof (pulseFactor_bounds Math_sin Math_PI (elapsed * 0.1) 0.04 Hsin
                  ltac:(discriminate)) as B0.
    pose proof (pulseFactor_bounds Math_sin Math_PI (elapsed * 0.12) 0.08 Hsin
                  ltac:(discriminate)) as B1.
    unfold pulseFactor in B0, B1.
    set (p0 := 1 + Math_sin (elapsed * 0.1 * Math_PI * 2) * 0.04) in *.
    set (p1 := 1 + Math_sin (elapsed * 0.12 * Math_PI * 2) * 0.08) in *.
    exists p0, p1.
    exists (clamp (inject_Z r0 * p0)), (clamp (inject_Z g0 * p0)),
           (clamp (inject_Z b0 * p0)),
           (clamp (inject_Z r1 * p1)), (clamp (inject_Z g1 * p1)),
           (clamp (inject_Z b1 * p1)).
    split.
    { unfold c1, gradient. cbn [setFillStyle withState cur fillStyle].
      unfold applyPulse. rewrite Hfirst, Hsecond.
      rewrite !hexToRgb_hexColour by assumption. reflexivity. }
    split; [reflexivity |]. split; [reflexivity |].
    split; [lra |]. split; [lra |].
    repeat split; apply clamp_pulsed; lia || lra. }
  split; [reflexivity |].
  split; field.
Qed.

Lemma Qsquare_nonneg (y : Q) : 0 <= y * y.
Proof.
  destruct (Qlt_le_dec y 0) as [Hneg | Hpos].
  - assert (E : y * y == (- y) * (- y)) by ring.
    rewrite E. apply Qmult_le_0_compat; lra.
  - apply Qmult_le_0_compat; assumption.
Qed.

Lemma rationalWave_bounded (x : Q) : -1 <= rationalWave x <= 1.
Proof.
  unfold rationalWave.
  pose proof (Qsquare_nonneg x) as Hxx.
  pose proof (Qsquare_nonneg (x + 1)) as Hup.
  pose proof (Qsquare_nonneg (x - 1)) as Hdown.
  assert (Eup : (x + 1) * (x + 1) == x * x + 2 * x + 1) by ring.
  assert (Edown : (x - 1) * (x - 1) == x * x - 2 * x + 1) by ring.
  rewrite Eup in Hup. rewrite Edown in Hdown.
  assert (Hpos : 0 < 1 + x * x) by lra.
  split.
  - apply Qle_shift_div_l; [exact Hpos |]. lra.
  - apply Qle_shift_div_r; [exact Hpos |]. lra.
Qed.

(** The background of the sample session two seconds in, with the bounded
    wave in place of the sine: the first palette colour of the mood,
    [#0f172a], comes out as [rgb(16, 24, 44)] and the second, [#1e293b], as
    [rgb(32, 44, 63)]. *)
Lemma paintBackground_gradient_and_haze_witness :
  exists (st1 st3 : CtxState),
    Forall (fun c => (0 <= c <= 255)%Z) [15; 23; 42; 30; 41; 59]%Z
    /\ palette0 noirMood = hexColour 15 23 42
    /\ palette1 noirMood = hexColour 30 41 59
    /\ In (FillRect st1 0 0 1280 720)
          (painted (paintBackground rationalWave (22 # 7) freshCtx 1280 720 2 noirMood
                      demoSettings))
    /\ (exists (p0 p1 u0 v0 w0 u1 v1 w1 : Q),
          fillStyle st1
          = LinearGradient 0 0 0 720
              [ (0, CssRgb u0 v0 w0); (0.45, CssRgb u1 v1 w1);
                (1, CssText (palette2 noirMood)) ]
          /\ 0.96 <= p0 <= 1.04 /\ 0.92 <= p1 <= 1.08
          /\ pulsed 15 p0 u0 /\ pulsed 23 p0 v0 /\ pulsed 42 p0 w0
          /\ pulsed 30 p1 u1 /\ pulsed 41 p1 v1 /\ pulsed 59 p1 w1)
    /\ fillStyle st1
       = LinearGradient 0 0 0 720
           [ (0, CssRgb 16 24 44); (0.45, CssRgb 32 44 63);
             (1, CssText "#020617") ]
    /\ List.last (painted (paintBackground rationalWave (22 # 7) freshCtx 1280 720 2
                             noirMood demoSettings)) (ClearRect 0 0 0 0)
       = FillRect st3 0 (720 * 0.65) 1280 (720 * 0.35)
    /\ fillStyle st3 = Solid (CssText (haze noirMood)).
Proof.
  destruct (paintBackground_gradient_and_haze rationalWave (22 # 7) freshCtx 1280 720 2
              noirMood demoSettings rationalWave_bounded)
    as (st1 & st2 & st3 & a0 & a1 & Hpainted & Hstyle & Ha0 & Ha1 & _ & _ & _ & Hstops
        & Hhaze & _).
  assert (Hbytes : Forall (fun c => (0 <= c <= 255)%Z) [15; 23; 42; 30; 41; 59]%Z)
    by (repeat constructor; lia).
  exists st1, st3.
  split; [exact Hbytes |]. split; [reflexivity |]. split; [reflexivity |].
  split; [rewrite Hpainted; cbn [painted freshCtx app In]; left; reflexivity |].
  split.
  { destruct (Hstops 15 23 42 30 41 59 Hbytes eq_refl eq_refl)%Z
      as (p0 & p1 & u0 & v0 & w0 & u1 & v1 & w1 & Hs & _ & _ & B0 & B1 & Hrest).
    exists p0, p1, u0, v0, w0, u1, v1, w1.
    split; [exact Hs |]. split; [exact B0 |]. split; [exact B1 | exact Hrest]. }
  split; [rewrite Hstyle, Ha0, Ha1; vm_compute; reflexivity |].
  split; [rewrite Hpainted; reflexivity | exact Hhaze].
Defined.

(** ** Catalog lookup *)

Section LookupFacts.

Context {Entry : Type} (entryId : Entry -> string).

Lemma lookupPreset_present (table : list Entry) (dflt : Entry) (id : string) :
  In id (map entryId table) ->
  In (lookupPreset entryId table dflt id) table
  /\ entryId (lookupPreset entryId table dflt id) = id.
Proof.
  unfold lookupPreset. induction table as [| e rest IH]; cbn [map In List.find].
  - intros [].
  - intros Hin. case_bool_decide as Heq.
    + split; [left; reflexivity | exact Heq].
    + destruct Hin as [Hhere | Hrest]; [congruence |].
      destruct (IH Hrest) as [Hmem Hid]. split; [right; exact Hmem | exact Hid].
Qed.

Lemma lookupPreset_absent (table : list Entry) (dflt : Entry) (id : string) :
  ~ In id (map entryId table) -> lookupPreset entryId table dflt id = dflt.
Proof.
  unfold lookupPreset. induction table as [| e rest IH]; cbn [map In List.find].
  - reflexivity.
  - intros Hnot. case_bool_decide as Heq.
    + exfalso. apply Hnot. left. exact Heq.
    + apply IH. intros Hrest. apply Hnot. right. exact Hrest.
Qed.

End LookupFacts.

Lemma getCameraSpeedMultiplier_lookup (Math_sin Math_cos : Q -> Q) (id : string) :
  getCameraSpeedMultiplier id = speedMultiplier (lookupCamera Math_sin Math_cos id).
Proof.
  unfold getCameraSpeedMultiplier, lookupCamera, lookupPreset, cameraCatalog.
  cbn [List.find camera_id dollyPreset driftPreset pulsePreset orbitPreset].
  repeat case_bool_decide; subst; try congruence; reflexivity.
Qed.

Lemma getCameraMotionOffset_lookup (Math_sin Math_cos : Q -> Q) (id : string)
    (elapsed axis : Q) :
  getCameraMotionOffset Math_sin Math_cos id elapsed axis
  = motionOffset (lookupCamera Math_sin Math_cos id) elapsed axis.
Proof.
  unfold getCameraMotionOffset, lookupCamera, lookupPreset, cameraCatalog.
  cbn [List.find camera_id dollyPreset driftPreset pulsePreset orbitPreset].
  repeat case_bool_decide; subst; try congruence; reflexivity.
Qed.

(** C6: catalog lookup is a total function.  For moods and camera motions
    (the lookup of the preset module) an id of the table resolves to an
    entry of the table carrying that id, and any other id resolves to the
    default entry.  The two switches of the renderer are that lookup on the
    table of their [case] labels: each of [dolly], [drift], [pulse] and
    [orbit] resolves to its own entry, and any other id resolves to the
    entry of [orbit], the default. *)
Theorem catalog_lookup_total_with_default :
  forall (Math_sin Math_cos : Q -> Q) (moods : list Mood) (defaultMood : Mood)
         (cameraMotions : list CameraMotion) (defaultMotion : CameraMotion)
         (mood id : string),
  (In mood (map mood_id moods) ->
     In (getMood moods defaultMood mood) moods
     /\ mood_id (getMood moods defaultMood mood) = mood)
  /\ (~ In mood (map mood_id moods) -> getMood moods defaultMood mood = defaultMood)
  /\ (In id (map motion_id cameraMotions) ->
        In (getCameraMotion cameraMotions defaultMotion id) cameraMotions
        /\ motion_id (getCameraMotion cameraMotions defaultMotion id) = id)
  /\ (~ In id (map motion_id cameraMotions) ->
        getCameraMotion cameraMotions defaultMotion id = defaultMotion)
  /\ getCameraSpeedMultiplier id = speedMultiplier (lookupCamera Math_sin Math_cos id)
  /\ (forall elapsed axis,
        getCameraMotionOffset Math_sin Math_cos id elapsed axis
        = motionOffset (lookupCamera Math_sin Math_cos id) elapsed axis)
  /\ map camera_id (cameraCatalog Math_sin Math_cos) = cameraIds
  /\ (In id cameraIds ->
        In (lookupCamera Math_sin Math_cos id) (cameraCatalog Math_sin Math_cos)
        /\ camera_id (lookupCamera Math_sin Math_cos id) = id)
  /\ (~ In id cameraIds ->
        lookupCamera Math_sin Math_cos id = orbitPreset Math_sin Math_cos
        /\ getCameraSpeedMultiplier id = getCameraSpeedMultiplier "orbit"
        /\ forall elapsed axis,
             getCameraMotionOffset Math_sin Math_cos id elapsed axis
             = getCameraMotionOffset Math_sin Math_cos "orbit" elapsed axis).
Proof.
  intros Math_sin Math_cos moods defaultMood cameraMotions defaultMotion mood id.
  split; [apply lookupPreset_present |].
  split; [apply lookupPreset_absent |].
  split; [apply lookupPreset_present |].
  split; [apply lookupPreset_absent |].
  split; [apply getCameraSpeedMultiplier_lookup |].
  split; [intros; apply getCameraMotionOffset_lookup |].
  split; [reflexivity |].
  split.
  - intros Hin. apply (lookupPreset_present camera_id). exact Hin.
  - intros Hnot.
    assert (Hdefault : lookupCamera Math_sin Math_cos id = orbitPreset Math_sin Math_cos)
      by (apply (lookupPreset_absent camera_id); exact Hnot).
    split; [exact Hdefault |]. split.
    + rewrite (getCameraSpeedMultiplier_lookup Math_sin Math_cos), Hdefault. reflexivity.
    + intros elapsed axis.
      rewrite getCameraMotionOffset_lookup, Hdefault. reflexivity.
Qed.

(** Lookups of ids that are in the sample tables and of ids that are not. *)
Lemma catalog_lookup_total_with_default_witness :
  (In (getMood [noirMood; duskMood] duskMood "noir") [noirMood; duskMood]
   /\ mood_id (getMood [noirMood; duskMood] duskMood "noir") = "noir")
  /\ getMood [noirMood; duskMood] duskMood "sepia" = duskMood
  /\ getCameraMotion [orbitMotion] orbitMotion "zoom" = orbitMotion
  /\ getCameraSpeedMultiplier "zoom" = 1
  /\ getCameraSpeedMultiplier "pulse" = 1.8
  /\ camera_id (lookupCamera rationalWave rationalWave "pulse") = "pulse".
Proof.
  destruct (catalog_lookup_total_with_default rationalWave rationalWave
              [noirMood; duskMood] duskMood [orbitMotion] orbitMotion "noir" "zoom")
    as (Hmood & _ & _ & Hmotion & _ & _ & _ & _ & Hzoom).
  destruct (catalog_lookup_total_with_default rationalWave rationalWave
              [noirMood; duskMood] duskMood [orbitMotion] orbitMotion "sepia" "pulse")
    as (_ & Hsepia & _ & _ & Hpulse & _ & _ & Hknown & _).
  split; [apply Hmood; left; reflexivity |].
  split; [apply Hsepia; vm_compute; intuition discriminate |].
  split; [apply Hmotion; vm_compute; intuition discriminate |].
  split; [apply Hzoom; vm_compute; intuition discriminate |].
  split; [rewrite Hpulse; reflexivity |].
  apply Hknown. vm_compute. tauto.
Defined.

(** ** Particles *)

Lemma mapParticles_length (rnd : nat -> Q) (n : nat) :
  forall index k, length (fst (mapParticles rnd n index k)) = n.
Proof.
  induction n as [| n IH]; intros index k; cbn [mapParticles].
  - reflexivity.
  - specialize (IH (S index) (k + 5)%nat).
    destruct (mapParticles rnd n (S index) (k + 5)) as [rest k'].
    cbn [fst length] in *. f_equal. exact IH.
Qed.

Lemma mapParticles_lookup (rnd : nat -> Q) (n : nat) :
  forall index k i p,
  fst (mapParticles rnd n index k) !! i = Some p ->
  p = {| baseX := rnd (k + 5 * i)%nat;
         baseY := rnd (k + 5 * i + 1)%nat;
         amplitude := 0.05 + rnd (k + 5 * i + 2)%nat * 0.35;
         speed := 0.6 + rnd (k + 5 * i + 3)%nat * 1.2;
         radius := 0.6 + rnd (k + 5 * i + 4)%nat * 1.9;
         axis := if Nat.eqb ((index + i) mod 2) 0 then 1 else -1 |}.
Proof.
  induction n as [| n IH]; intros index k i p; cbn [mapParticles].
  - cbn. discriminate.
  - specialize (IH (S index) (k + 5)%nat).
    destruct (mapParticles rnd n (S index) (k + 5)) as [rest k'].
    cbn [fst] in *. destruct i as [| i]; cbn [lookup list_lookup].
    + intros [= <-]. rewrite Nat.mul_0_r, !Nat.add_0_r. reflexivity.
    + intros Hrest. rewrite (IH i p Hrest).
      replace (k + 5 + 5 * i)%nat with (k + 5 * S i)%nat by lia.
      replace (S index + i)%nat with (index + S i)%nat by lia.
      reflexivity.
Qed.

Lemma even_mod2 (i : nat) : Nat.eqb (i mod 2) 0 = Nat.even i.
Proof.
  destruct (Nat.even i) eqn:He.
  - apply Nat.eqb_eq. apply Nat.even_spec in He. destruct He as [m ->].
    rewrite Nat.mul_comm. apply Nat.Div0.mod_mul.
  - apply Nat.eqb_neq. intros Hmod.
    assert (Hev : Nat.even i = true).
    { apply Nat.even_spec. exists (i / 2)%nat.
      pose proof (Nat.div_mod_eq i 2). lia. }
    congruence.
Qed.

(** C10: in the particle array the session builds, the particle of index
    [i] has axis 1 when [i] is even and -1 when [i] is odd, so the axis is
    1 or -1; it is the same whatever [Math.random] returns, whereas each of
    the five other fields is an affine function of one value drawn from
    [Math.random] and changes when that value does. *)
Theorem particle_axis_alternates :
  forall (Math_random : nat -> Q) (settings : CinematicSettings) (k i : nat)
         (p : Particle),
  fst (makeParticles Math_random settings k) !! i = Some p ->
  axis p = (if Nat.even i then 1 else -1)
  /\ (axis p = 1 \/ axis p = -1)
  /\ (forall (other : nat -> Q) (k' : nat) (p' : Particle),
        fst (makeParticles other settings k') !! i = Some p' -> axis p' = axis p)
  /\ baseX p = Math_random (k + 5 * i)%nat
  /\ baseY p = Math_random (k + 5 * i + 1)%nat
  /\ amplitude p = 0.05 + Math_random (k + 5 * i + 2)%nat * 0.35
  /\ speed p = 0.6 + Math_random (k + 5 * i + 3)%nat * 1.2
  /\ radius p = 0.6 + Math_random (k + 5 * i + 4)%nat * 1.9
  /\ (exists (other : nat -> Q) (p' : Particle),
        fst (makeParticles other settings k) !! i = Some p'
        /\ ~ baseX p' == baseX p /\ ~ baseY p' == baseY p
        /\ ~ amplitude p' == amplitude p /\ ~ speed p' == speed p
        /\ ~ radius p' == radius p).
Proof.
  intros Math_random settings k i p Hp. unfold makeParticles in *.
  pose proof (mapParticles_lookup _ _ _ _ _ _ Hp) as Ep.
  rewrite Nat.add_0_l, even_mod2 in Ep.
  split; [subst p; reflexivity |].
  split; [subst p; cbn [axis]; destruct (Nat.even i); [left | right]; reflexivity |].
  split.
  { intros other k' p' Hp'.
    pose proof (mapParticles_lookup _ _ _ _ _ _ Hp') as Ep'.
    rewrite Nat.add_0_l, even_mod2 in Ep'. subst p p'. reflexivity. }
  do 5 (split; [subst p; reflexivity |]).
  set (other := fun j => Math_random j + 1).
  assert (Hlt : (i < length (fst (mapParticles other
                   (arrayLength (particleCount settings)) 0 k)))%nat).
  { rewrite mapParticles_length.
    apply lookup_lt_Some in Hp. rewrite mapParticles_length in Hp. exact Hp. }
  apply lookup_lt_is_Some_2 in Hlt. destruct Hlt as [p' Hp'].
  exists other, p'. split; [exact Hp' |].
  pose proof (mapParticles_lookup _ _ _ _ _ _ Hp') as Ep'.
  subst p p'. cbn [baseX baseY amplitude speed radius]. unfold other.
  repeat split; intros H; lra.
Qed.

(** The particle of index 3 of the sample session. *)
Lemma particle_axis_alternates_witness :
  let p := {| baseX := 0.5; baseY := 0.5; amplitude := 0.05 + 0.5 * 0.35;
              speed := 0.6 + 0.5 * 1.2; radius := 0.6 + 0.5 * 1.9; axis := -1 |} in
  fst (makeParticles (fun _ => 0.5) demoSettings 0) !! 3%nat = Some p
  /\ axis p = -1.
Proof.
  intros p.
  assert (Hp : fst (makeParticles (fun _ => 0.5) demoSettings 0) !! 3%nat = Some p)
    by (vm_compute; reflexivity).
  split; [exact Hp |].
  exact (proj1 (particle_axis_alternates (fun _ => 0.5) demoSettings 0 3 p Hp)).
Defined.

Lemma ofNat_arrayLength_round (x : Q) :
  0 <= x -> ofNat (arrayLength (Math_round x)) == Math_round x.
Proof.
  intros Hx. unfold ofNat, arrayLength, Math_round.
  rewrite Qfloor_Z.
  assert (Hz : (0 <= Qfloor (x + 0.5))%Z).
  { change 0%Z with (Qfloor 0). apply Qfloor_resp_le. lra. }
  rewrite Z2Nat.id by exact Hz. reflexivity.
Qed.

Section FrameClockFacts.

Variables Math_sin Math_cos : Q -> Q.
Variable Math_PI : Q.
Variable Math_random : nat -> Q.

Lemma drawFrame_particles (ctx : Ctx) (width height elapsed : Q)
    (settings : CinematicSettings) (mood : Mood) (particles : list Particle)
    (grainCanvas : GrainTile) :
  snd (drawFrame Math_sin Math_cos Math_PI ctx width height elapsed settings mood
         particles grainCanvas) = particles.
Proof. reflexivity. Qed.

Lemma renderFrame_particles (s : FrameClock) (timestamp : Q) :
  clockParticles (renderFrame Math_sin Math_cos Math_PI Math_random s timestamp)
  = clockParticles s.
Proof.
  unfold renderFrame.
  destruct (generateGrain Math_random (clockGrainCtx s) (clockGrainCanvas s)
              (randomCalls s)) as [tile k].
  pose proof (drawFrame_particles (clockCtx s) (clockWidth s) (clockHeight s)
                ((timestamp - clockStartTime s) / 1000) (clockSettings s)
                (clockMood s) (clockParticles s) tile) as Hsame.
  destruct (drawFrame Math_sin Math_cos Math_PI (clockCtx s) (clockWidth s)
              (clockHeight s) ((timestamp - clockStartTime s) / 1000)
              (clockSettings s) (clockMood s) (clockParticles s) tile)
    as [ctx particles].
  cbn [clockParticles]. exact Hsame.
Qed.

Lemma runFrames_particles (timestamps : list Q) :
  forall s : FrameClock,
  clockParticles (runFrames Math_sin Math_cos Math_PI Math_random s timestamps)
  = clockParticles s.
Proof.
  unfold runFrames.
  induction timestamps as [| t rest IH]; intros s; cbn [fold_left].
  - reflexivity.
  - rewrite IH. apply renderFrame_particles.
Qed.

Lemma paintParticle_rect (width height elapsed : Q) (settings : CinematicSettings)
    (mood : Mood) (ctx : Ctx) (index : nat) (p : Particle) :
  let x := particleX Math_sin Math_cos width elapsed settings p index in
  let y := particleY Math_sin Math_cos height elapsed settings p index in
  let r := radius p * (1 + Math_sin (elapsed * speed p) * 0.4) in
  filledRects (paintParticle Math_sin Math_cos width height elapsed settings mood ctx
                 (index, p))
  = filledRects ctx ++ [(x - r * 10, y - r * 10, r * 20, r * 20)].
Proof.
  intros x y r. unfold paintParticle, fillRect, emit, filledRects.
  cbn [painted setFillStyle withState]. rewrite flat_map_app. reflexivity.
Qed.

End FrameClockFacts.

(** C4: a render session that starts on a canvas with a 2D context builds
    its particle array once, when the clock starts; the array has
    [round(120 * (parallax + 0.5))] particles (for a parallax that is not
    negative); whatever ticks the display delivers afterwards, the clock
    holds the same array, field for field; a frame reads the stored fields
    and paints the particle of index [i] in a square centred on a position
    computed from them and the elapsed time. *)
Theorem particles_built_once_and_kept :
  forall (Math_sin Math_cos : Q -> Q) (Math_PI : Q) (Math_random : nat -> Q)
         (getResolution : string -> Q -> Q * Q) (moods : list Mood)
         (defaultMood : Mood) (ctx : Ctx) (grainCtx : bool)
         (defaultSettings settings : CinematicSettings) (now : Q) (k : nat),
  0 <= parallax settings ->
  exists s : FrameClock,
    startClock Math_random getResolution moods defaultMood
      (Some {| context2d := Some ctx; grainContext2d := grainCtx |})
      defaultSettings settings now k = Some s
    /\ clockParticles s = fst (makeParticles Math_random settings k)
    /\ ofNat (length (clockParticles s))
       == Math_round (120 * (parallax settings + 0.5))
    /\ (forall timestamps : list Q,
          clockParticles (runFrames Math_sin Math_cos Math_PI Math_random s timestamps)
          = clockParticles s
          /\ length (clockParticles
                       (runFrames Math_sin Math_cos Math_PI Math_random s timestamps))
             = length (clockParticles s))
    /\ (forall (width height elapsed : Q) (mood : Mood) (c : Ctx) (index : nat)
               (p : Particle),
          let x := particleX Math_sin Math_cos width elapsed settings p index in
          let y := particleY Math_sin Math_cos height elapsed settings p index in
          let r := radius p * (1 + Math_sin (elapsed * speed p) * 0.4) in
          filledRects (paintParticle Math_sin Math_cos width height elapsed settings
                         mood c (index, p))
          = filledRects c ++ [(x - r * 10, y - r * 10, r * 20, r * 20)]).
Proof.
  intros Math_sin Math_cos Math_PI Math_random getResolution moods defaultMood ctx
         grainCtx defaultSettings settings now k Hparallax.
  unfold startClock. cbn [context2d grainContext2d]. unfold mergeSettings.
  destruct (getResolution (resolutionPresetId settings) (aspectRatio settings))
    as [width height].
  destruct (makeParticles Math_random settings k) as [particles k1] eqn:Hmake.
  destruct (generateGrain Math_random grainCtx blankTile k1) as [tile k2].
  eexists. split; [reflexivity |]. cbn [clockParticles fst].
  split; [reflexivity |].
  split.
  { assert (Hlen : length particles = arrayLength (particleCount settings)).
    { unfold makeParticles in Hmake.
      pose proof (mapParticles_length Math_random
                    (arrayLength (particleCount settings)) 0 k) as Hl.
      rewrite Hmake in Hl. exact Hl. }
    rewrite Hlen. unfold particleCount. apply ofNat_arrayLength_round.
    lra. }
  split.
  { intros timestamps. rewrite runFrames_particles. split; reflexivity. }
  intros. apply paintParticle_rect.
Qed.

(** The sample session: 120 particles, the same after two frames. *)
Lemma particles_built_once_and_kept_witness :
  0 <= parallax demoSettings
  /\ exists s : FrameClock,
       startClock (fun _ => 0.5) sampleResolution [noirMood] noirMood
         (Some sampleCanvas) demoSettings demoSettings 0 0 = Some s
       /\ length (clockParticles s) = 120%nat
       /\ clockParticles (runFrames rationalWave rationalWave (22 # 7) (fun _ => 0.5) s
                            [16; 33])
          = clockParticles s.
Proof.
  assert (Hparallax : 0 <= parallax demoSettings) by (vm_compute; discriminate).
  split; [exact Hparallax |].
  destruct (particles_built_once_and_kept rationalWave rationalWave (22 # 7)
              (fun _ => 0.5) sampleResolution [noirMood] noirMood freshCtx true
              demoSettings demoSettings 0 0 Hparallax)
    as (s & Hstart & Hmake & _ & Hkeep & _).
  exists s. split; [exact Hstart |]. split.
  - rewrite Hmake. vm_compute. reflexivity.
  - apply (Hkeep [16; 33]).
Defined.

(** ** Capture session *)

Ltac run :=
  cbv beta iota zeta delta
    [handleGenerate handleGenerateM tryCatchFinally tryBody recordingPhase awaitStop
     finallyBlock catchHandler bind ret throw suspend modify get
     setError setIsGenerating setProgress setVideoUrl setMediaRecorderRef
     setProgressIntervalRef revokeObjectURL createObjectURL captureStream
     newMediaRecorder recorderStart recorderStop setInterval setTimeout clearInterval
     stopTracks onstop onerror logEvent withComp withBrowser
     comp browser trace
     canvasPresent mediaRecorderDefined captureStreamWorks constructorThrows
     startThrows chunks ticks lateTicks sink negb
     isGenerating progress videoUrl error mediaRecorderRef progressIntervalRef
     liveTracks activeIntervals objectUrls nextStream nextTimer nextUrl
     stream options fst snd onTick].

Lemma last_cons_default {A : Type} (x : A) (l : list A) (d d' : A) :
  List.last (x :: l) d = List.last (x :: l) d'.
Proof.
  revert x. induction l as [| y l IH]; intros x; [reflexivity |].
  change (List.last (y :: l) d = List.last (y :: l) d'). apply IH.
Qed.

Lemma runTicks_eq (T : Q) (l : list Q) :
  forall w,
  runTicks T l w
  = (Ok tt,
     {| comp := {| isGenerating := isGenerating (comp w);
                   progress := List.last (map (fun e => tickProgress T e) l)
                                         (progress (comp w));
                   videoUrl := videoUrl (comp w);
                   error := error (comp w);
                   mediaRecorderRef := mediaRecorderRef (comp w);
                   progressIntervalRef := progressIntervalRef (comp w) |};
        browser := browser w;
        trace := trace w ++ map (fun e => SetProgress (tickProgress T e)) l |}).
Proof.
  induction l as [| e l IH]; intros [[g p u er mr pi] b t].
  - run. cbn [runTicks map List.last]. run. rewrite app_nil_r. reflexivity.
  - cbn [runTicks]. unfold bind at 1. run. rewrite IH. run.
    cbn [map]. rewrite <- app_assoc. cbn [app].
    destruct l as [| e' l]; [reflexivity |].
    cbn [map]. do 3 f_equal.
    change (List.last (?x :: ?y :: ?r) ?d) with (List.last (y :: r) d).
    apply last_cons_default.
Qed.

(** Runs [handleGenerate sc c b]: the scenario and the state are split as
    far as the execution depends on them. *)
Ltac split_on x :=
  lazymatch goal with
  | |- context [x] => destruct x
  | _ => idtac
  end.

Ltac run_session sc c b :=
  let canvas := fresh "canvas" in
  let defined := fresh "defined" in
  let capture := fresh "capture" in
  let ctor := fresh "ctor" in
  let start := fresh "start" in
  let ch := fresh "ch" in
  let tk := fresh "tk" in
  let lt := fresh "lt" in
  let snk := fresh "snk" in
  let follows := fresh "follows" in
  let cause := fresh "cause" in
  let generating := fresh "generating" in
  let prog := fresh "prog" in
  let url := fresh "url" in
  let err := fresh "err" in
  let recorderRef := fresh "recorderRef" in
  let intervalRef := fresh "intervalRef" in
  let id := fresh "id" in
  let tracks := fresh "tracks" in
  let intervals := fresh "intervals" in
  let urls := fresh "urls" in
  let ns := fresh "ns" in
  let nt := fresh "nt" in
  let nu := fresh "nu" in
  destruct sc as [canvas defined capture ctor start ch tk lt snk];
  destruct c as [generating prog url err recorderRef intervalRef];
  destruct b as [tracks intervals urls ns nt nu];
  run;
  split_on canvas; run;
  split_on defined; run;
  split_on url; run;
  split_on capture; run;
  split_on ctor; run;
  split_on start; run;
  rewrite ?runTicks_eq; run;
  lazymatch goal with
  | |- context [snk] => destruct snk as [| | cause follows |]
  | _ => idtac
  end; run;
  split_on follows; run;
  rewrite ?runTicks_eq; run;
  lazymatch goal with
  | |- context [intervalRef] => destruct intervalRef as [[| id] |]
  | _ => idtac
  end; cbn [Nat.eqb]; run;
  split_on recorderRef; run;
  split_on nt; cbn [Nat.eqb]; run;
  rewrite <- ?app_assoc; cbn [app andb].

Lemma flat_map_progress_events {B : Type} (f : Event -> list B) (g : Q -> Q)
    (l : list Q) :
  flat_map f (map (fun e => SetProgress (g e)) l)
  = flat_map (fun e => f (SetProgress (g e))) l.
Proof.
  induction l as [| e l IH]; [reflexivity |]. cbn [map flat_map]. rewrite IH. reflexivity.
Qed.

Lemma flat_map_nothing {A B : Type} (l : list A) : flat_map (fun _ : A => @nil B) l = [].
Proof. induction l; [reflexivity | assumption]. Qed.

Lemma flat_map_singleton {A B : Type} (g : A -> B) (l : list A) :
  flat_map (fun e => [g e]) l = map g l.
Proof. induction l as [| e l IH]; [reflexivity |]. cbn. rewrite IH. reflexivity. Qed.

(** Brings an observation of the trace ([recorderCalls], [progressReports])
    to a list built from the interval readings. *)
Ltac observe :=
  unfold recorderCalls, progressReports;
  repeat (progress (rewrite ?flat_map_app, ?flat_map_progress_events;
                    cbn [flat_map app]));
  rewrite ?flat_map_nothing, ?flat_map_singleton, ?app_nil_r;
  cbn [app].

Lemma recorderCalls_handleGenerate (settings : CinematicSettings) (sc : Scenario)
    (c : Component) (b : Browser) :
  recorderCalls (trace (snd (handleGenerate settings sc c b)))
  = if passesChecks sc then [recorderOptions settings] else [].
Proof.
  unfold passesChecks. run_session sc c b; observe; reflexivity.
Qed.

Lemma Math_round_compat (x y : Q) : x == y -> Math_round x == Math_round y.
Proof.
  intros E. unfold Math_round.
  assert (Hz : Qfloor (x + 0.5) = Qfloor (y + 0.5)) by (apply Qfloor_comp; rewrite E; reflexivity).
  rewrite Hz. reflexivity.
Qed.

(** C5: every recorder [handleGenerate] constructs is given the bit rate
    [max(2500000, round(6000000 * bloom))]; a call that passes the checks
    constructs exactly one; at bloom 0.5 the rate is 3000000. *)
Theorem recorder_bitrate_from_bloom :
  forall (settings : CinematicSettings) (sc : Scenario) (c : Component) (b : Browser),
  let calls := recorderCalls (trace (snd (handleGenerate settings sc c b))) in
  Forall (fun opts => videoBitsPerSecond opts
                      = Math_max 2500000 (Math_round (6000000 * bloom settings))) calls
  /\ (canvasPresent sc = true -> mediaRecorderDefined sc = true ->
      captureStreamWorks sc = true -> calls = [recorderOptions settings])
  /\ (bloom settings == 0.5 ->
      Forall (fun opts => videoBitsPerSecond opts == 3000000) calls).
Proof.
  intros settings sc c b calls. subst calls.
  rewrite recorderCalls_handleGenerate. unfold passesChecks.
  split; [| split].
  - destruct (canvasPresent sc && mediaRecorderDefined sc && captureStreamWorks sc);
      repeat constructor.
  - intros -> -> ->. reflexivity.
  - intros Hbloom.
    destruct (canvasPresent sc && mediaRecorderDefined sc && captureStreamWorks sc);
      repeat constructor.
    cbn [recorderOptions videoBitsPerSecond]. unfold Math_max.
    assert (E : Math_round (6000000 * bloom settings) == 3000000).
    { rewrite (Math_round_compat _ (6000000 * 0.5)) by (rewrite Hbloom; reflexivity).
      reflexivity. }
    rewrite E. reflexivity.
Qed.

(** The sample session records at 3 000 000 bits per second. *)
Lemma recorder_bitrate_from_bloom_witness :
  let calls :=
    recorderCalls (trace (snd (handleGenerate demoSettings okScenario initialComponent
                                 initialBrowser))) in
  bloom demoSettings == 0.5
  /\ calls = [recorderOptions demoSettings]
  /\ Forall (fun opts => videoBitsPerSecond opts == 3000000) calls.
Proof.
  destruct (recorder_bitrate_from_bloom demoSettings okScenario initialComponent
              initialBrowser) as (_ & Hcalls & Hhalf).
  split; [reflexivity |].
  split; [apply Hcalls; reflexivity | apply Hhalf; reflexivity].
Defined.

(** *** Progress *)

Lemma tickProgress_range (T e : Q) : 0 < T -> 0 <= e -> 0 <= tickProgress T e <= 100.
Proof.
  intros HT He. unfold tickProgress, Math_min.
  assert (Hq : 0 <= e / T * 100).
  { apply Qmult_le_0_compat; [| lra].
    apply Qle_shift_div_l; [exact HT | lra]. }
  split.
  - apply Q.min_glb; lra.
  - apply Q.le_min_l.
Qed.

Lemma tickProgress_mono (T e1 e2 : Q) :
  0 < T -> e1 <= e2 -> tickProgress T e1 <= tickProgress T e2.
Proof.
  intros HT Hle. unfold tickProgress, Math_min.
  apply Q.min_le_compat_l.
  apply Qmult_le_compat_r; [| lra].
  apply Qmult_le_compat_r; [exact Hle |].
  apply Qinv_le_0_compat. lra.
Qed.

Lemma tickProgress_pinned (T e : Q) : 0 < T -> T <= e -> tickProgress T e == 100.
Proof.
  intros HT Hle. unfold tickProgress, Math_min.
  apply Q.min_l.
  assert (H1 : 1 <= e / T) by (apply Qle_shift_div_l; [exact HT | lra]).
  lra.
Qed.

Lemma tickProgress_below (T e : Q) : 0 < T -> e < T -> tickProgress T e < 100.
Proof.
  intros HT Hlt. unfold tickProgress, Math_min.
  assert (H1 : e / T < 1) by (apply Qlt_shift_div_r; [exact HT | lra]).
  apply Q.min_lt_iff. right. lra.
Qed.

Lemma Sorted_app_l {A : Type} (R : A -> A -> Prop) (l r : list A) :
  Sorted R (l ++ r) -> Sorted R l.
Proof.
  induction l as [| a l IH]; intros H; [constructor |].
  cbn [app] in H. inversion H as [| ? ? Hs Hhd]; subst.
  constructor; [apply IH; exact Hs |].
  destruct l as [| a' l]; [constructor |].
  cbn [app] in Hhd. inversion Hhd; subst. constructor. assumption.
Qed.

(** The reports of a session: 0, then one value per reading, then possibly
    the final 100. *)
Lemma reports_sorted_in_range (T : Q) (readings : list Q) (tail : list Q) :
  0 < T -> Sorted Qle readings -> Forall (Qle 0) readings ->
  tail = [] \/ tail = [100] ->
  Sorted Qle (0 :: map (tickProgress T) readings ++ tail)
  /\ Forall (fun p => 0 <= p <= 100) (0 :: map (tickProgress T) readings ++ tail).
Proof.
  intros HT Hsorted Hpos Htail.
  assert (Htail_sorted : Sorted Qle tail)
    by (destruct Htail as [-> | ->]; repeat constructor).
  assert (Htail_range : Forall (fun p => 0 <= p <= 100) tail)
    by (destruct Htail as [-> | ->]; repeat constructor; lra).
  assert (Hbody : Sorted Qle (map (tickProgress T) readings ++ tail)).
  { induction Hsorted as [| a l Hs IH Hhd]; [exact Htail_sorted |].
    cbn [map app]. constructor.
    - apply IH. inversion Hpos; assumption.
    - destruct Hhd as [| b l' Hab]; cbn [map app].
      + destruct Htail as [-> | ->]; constructor.
        apply tickProgress_range; [exact HT | inversion Hpos; assumption].
      + constructor. apply tickProgress_mono; assumption. }
  split.
  - constructor; [exact Hbody |].
    destruct readings as [| a l]; cbn [map app].
    + destruct Htail as [-> | ->]; constructor. lra.
    + constructor. apply tickProgress_range; [exact HT | inversion Hpos; assumption].
  - constructor; [lra |]. apply Forall_app. split; [| exact Htail_range].
    apply List.Forall_map. eapply List.Forall_impl; [| exact Hpos].
    intros e He. apply tickProgress_range; assumption.
Qed.

Ltac pick := solve [reflexivity | left; pick | right; pick].

Lemma progressReports_shape (settings : CinematicSettings) (sc : Scenario)
    (c : Component) (b : Browser) :
  let T := duration settings * 1000 in
  let reports := progressReports (trace (snd (handleGenerate settings sc c b))) in
  reports = []
  \/ reports = 0 :: map (tickProgress T) [] ++ []
  \/ reports = 0 :: map (tickProgress T) (ticks sc) ++ []
  \/ reports = 0 :: map (tickProgress T) (ticks sc) ++ [100]
  \/ reports = 0 :: map (tickProgress T) (ticks sc ++ lateTicks sc) ++ []
  \/ reports = 0 :: map (tickProgress T) (ticks sc ++ lateTicks sc) ++ [100].
Proof.
  cbv zeta. run_session sc c b; observe;
    rewrite ?map_app, <- ?app_assoc, ?app_nil_r; cbn [map app]; pick.
Qed.

Lemma progressReports_completes (settings : CinematicSettings) (sc : Scenario)
    (c : Component) (b : Browser) :
  completes sc = true ->
  let T := duration settings * 1000 in
  let w := snd (handleGenerate settings sc c b) in
  progress (comp w) = 100
  /\ progressReports (trace w)
     = 0 :: map (tickProgress T) (ticks sc ++ lateTicks sc) ++ [100].
Proof.
  unfold completes. cbv zeta.
  run_session sc c b; observe;
    rewrite ?map_app, <- ?app_assoc, ?app_nil_r; cbn [map app];
    intros Hc; try discriminate Hc; (split; reflexivity).
Qed.

(** The timers of a session: the interval of the progress sampler, with a
    period of 120 ms, and the deadline, both set once [recorder.start()]
    has returned and not otherwise. *)
Lemma timers_handleGenerate (settings : CinematicSettings) (sc : Scenario)
    (c : Component) (b : Browser) :
  intervalPeriods (trace (snd (handleGenerate settings sc c b)))
  = (if startsRecording sc then [120] else [])
  /\ timeoutDelays (trace (snd (handleGenerate settings sc c b)))
     = (if startsRecording sc then [duration settings * 1000] else []).
Proof.
  unfold startsRecording, passesChecks.
  run_session sc c b; unfold intervalPeriods, timeoutDelays;
    repeat (progress (rewrite ?flat_map_app, ?flat_map_progress_events;
                      cbn [flat_map app]));
    rewrite ?flat_map_nothing, ?app_nil_r; cbn [app];
    split; reflexivity.
Qed.

(** C1, amended to the percentage the code reports: the progress sampler is
    the callback of the one interval timer the session sets, with a period
    of 120 ms, next to the one deadline timer of [duration * 1000] ms.
    Each run reports [min(100, elapsed / total * 100)]; for a positive
    duration and clock readings that are not negative and do not decrease,
    the reports lie in 0..100 and never decrease, a reading at or after the
    deadline reports exactly 100 and an earlier one less, and a session
    that completes ends with the progress set to exactly 100, after one
    report per reading. *)
Theorem progress_percentage_monotone_pinned :
  forall (settings : CinematicSettings) (sc : Scenario) (c : Component) (b : Browser),
  0 < duration settings ->
  Sorted Qle (ticks sc ++ lateTicks sc) ->
  Forall (Qle 0) (ticks sc ++ lateTicks sc) ->
  let total := duration settings * 1000 in
  let w := snd (handleGenerate settings sc c b) in
  let reports := progressReports (trace w) in
  (forall elapsed, tickProgress total elapsed = Math_min 100 (elapsed / total * 100))
  /\ intervalPeriods (trace w) = (if startsRecording sc then [120] else [])
  /\ timeoutDelays (trace w) = (if startsRecording sc then [total] else [])
  /\ Forall (fun p => 0 <= p <= 100) reports
  /\ Sorted Qle reports
  /\ (forall elapsed, total <= elapsed -> tickProgress total elapsed == 100)
  /\ (forall elapsed, elapsed < total -> tickProgress total elapsed < 100)
  /\ (completes sc = true ->
      progress (comp w) = 100
      /\ intervalPeriods (trace w) = [120]
      /\ reports = 0 :: map (tickProgress total) (ticks sc ++ lateTicks sc) ++ [100]
      /\ exists sampled,
           reports = 0 :: map (tickProgress total) sampled ++ [100]
           /\ incl (ticks sc) sampled).
Proof.
  intros settings sc c b Hduration Hsorted Hpos total w reports.
  assert (Htotal : 0 < total) by (unfold total; lra).
  assert (Hsorted_ticks : Sorted Qle (ticks sc)) by (eapply Sorted_app_l; exact Hsorted).
  assert (Hpos_ticks : Forall (Qle 0) (ticks sc))
    by (apply Forall_app in Hpos; tauto).
  assert (Hshape :
    reports = []
    \/ exists readings tail,
         reports = 0 :: map (tickProgress total) readings ++ tail
         /\ Sorted Qle readings /\ Forall (Qle 0) readings
         /\ (tail = [] \/ tail = [100])).
  { destruct (progressReports_shape settings sc c b) as [H | [H | [H | [H | [H | H]]]]];
      [left; exact H | right ..]; fold total in H; fold w in H; fold reports in H.
    - exists [], []. repeat split; auto; constructor.
    - exists (ticks sc), []. repeat split; auto.
    - exists (ticks sc), [100]. repeat split; auto.
    - exists (ticks sc ++ lateTicks sc), []. repeat split; auto.
    - exists (ticks sc ++ lateTicks sc), [100]. repeat split; auto. }
  destruct (timers_handleGenerate settings sc c b) as [Hinterval Htimeout].
  fold w in Hinterval, Htimeout. fold total in Htimeout.
  split; [reflexivity |].
  split; [exact Hinterval |]. split; [exact Htimeout |].
  split; [| split].
  - destruct Hshape as [-> | (readings & tail & -> & Hs & Hp & Ht)]; [constructor |].
    apply reports_sorted_in_range; assumption.
  - destruct Hshape as [-> | (readings & tail & -> & Hs & Hp & Ht)]; [constructor |].
    apply reports_sorted_in_range; assumption.
  - split; [intros; apply tickProgress_pinned; assumption |].
    split; [intros; apply tickProgress_below; assumption |].
    intros Hcompletes.
    destruct (progressReports_completes settings sc c b Hcompletes) as [Hfinal Hreports].
    fold total in Hreports; fold w in Hreports; fold reports in Hreports.
    split; [exact Hfinal |].
    split.
    { rewrite Hinterval. revert Hcompletes. clear.
      unfold completes, startsRecording, passesChecks.
      destruct (canvasPresent sc), (mediaRecorderDefined sc), (captureStreamWorks sc),
        (constructorThrows sc), (startThrows sc), (sink sc);
        intros H; try discriminate H; reflexivity. }
    split; [exact Hreports |].
    exists (ticks sc ++ lateTicks sc). split; [exact Hreports | apply incl_appl, incl_refl].
Qed.

(** The sample session: one interval of 120 ms, reports that never
    decrease, and the progress at 100 in the end. *)
Lemma progress_percentage_monotone_pinned_witness :
  let w := snd (handleGenerate demoSettings okScenario initialComponent initialBrowser) in
  0 < duration demoSettings
  /\ Sorted Qle (ticks okScenario ++ lateTicks okScenario)
  /\ Forall (Qle 0) (ticks okScenario ++ lateTicks okScenario)
  /\ completes okScenario = true
  /\ intervalPeriods (trace w) = [120]
  /\ Sorted Qle (progressReports (trace w))
  /\ progress (comp w) = 100.
Proof.
  assert (Hduration : 0 < duration demoSettings) by reflexivity.
  assert (Hsorted : Sorted Qle (ticks okScenario ++ lateTicks okScenario))
    by (repeat constructor; vm_compute; discriminate).
  assert (Hpos : Forall (Qle 0) (ticks okScenario ++ lateTicks okScenario))
    by (repeat constructor; vm_compute; discriminate).
  destruct (progress_percentage_monotone_pinned demoSettings okScenario initialComponent
              initialBrowser Hduration Hsorted Hpos)
    as (_ & _ & _ & _ & Hmono & _ & _ & Hdone).
  destruct (Hdone eq_refl) as (Hfinal & Hperiod & _).
  split; [exact Hduration |].
  split; [exact Hsorted |].
  split; [exact Hpos |].
  split; [reflexivity |].
  split; [exact Hperiod |].
  split; [exact Hmono | exact Hfinal].
Defined.

(** C1, as stated, fails on the sample session: halfway to the deadline the
    sampler reports 50, which is neither [min(1, 3000 / 6000)] nor at most
    1, and the session completes with the progress at 100, not at 1. *)
Lemma progress_is_not_a_fraction_of_one :
  let w := snd (handleGenerate demoSettings okScenario initialComponent initialBrowser) in
  completes okScenario = true
  /\ fst (handleGenerate demoSettings okScenario initialComponent initialBrowser) = Ok tt
  /\ nth 2 (progressReports (trace w)) 0 == 50
  /\ ~ nth 2 (progressReports (trace w)) 0 == Qmin 1 (3000 / (duration demoSettings * 1000))
  /\ ~ nth 2 (progressReports (trace w)) 0 <= 1
  /\ progress (comp w) == 100
  /\ ~ progress (comp w) == 1.
Proof.
  repeat split; vm_compute;
    first [reflexivity | discriminate | (intros H; apply H; reflexivity)].
Qed.

(** *** Release of the tracks and of the interval timer *)

(** Membership goals over the sets of live tracks, timers and URLs. *)
Ltac gset_tauto :=
  try (apply elem_of_subseteq; intros ?);
  repeat match goal with
         | H : _ ⊆ _ |- _ => rewrite elem_of_subseteq in H
         | H : forall x : nat, _ |- context [?y ∈ _] => pose proof (H y); clear H
         end;
  repeat (progress (rewrite ?elem_of_difference, ?elem_of_union, ?elem_of_singleton,
                            ?elem_of_empty in * ));
  intuition congruence.

(** When the recorder has been constructed, every way out of the routine
    stops the tracks of the captured stream and clears the interval: no
    track and no interval timer is live that was not live before. *)
Lemma handleGenerate_releases_after_construction (settings : CinematicSettings)
    (sc : Scenario) (c : Component) (b : Browser) :
  passesChecks sc = true -> constructorThrows sc = None -> nextTimer b <> 0%nat ->
  fst (handleGenerate settings sc c b) = Ok tt ->
  (nextStream b ∉ liveTracks (browser (snd (handleGenerate settings sc c b))))
  /\ (liveTracks (browser (snd (handleGenerate settings sc c b))) ⊆ liveTracks b)
  /\ (activeIntervals (browser (snd (handleGenerate settings sc c b)))
      ⊆ activeIntervals b).
Proof.
  unfold passesChecks.
  run_session sc c b; intros Hchecks Hctor Htimer Hresult;
    try discriminate; try congruence; clear; repeat split; gset_tauto.
Qed.

(** When the constructor of the recorder throws, the routine returns with
    the tracks of the stream it has just captured still live. *)
Lemma handleGenerate_leaks_stream_when_constructor_throws
    (settings : CinematicSettings) (sc : Scenario) (c : Component) (b : Browser)
    (e : Thrown) :
  passesChecks sc = true -> constructorThrows sc = Some e ->
  match mediaRecorderRef c with
  | Some previous => stream previous <> nextStream b
  | None => True
  end ->
  let result := handleGenerate settings sc c b in
  fst result = Ok tt
  /\ nextStream b ∈ liveTracks (browser (snd result))
  /\ ~ In (TrackStop (nextStream b)) (trace (snd result)).
Proof.
  unfold passesChecks. cbv zeta.
  run_session sc c b; intros Hchecks Hctor Hprevious;
    try discriminate; cbn [stream] in *;
    (split; [reflexivity | split; [gset_tauto |]]);
    cbn [In]; intros Hin; repeat destruct Hin as [Hin | Hin];
    try discriminate; try (injection Hin as Hin; congruence); exact Hin.
Qed.

(** C7: in a browser whose [MediaRecorder] constructor rejects the codec,
    [handleGenerate] captures stream 1, the constructor throws, the routine
    returns through [catch] and [finally], and the track of stream 1 is
    still live: [finally] stops the tracks of [mediaRecorderRef.current],
    which has not been assigned.  No [TrackStop] is in the trace. *)
Theorem constructor_failure_leaves_track_live :
  let result := handleGenerate demoSettings unsupportedCodecScenario
                  initialComponent initialBrowser in
  fst result = Ok tt
  /\ trace (snd result)
     = [ SetError None; SetIsGenerating true; SetProgress 0;
         CaptureStream 30 (Some 1%nat);
         NewMediaRecorder 1 (recorderOptions demoSettings);
         SetError (Some "NotSupportedError"); SetIsGenerating false ]
  /\ liveTracks (browser (snd result)) = {[ 1%nat ]}
  /\ 1%nat ∈ liveTracks (browser (snd result))
  /\ mediaRecorderRef (comp (snd result)) = None.
Proof.
  cbv zeta. repeat split; reflexivity.
Qed.

(** *** Release of the previous artifact *)




(** * Further properties of the code *)

(** ** Colours *)



(** X2: Whatever the sine returns, the colour [applyPulse] builds has three
    integer channels between 0 and 255; where the pulse term
    [sin(2 pi t) * amplitude] is zero (so for amplitude 0), they are the
    channels of the colour it was given. *)
Theorem applyPulse_channels_are_bytes :
  forall (Math_sin : Q -> Q) (Math_PI : Q) (hex : string) (t a : Q),
  exists r g b : Z,
    applyPulse Math_sin Math_PI hex t a = CssRgb (inject_Z r) (inject_Z g) (inject_Z b)
    /\ (0 <= r <= 255)%Z /\ (0 <= g <= 255)%Z /\ (0 <= b <= 255)%Z
    /\ (Math_sin (t * Math_PI * 2) * a == 0 -> (r, g, b) = hexToRgb hex).
Proof.
  intros Math_sin Math_PI hex t a. unfold applyPulse.
  pose proof (hexToRgb_bytes hex) as Hbytes.
  destruct (hexToRgb hex) as [[r g] b]. destruct Hbytes as (Hr & Hg & Hb).
  rewrite !clamp_cases.
  set (p := pulseFactor Math_sin Math_PI t a).
  eexists _, _, _. split; [reflexivity |].
  assert (Hrange : forall n : Z,
            (0 <= (if (n <? 0)%Z then 0 else if (255 <? n)%Z then 255 else n) <= 255)%Z).
  { intros n. destruct (Z.ltb_spec n 0); [lia |]. destruct (Z.ltb_spec 255 n); lia. }
  split; [apply Hrange |]. split; [apply Hrange |]. split; [apply Hrange |].
  intros Hzero.
  assert (Hp : p == 1) by (unfold p, pulseFactor; rewrite Hzero; reflexivity).
  assert (Hsame : forall n : Z, (0 <= n <= 255)%Z ->
            (let m := Qfloor (inject_Z n * p + 0.5) in
             if (m <? 0)%Z then 0 else if (255 <? m)%Z then 255 else m)%Z = n).
  { intros n Hn. cbv zeta.
    assert (E : Qfloor (inject_Z n * p + 0.5) = n).
    { apply Qfloor_unique. rewrite Hp, inject_Z_plus. change (inject_Z 1) with 1. lra. }
    rewrite E. destruct (Z.ltb_spec n 0); [lia |]. destruct (Z.ltb_spec 255 n); lia. }
  cbv zeta in Hsame. rewrite !Hsame by assumption. reflexivity.
Qed.

(** With amplitude 0 the colour comes back unchanged. *)
Lemma applyPulse_channels_are_bytes_witness :
  rationalWave (0.2 * (22 # 7) * 2) * 0 == 0
  /\ applyPulse rationalWave (22 # 7) "#0f172a" 0.2 0 = CssRgb 15 23 42.
Proof.
  assert (Hzero : rationalWave (0.2 * (22 # 7) * 2) * 0 == 0) by ring.
  split; [exact Hzero |].
  destruct (applyPulse_channels_are_bytes rationalWave (22 # 7) "#0f172a" 0.2 0)
    as (r & g & b & Hcolour & _ & _ & _ & Hsame).
  rewrite Hcolour. specialize (Hsame Hzero).
  change (hexToRgb "#0f172a") with (15, 23, 42)%Z in Hsame.
  injection Hsame as -> -> ->. reflexivity.
Defined.

(** ** Camera motion *)

Lemma Qmult_unit_bounds (s c k : Q) :
  -1 <= s <= 1 -> -1 <= c <= 1 -> 0 <= k -> - k <= s * k * c <= k.
Proof.
  intros [Hs1 Hs2] [Hc1 Hc2] Hk.
  assert (H1 : 0 <= (1 - s) * (1 - c)) by (apply Qmult_le_0_compat; lra).
  assert (H2 : 0 <= (1 + s) * (1 + c)) by (apply Qmult_le_0_compat; lra).
  assert (H3 : 0 <= (1 - s) * (1 + c)) by (apply Qmult_le_0_compat; lra).
  assert (H4 : 0 <= (1 + s) * (1 - c)) by (apply Qmult_le_0_compat; lra).
  assert (Hsc : -1 <= s * c <= 1) by (split; lra).
  assert (E : s * k * c == k * (s * c)) by ring.
  rewrite E. destruct Hsc as [Hlo Hhi].
  split.
  - assert (0 <= k * (s * c + 1)) by (apply Qmult_le_0_compat; lra). lra.
  - assert (0 <= k * (1 - s * c)) by (apply Qmult_le_0_compat; lra). lra.
Qed.

Lemma Qmult_sine_bounds (s k : Q) : -1 <= s <= 1 -> 0 <= k -> - k <= s * k <= k.
Proof.
  intros Hs Hk.
  pose proof (Qmult_unit_bounds s 1 k Hs ltac:(lra) Hk) as H.
  assert (E : s * k * 1 == s * k) by ring. rewrite E in H. exact H.
Qed.

Lemma getCameraMotionOffset_within (Math_sin Math_cos : Q -> Q) (id : string)
    (elapsed axis : Q) :
  (forall x, -1 <= Math_sin x <= 1) -> (forall x, -1 <= Math_cos x <= 1) ->
  -1 <= axis <= 1 ->
  -420 <= fst (getCameraMotionOffset Math_sin Math_cos id elapsed axis) <= 420
  /\ -280 <= snd (getCameraMotionOffset Math_sin Math_cos id elapsed axis) <= 280.
Proof.
  intros Hsin Hcos Haxis. unfold getCameraMotionOffset.
  repeat case_bool_decide; cbn [fst snd].
  - pose proof (Qmult_unit_bounds _ axis 420 (Hsin (elapsed * 0.4)) Haxis ltac:(lra)).
    pose proof (Qmult_sine_bounds _ 280 (Hcos (elapsed * 0.25)) ltac:(lra)). lra.
  - pose proof (Qmult_sine_bounds _ 320 (Hsin (elapsed * 0.6 + axis)) ltac:(lra)).
    pose proof (Qmult_sine_bounds _ 220 (Hsin (elapsed * 0.35 + axis)) ltac:(lra)). lra.
  - pose proof (Qmult_sine_bounds _ 65 (Hsin (elapsed * 3)) ltac:(lra)).
    pose proof (Qmult_sine_bounds _ 45 (Hcos (elapsed * 1.5)) ltac:(lra)). lra.
  - pose proof (Qmult_sine_bounds _ 380 (Hcos (elapsed * 0.35)) ltac:(lra)).
    pose proof (Qmult_sine_bounds _ 200 (Hsin (elapsed * 0.3)) ltac:(lra)). lra.
Qed.

(** X3: For every motion id, known or not, the camera offset stays within 420
    horizontally and 280 vertically (sine and cosine within [-1, 1], axis
    sign within [-1, 1]), and the speed multiplier lies between 0.9 and
    1.8. *)
Theorem camera_motion_is_bounded :
  forall (Math_sin Math_cos : Q -> Q) (id : string) (elapsed axis : Q),
  (forall x, -1 <= Math_sin x <= 1) -> (forall x, -1 <= Math_cos x <= 1) ->
  -1 <= axis <= 1 ->
  -420 <= fst (getCameraMotionOffset Math_sin Math_cos id elapsed axis) <= 420
  /\ -280 <= snd (getCameraMotionOffset Math_sin Math_cos id elapsed axis) <= 280
  /\ 0.9 <= getCameraSpeedMultiplier id <= 1.8.
Proof.
  intros Math_sin Math_cos id elapsed axis Hsin Hcos Haxis.
  destruct (getCameraMotionOffset_within Math_sin Math_cos id elapsed axis Hsin Hcos Haxis)
    as [Hx Hy].
  split; [exact Hx |]. split; [exact Hy |].
  unfold getCameraSpeedMultiplier. repeat case_bool_decide; lra.
Qed.

Lemma camera_motion_is_bounded_witness :
  -420 <= fst (getCameraMotionOffset rationalWave rationalWave "dolly" 3 (-1)) <= 420
  /\ 0.9 <= getCameraSpeedMultiplier "dolly" <= 1.8.
Proof.
  destruct (camera_motion_is_bounded rationalWave rationalWave "dolly" 3 (-1)
              rationalWave_bounded rationalWave_bounded ltac:(lra))
    as (Hx & _ & Hspeed).
  split; [exact Hx | exact Hspeed].
Defined.

Lemma Qmult_between (d lo hi w : Q) :
  lo <= d <= hi -> 0 <= w -> lo * w <= d * w <= hi * w.
Proof.
  intros [Hlo Hhi] Hw. split; apply Qmult_le_compat_r; assumption.
Qed.

(** X4: A particle is painted within 46% of the frame width and 31% of the
    frame height of its stored base position, whatever the elapsed time,
    the camera motion and the index; with a base position near an edge it
    can therefore be painted outside the frame. *)
Theorem particle_stays_near_its_base :
  forall (Math_sin Math_cos : Q -> Q) (width height elapsed : Q)
         (settings : CinematicSettings) (p : Particle) (index : nat),
  (forall x, -1 <= Math_sin x <= 1) -> (forall x, -1 <= Math_cos x <= 1) ->
  -1 <= axis p <= 1 -> 0 <= width -> 0 <= height ->
  (baseX p - 0.46) * width
    <= particleX Math_sin Math_cos width elapsed settings p index
    <= (baseX p + 0.46) * width
  /\ (baseY p - 0.31) * height
       <= particleY Math_sin Math_cos height elapsed settings p index
       <= (baseY p + 0.31) * height.
Proof.
  intros Math_sin Math_cos width height elapsed settings p index Hsin Hcos Haxis Hw Hh.
  destruct (getCameraMotionOffset_within Math_sin Math_cos (cameraMotionId settings)
              elapsed (axis p) Hsin Hcos Haxis) as [Hmx Hmy].
  unfold particleX, particleY. cbv zeta.
  set (mx := fst (getCameraMotionOffset _ _ _ _ _)) in *.
  set (my := snd (getCameraMotionOffset _ _ _ _ _)) in *.
  pose proof (Hsin (elapsed * 0.17 + ofNat index)) as H1.
  pose proof (Hsin (elapsed * speed p * 0.2 + ofNat index)) as H2.
  pose proof (Hcos (elapsed * 0.12 + ofNat index)) as H3.
  pose proof (Hsin (elapsed * speed p * 0.1 + ofNat index)) as H4.
  set (s1 := Math_sin (elapsed * 0.17 + ofNat index)) in *.
  set (s2 := Math_sin (elapsed * speed p * 0.2 + ofNat index)) in *.
  set (c3 := Math_cos (elapsed * 0.12 + ofNat index)) in *.
  set (s4 := Math_sin (elapsed * speed p * 0.1 + ofNat index)) in *.
  split.
  - assert (E : (baseX p + s1 * 0.02 + mx * 0.001) * width + s2 * width * 0.02
                == (baseX p + s1 * 0.02 + mx * 0.001 + s2 * 0.02) * width) by ring.
    rewrite E. apply Qmult_between; [lra | exact Hw].
  - apply Qmult_between; [lra | exact Hh].
Qed.

Lemma particle_stays_near_its_base_witness :
  let p := {| baseX := 0.5; baseY := 0.5; amplitude := 0.2; speed := 1; radius := 1;
              axis := -1 |} in
  (baseX p - 0.46) * 1280
    <= particleX rationalWave rationalWave 1280 2 demoSettings p 3
    <= (baseX p + 0.46) * 1280.
Proof.
  intros p.
  exact (proj1 (particle_stays_near_its_base rationalWave rationalWave 1280 720 2
                  demoSettings p 3 rationalWave_bounded rationalWave_bounded
                  ltac:(cbn; lra) ltac:(lra) ltac:(lra))).
Defined.

(** ** Particles *)

(** X5: When [Math.random] returns values in [0, 1), every particle the
    effect builds has its base position in the unit square, an amplitude
    in [0.05, 0.4), a speed in [0.6, 1.8) and a radius in [0.6, 2.5). *)
Theorem generated_particles_in_range :
  forall (Math_random : nat -> Q) (settings : CinematicSettings) (k : nat)
         (p : Particle),
  (forall j, 0 <= Math_random j < 1) ->
  In p (fst (makeParticles Math_random settings k)) ->
  0 <= baseX p < 1 /\ 0 <= baseY p < 1
  /\ 0.05 <= amplitude p < 0.4
  /\ 0.6 <= speed p < 1.8
  /\ 0.6 <= radius p < 2.5.
Proof.
  intros Math_random settings k p Hrandom Hin.
  apply list_elem_of_In, list_elem_of_lookup in Hin. destruct Hin as [i Hi].
  unfold makeParticles in Hi. apply mapParticles_lookup in Hi. subst p.
  cbn [baseX baseY amplitude speed radius].
  pose proof (Hrandom (k + 5 * i)%nat). pose proof (Hrandom (k + 5 * i + 1)%nat).
  pose proof (Hrandom (k + 5 * i + 2)%nat). pose proof (Hrandom (k + 5 * i + 3)%nat).
  pose proof (Hrandom (k + 5 * i + 4)%nat).
  repeat split; lra.
Qed.

Lemma generated_particles_in_range_witness :
  let p := {| baseX := 0.5; baseY := 0.5; amplitude := 0.05 + 0.5 * 0.35;
              speed := 0.6 + 0.5 * 1.2; radius := 0.6 + 0.5 * 1.9; axis := 1 |} in
  In p (fst (makeParticles (fun _ => 0.5) demoSettings 0))
  /\ 0.6 <= radius p < 2.5.
Proof.
  intros p.
  assert (Hin : In p (fst (makeParticles (fun _ => 0.5) demoSettings 0)))
    by (vm_compute; left; reflexivity).
  split; [exact Hin |].
  apply (generated_particles_in_range (fun _ => 0.5) demoSettings 0 p);
    [intros j; split; [discriminate | reflexivity] | exact Hin].
Defined.

Lemma paintParticle_ignores_amplitude (Math_sin Math_cos : Q -> Q)
    (width height elapsed : Q) (settings : CinematicSettings) (mood : Mood) (ctx : Ctx)
    (index : nat) (p q : Particle) :
  sameButAmplitude p q ->
  paintParticle Math_sin Math_cos width height elapsed settings mood ctx (index, p)
  = paintParticle Math_sin Math_cos width height elapsed settings mood ctx (index, q).
Proof.
  intros (Hx & Hy & Hs & Hr & Ha).
  unfold paintParticle, particleX, particleY. cbv zeta.
  rewrite Hx, Hy, Hs, Hr, Ha. reflexivity.
Qed.

(** X6: The renderer never reads the [amplitude] field: two particle arrays
    that agree on every other field are painted alike. *)
Theorem paintParticles_ignores_amplitude :
  forall (Math_sin Math_cos : Q -> Q) (ctx : Ctx) (width height elapsed : Q)
         (ps qs : list Particle) (settings : CinematicSettings) (mood : Mood),
  Forall2 sameButAmplitude ps qs ->
  fst (paintParticles Math_sin Math_cos ctx width height elapsed ps settings mood)
  = fst (paintParticles Math_sin Math_cos ctx width height elapsed qs settings mood).
Proof.
  intros Math_sin Math_cos ctx width height elapsed ps qs settings mood Hsame.
  unfold paintParticles. cbv zeta. cbn [fst].
  assert (Hlen : length ps = length qs) by (eapply Forall2_length; exact Hsame).
  rewrite Hlen.
  set (c0 := setGlobalAlpha _ (setComposite _ (save ctx))).
  assert (Hfold :
    forall (start : nat) (c : Ctx),
    fold_left (paintParticle Math_sin Math_cos width height elapsed settings mood)
      (combine (seq start (length qs)) ps) c
    = fold_left (paintParticle Math_sin Math_cos width height elapsed settings mood)
        (combine (seq start (length qs)) qs) c).
  { clear c0. rewrite <- Hlen. clear Hlen.
    induction Hsame as [| p q ps qs Hpq Hrest IH]; intros start c; [reflexivity |].
    cbn [length seq combine fold_left].
    rewrite (paintParticle_ignores_amplitude _ _ _ _ _ _ _ _ _ p q Hpq).
    apply IH. }
  rewrite Hfold. reflexivity.
Qed.

Lemma paintParticles_ignores_amplitude_witness :
  let p := {| baseX := 0.5; baseY := 0.5; amplitude := 0.05; speed := 1; radius := 1;
              axis := 1 |} in
  let q := {| baseX := 0.5; baseY := 0.5; amplitude := 0.39; speed := 1; radius := 1;
              axis := 1 |} in
  fst (paintParticles rationalWave rationalWave freshCtx 1280 720 2 [p] demoSettings
         noirMood)
  = fst (paintParticles rationalWave rationalWave freshCtx 1280 720 2 [q] demoSettings
           noirMood).
Proof.
  intros p q.
  apply (paintParticles_ignores_amplitude rationalWave rationalWave freshCtx 1280 720 2
           [p] [q] demoSettings noirMood).
  repeat constructor.
Defined.

(** ** The drawing context across the layer stack *)

Lemma appends_refl (c : Ctx) : appends c c [].
Proof. split; [reflexivity | symmetry; apply app_nil_r]. Qed.

Lemma appends_trans (c1 c2 c3 : Ctx) (ops1 ops2 : list DrawOp) :
  appends c1 c2 ops1 -> appends c2 c3 ops2 -> appends c1 c3 (ops1 ++ ops2).
Proof.
  intros [Hs1 Hp1] [Hs2 Hp2]. split; [congruence |].
  rewrite Hp2, Hp1, app_assoc. reflexivity.
Qed.

Section AppendsSteps.

Variables (c1 c2 : Ctx) (ops : list DrawOp).
Hypothesis Hsofar : appends c1 c2 ops.

Lemma appends_withState (f : CtxState -> CtxState) : appends c1 (withState f c2) ops.
Proof. exact Hsofar. Qed.

Lemma appends_setFillStyle (s : Style) : appends c1 (setFillStyle s c2) ops.
Proof. exact Hsofar. Qed.

Lemma appends_setStrokeStyle (s : Style) : appends c1 (setStrokeStyle s c2) ops.
Proof. exact Hsofar. Qed.

Lemma appends_setGlobalAlpha (a : Q) : appends c1 (setGlobalAlpha a c2) ops.
Proof. exact Hsofar. Qed.

Lemma appends_setComposite (op : string) : appends c1 (setComposite op c2) ops.
Proof. exact Hsofar. Qed.

Lemma appends_setFilter (f : Filter) : appends c1 (setFilter f c2) ops.
Proof. exact Hsofar. Qed.

Lemma appends_setLineWidth (w : Q) : appends c1 (setLineWidth w c2) ops.
Proof. exact Hsofar. Qed.

Lemma appends_beginPath : appends c1 (beginPath c2) ops.
Proof. exact Hsofar. Qed.

Lemma appends_addPath (p : PathOp) : appends c1 (addPath p c2) ops.
Proof. exact Hsofar. Qed.

Lemma appends_emit (op : DrawOp) : appends c1 (emit op c2) (ops ++ [op]).
Proof.
  destruct Hsofar as [Hs Hp]. split; [exact Hs |].
  cbn [emit painted]. rewrite Hp, app_assoc. reflexivity.
Qed.

Lemma appends_fillRect (x y w h : Q) :
  appends c1 (fillRect x y w h c2) (ops ++ [FillRect (cur c2) x y w h]).
Proof. apply appends_emit. Qed.

Lemma appends_clearRect (x y w h : Q) :
  appends c1 (clearRect x y w h c2) (ops ++ [ClearRect x y w h]).
Proof. apply appends_emit. Qed.

Lemma appends_fill : appends c1 (fill c2) (ops ++ [FillPath (cur c2) (path c2)]).
Proof. apply appends_emit. Qed.

Lemma appends_stroke : appends c1 (stroke c2) (ops ++ [StrokePath (cur c2) (path c2)]).
Proof. apply appends_emit. Qed.

End AppendsSteps.

(** What a painter does between [ctx.save()] and [ctx.restore()] leaves the
    drawing state and the stack as they were. *)
Lemma bracket_restores (c c' : Ctx) (ops : list DrawOp) :
  appends (save c) c' ops ->
  cur (restore c') = cur c /\ appends c (restore c') ops.
Proof.
  intros [Hs Hp]. unfold restore. rewrite Hs. cbn [save saved cur painted] in *.
  repeat split; assumption.
Qed.

Lemma appends_save (c : Ctx) : appends (save c) (save c) [].
Proof. apply appends_refl. Qed.

(** Walks back through the setters and painting calls of a painter. *)
Ltac walk :=
  repeat first
    [ apply appends_setFillStyle | apply appends_setStrokeStyle
    | apply appends_setGlobalAlpha | apply appends_setComposite
    | apply appends_setFilter | apply appends_setLineWidth
    | apply appends_beginPath | apply appends_addPath
    | apply appends_fillRect | apply appends_clearRect
    | apply appends_fill | apply appends_stroke ].

Lemma appends_fold {A : Type} (f : Ctx -> A -> Ctx) (k : nat) (l : list A) :
  (forall c x, exists ops, appends c (f c x) ops /\ length ops = k) ->
  forall c, exists ops, appends c (fold_left f l c) ops /\ length ops = (k * length l)%nat.
Proof.
  intros Hstep. induction l as [| x l IH]; intros c; cbn [fold_left length].
  - exists []. split; [apply appends_refl | cbn; lia].
  - destruct (Hstep c x) as (ops1 & H1 & L1).
    destruct (IH (f c x)) as (ops2 & H2 & L2).
    exists (ops1 ++ ops2). split; [eapply appends_trans; eassumption |].
    rewrite length_app. lia.
Qed.

Section LayerStackFacts.

Variables Math_sin Math_cos : Q -> Q.
Variable Math_PI : Q.

Lemma paintBackground_appends (ctx : Ctx) (width height elapsed : Q) (mood : Mood)
    (settings : CinematicSettings) :
  exists ops,
    appends ctx (paintBackground Math_sin Math_PI ctx width height elapsed mood settings)
      ops
    /\ length ops = 3%nat.
Proof.
  unfold paintBackground. cbv zeta.
  eexists. split; [walk; apply appends_refl | reflexivity].
Qed.

Lemma parallaxCurve_appends (n : nat) :
  forall (x width baseY amplitude slope waveSpeed elapsed layer : Q)
         (settings : CinematicSettings) (c1 ctx : Ctx) (ops : list DrawOp),
  appends c1 ctx ops ->
  appends c1 (parallaxCurve Math_sin Math_cos Math_PI n x width baseY amplitude slope
                waveSpeed elapsed layer settings ctx) ops.
Proof.
  induction n as [| n IH]; intros; cbn [parallaxCurve]; [assumption |].
  cbv zeta. apply IH. destruct (Qeq_bool x 0); apply appends_addPath; assumption.
Qed.

Lemma parallaxLayer_appends (width height elapsed : Q) (settings : CinematicSettings)
    (ctx : Ctx) (layer : nat) :
  exists ops,
    appends ctx (parallaxLayer Math_sin Math_cos Math_PI width height elapsed settings
                   ctx layer) ops
    /\ length ops = 2%nat.
Proof.
  unfold parallaxLayer. cbv zeta.
  eexists. split; [walk; apply parallaxCurve_appends; walk; apply appends_refl |].
  reflexivity.
Qed.

Lemma lightSweep_appends (width height elapsed : Q) (mood : Mood)
    (settings : CinematicSettings) (ctx : Ctx) (index : nat) :
  exists ops,
    appends ctx (lightSweep Math_sin width height elapsed mood settings ctx index) ops
    /\ length ops = 1%nat.
Proof.
  unfold lightSweep. cbv zeta.
  eexists. split; [walk; apply appends_refl | reflexivity].
Qed.

Lemma paintParticle_appends (width height elapsed : Q) (settings : CinematicSettings)
    (mood : Mood) (ctx : Ctx) (entry : nat * Particle) :
  exists ops,
    appends ctx (paintParticle Math_sin Math_cos width height elapsed settings mood ctx
                   entry) ops
    /\ length ops = 1%nat.
Proof.
  destruct entry as [index p]. unfold paintParticle. cbv zeta.
  eexists. split; [walk; apply appends_refl | reflexivity].
Qed.

Lemma paintParallaxShapes_appends (ctx : Ctx) (width height elapsed : Q)
    (settings : CinematicSettings) :
  exists ops,
    appends ctx (paintParallaxShapes Math_sin Math_cos Math_PI ctx width height elapsed
                   settings) ops
    /\ length ops = 8%nat.
Proof.
  unfold paintParallaxShapes.
  destruct (appends_fold
              (parallaxLayer Math_sin Math_cos Math_PI width height elapsed settings)
              2 (seq 0 4)
              (fun c x => parallaxLayer_appends width height elapsed settings c x) ctx)
    as (ops & Hops & Hlen).
  exists ops. split; [exact Hops | exact Hlen].
Qed.

Lemma paintLightSweeps_appends (ctx : Ctx) (width height elapsed : Q) (mood : Mood)
    (settings : CinematicSettings) :
  exists ops,
    appends ctx (paintLightSweeps Math_sin ctx width height elapsed mood settings) ops
    /\ length ops = 3%nat
    /\ globalCompositeOperation
         (cur (paintLightSweeps Math_sin ctx width height elapsed mood settings))
       = "source-over".
Proof.
  unfold paintLightSweeps. cbv zeta.
  destruct (appends_fold (lightSweep Math_sin width height elapsed mood settings)
              1 (seq 0 3)
              (fun c x => lightSweep_appends width height elapsed mood settings c x) ctx)
    as (ops & Hops & Hlen).
  exists ops. split; [walk; exact Hops |]. split; [exact Hlen | reflexivity].
Qed.

Lemma paintParticles_restores (ctx : Ctx) (width height elapsed : Q)
    (particles : list Particle) (settings : CinematicSettings) (mood : Mood) :
  exists (glows : list DrawOp) (wash : CtxState),
    cur (fst (paintParticles Math_sin Math_cos ctx width height elapsed particles
                settings mood)) = cur ctx
    /\ appends ctx (fst (paintParticles Math_sin Math_cos ctx width height elapsed
                           particles settings mood))
         (glows ++ [FillRect wash 0 0 width height])
    /\ length glows = length particles
    /\ globalAlpha wash = 0.8 * chromaShift settings
    /\ globalCompositeOperation wash = "screen"
    /\ filter wash = BlurSaturate (1.5 + bloom settings * 5)
                                  (1.3 + chromaShift settings * 0.7)
    /\ fillStyle wash = Solid (CssText (palette2 mood ++ "66")).
Proof.
  unfold paintParticles. cbv zeta. cbn [fst].
  set (c0 := setGlobalAlpha _ (setComposite "lighter" (save ctx))).
  destruct (appends_fold
              (paintParticle Math_sin Math_cos width height elapsed settings mood) 1
              (combine (seq 0 (length particles)) particles)
              (fun c x => paintParticle_appends width height elapsed settings mood c x)
              c0)
    as (ops & Hops & Hlen).
  rewrite length_combine, length_seq, Nat.min_id in Hlen.
  set (c1 := fold_left _ _ c0) in *.
  assert (H1 : appends (save ctx) c1 ([] ++ ops)).
  { eapply appends_trans; [| exact Hops]. unfold c0. walk. apply appends_refl. }
  cbn [app] in H1.
  exists ops. eexists. split; [| split; [| split; [| split; [| split; [| split]]]]].
  - eapply bracket_restores. walk. exact H1.
  - eapply bracket_restores. walk. exact H1.
  - lia.
  - reflexivity.
  - reflexivity.
  - reflexivity.
  - reflexivity.
Qed.

Lemma paintGrain_restores (ctx : Ctx) (width height : Q) (grainCanvas : GrainTile)
    (settings : CinematicSettings) :
  exists op,
    cur (paintGrain ctx width height grainCanvas settings) = cur ctx
    /\ appends ctx (paintGrain ctx width height grainCanvas settings) [op].
Proof.
  unfold paintGrain. cbv zeta.
  eexists. apply bracket_restores.
  change [?op] with ([] ++ [op]). walk. apply appends_refl.
Qed.

(** [paintBars] restores the drawing state; it paints no bar or two. *)
Lemma paintBars_restores (ctx : Ctx) (width height : Q) (settings : CinematicSettings) :
  exists ops,
    cur (paintBars ctx width height settings) = cur ctx
    /\ appends ctx (paintBars ctx width height settings) ops
    /\ (ops = []
        \/ exists (st : CtxState) (t : Q),
             0 < t
             /\ globalAlpha st = 0.75
             /\ fillStyle st = Solid (CssText "rgba(0,0,0,0.85)")
             /\ (ops = [FillRect st 0 0 width t; FillRect st 0 (height - t) width t]
                 \/ ops = [FillRect st 0 0 t height; FillRect st (width - t) 0 t height])).
Proof.
  unfold paintBars. cbv zeta.
  set (c0 := setFillStyle _ (setGlobalAlpha 0.75 (save ctx))).
  assert (H0 : appends (save ctx) c0 []) by (unfold c0; walk; apply appends_refl).
  destruct (Qlt_le_dec (aspectRatio settings) (width / height)) as [Hwide | Hnarrow].
  - destruct (Qlt_le_dec 0 ((height - width / aspectRatio settings) / 2)) as [Hpos | Hno].
    + eexists. split; [| split].
      * eapply bracket_restores. walk. exact H0.
      * eapply bracket_restores. walk. exact H0.
      * right. exists (cur c0), ((height - width / aspectRatio settings) / 2).
        split; [exact Hpos |]. split; [reflexivity |]. split; [reflexivity |].
        left. reflexivity.
    + exists []. destruct (bracket_restores _ _ _ H0) as [Hc Ha].
      split; [exact Hc |]. split; [exact Ha | left; reflexivity].
  - destruct (Qlt_le_dec 0 ((width - height * aspectRatio settings) / 2)) as [Hpos | Hno].
    + eexists. split; [| split].
      * eapply bracket_restores. walk. exact H0.
      * eapply bracket_restores. walk. exact H0.
      * right. exists (cur c0), ((width - height * aspectRatio settings) / 2).
        split; [exact Hpos |]. split; [reflexivity |]. split; [reflexivity |].
        right. reflexivity.
    + exists []. destruct (bracket_restores _ _ _ H0) as [Hc Ha].
      split; [exact Hc |]. split; [exact Ha | left; reflexivity].
Qed.

End LayerStackFacts.

(** X7: [paintBars] paints nothing, or one pair of bars of the same positive
    thickness against opposite edges: over the full width at the top and
    at the bottom, or over the full height at the left and at the right.
    Both bars are filled with [rgba(0,0,0,0.85)] at alpha 0.75, and the
    drawing state and the [save] stack are left as they were. *)
Theorem paintBars_paints_a_pair_or_nothing :
  forall (ctx : Ctx) (width height : Q) (settings : CinematicSettings),
  cur (paintBars ctx width height settings) = cur ctx
  /\ saved (paintBars ctx width height settings) = saved ctx
  /\ exists bars,
       painted (paintBars ctx width height settings) = painted ctx ++ bars
       /\ (bars = []
           \/ exists (st : CtxState) (t : Q),
                0 < t
                /\ globalAlpha st = 0.75
                /\ fillStyle st = Solid (CssText "rgba(0,0,0,0.85)")
                /\ (bars = [FillRect st 0 0 width t; FillRect st 0 (height - t) width t]
                    \/ bars = [FillRect st 0 0 t height;
                               FillRect st (width - t) 0 t height])).
Proof.
  intros ctx width height settings.
  destruct (paintBars_restores ctx width height settings)
    as (ops & Hcur & [Hsaved Hpainted] & Hbars).
  split; [exact Hcur |]. split; [exact Hsaved |].
  exists ops. split; [exact Hpainted | exact Hbars].
Qed.

(** The frame as a whole: what [drawFrame] adds to the log and what it
    leaves as it was. *)
Lemma drawFrame_frame :
  forall (Math_sin Math_cos : Q -> Q) (Math_PI : Q) (ctx : Ctx)
         (width height elapsed : Q) (settings : CinematicSettings) (mood : Mood)
         (particles : list Particle) (grainCanvas : GrainTile),
  let after := fst (drawFrame Math_sin Math_cos Math_PI ctx width height elapsed settings
                      mood particles grainCanvas) in
  cur after = cur ctx
  /\ saved after = saved ctx
  /\ exists ops,
       painted after = painted ctx ++ ClearRect 0 0 width height :: ops
       /\ (length ops = (16 + length particles)%nat
           \/ length ops = (18 + length particles)%nat).
Proof.
  intros Math_sin Math_cos Math_PI ctx width height elapsed settings mood particles
         grainCanvas after.
  subst after. unfold drawFrame. cbv zeta.
  set (c1 := clearRect 0 0 width height (save ctx)).
  assert (H1 : appends (save ctx) c1 ([] ++ [ClearRect 0 0 width height]))
    by (unfold c1; walk; apply appends_refl).
  destruct (paintBackground_appends Math_sin Math_PI c1 width height elapsed mood
              settings) as (o2 & H2 & L2).
  set (c2 := paintBackground _ _ c1 _ _ _ _ _) in *.
  destruct (paintParallaxShapes_appends Math_sin Math_cos Math_PI c2 width height
              elapsed settings) as (o3 & H3 & L3).
  set (c3 := paintParallaxShapes _ _ _ c2 _ _ _ _) in *.
  destruct (paintLightSweeps_appends Math_sin c3 width height elapsed mood settings)
    as (o4 & H4 & L4 & _).
  set (c4 := paintLightSweeps _ c3 _ _ _ _ _) in *.
  destruct (paintParticles_restores Math_sin Math_cos c4 width height elapsed particles
              settings mood) as (glows & wash & _ & H5 & L5 & _).
  set (o5 := glows ++ [FillRect wash 0 0 width height]) in *.
  assert (L5' : length o5 = S (length particles))
    by (unfold o5; rewrite length_app; cbn [length]; lia).
  destruct (paintParticles Math_sin Math_cos c4 width height elapsed particles settings
              mood) as [c5 ps]. cbn [fst] in *.
  destruct (paintBars_restores c5 width height settings) as (o6 & _ & H6 & B6).
  assert (L6 : length o6 = 0%nat \/ length o6 = 2%nat).
  { destruct B6 as [-> | (st & t & _ & _ & _ & [-> | ->])];
      [left | right | right]; reflexivity. }
  set (c6 := paintBars c5 _ _ _) in *.
  destruct (paintGrain_restores c6 width height grainCanvas settings)
    as (o7 & _ & H7).
  set (c7 := paintGrain c6 _ _ _ _) in *.
  pose proof (appends_trans _ _ _ _ _
                (appends_trans _ _ _ _ _
                   (appends_trans _ _ _ _ _
                      (appends_trans _ _ _ _ _
                         (appends_trans _ _ _ _ _
                            (appends_trans _ _ _ _ _ H1 H2) H3) H4) H5) H6) H7)
    as Hall.
  destruct (bracket_restores _ _ _ Hall) as [Hcur [Hsaved Hpainted]].
  split; [exact Hcur |]. split; [exact Hsaved |].
  exists (o2 ++ o3 ++ o4 ++ o5 ++ o6 ++ [o7]).
  split.
  - rewrite Hpainted. cbn [app]. rewrite <- !app_assoc. reflexivity.
  - rewrite !length_app. cbn [length].
    destruct L6 as [L6 | L6]; [left | right]; lia.
Qed.



(** ** Parallax layers and light sweeps *)

Section ParallaxFacts.

Variables Math_sin Math_cos : Q -> Q.
Variable Math_PI : Q.

Lemma parallaxCurve_lines (n : nat) :
  forall (x width baseY amplitude slope waveSpeed elapsed layer : Q)
         (settings : CinematicSettings) (ctx : Ctx),
  0 < x ->
  exists pts,
    path (parallaxCurve Math_sin Math_cos Math_PI n x width baseY amplitude slope
            waveSpeed elapsed layer settings ctx) = path ctx ++ pts
    /\ length pts = n /\ Forall isLineTo pts.
Proof.
  induction n as [| n IH]; intros x width baseY amplitude slope waveSpeed elapsed layer
                                  settings ctx Hx; cbn [parallaxCurve].
  - exists []. rewrite app_nil_r. repeat split. constructor.
  - cbv zeta.
    assert (Hne : Qeq_bool x 0 = false).
    { destruct (Qeq_bool x 0) eqn:E; [| reflexivity].
      apply Qeq_bool_iff in E. lra. }
    rewrite Hne.
    match goal with
    | |- context [parallaxCurve _ _ _ n ?x' ?w ?b ?a ?s ?ws ?e ?l ?st (addPath ?p ?c)] =>
        destruct (IH x' w b a s ws e l st (addPath p c) ltac:(lra)) as (pts & Hp & Hl & Hf);
        exists (p :: pts)
    end.
    split; [| split].
    + rewrite Hp. cbn [addPath path]. rewrite <- app_assoc. reflexivity.
    + cbn [length]. congruence.
    + constructor; [exact I | exact Hf].
Qed.

Lemma parallaxCurve_from_left_edge (n : nat) (width baseY amplitude slope waveSpeed
    elapsed layer : Q) (settings : CinematicSettings) (ctx : Ctx) :
  exists y pts,
    path (parallaxCurve Math_sin Math_cos Math_PI (S n) 0 width baseY amplitude slope
            waveSpeed elapsed layer settings ctx)
    = path ctx ++ MoveTo 0 y :: pts
    /\ length pts = n /\ Forall isLineTo pts.
Proof.
  cbn [parallaxCurve]. cbv zeta. change (Qeq_bool 0 0) with true. cbv iota.
  match goal with
  | |- context [parallaxCurve _ _ _ n ?x' ?w ?b ?a ?s ?ws ?e ?l ?st
                  (addPath (MoveTo 0 ?y) ?c)] =>
      destruct (parallaxCurve_lines n x' w b a s ws e l st (addPath (MoveTo 0 y) c)
                  ltac:(lra)) as (pts & Hp & Hl & Hf);
      exists y, pts
  end.
  split; [| split; assumption].
  rewrite Hp. cbn [addPath path]. rewrite <- app_assoc. reflexivity.
Qed.

Lemma parallaxCurve_keeps_state (n : nat) :
  forall (x width baseY amplitude slope waveSpeed elapsed layer : Q)
         (settings : CinematicSettings) (ctx : Ctx),
  cur (parallaxCurve Math_sin Math_cos Math_PI n x width baseY amplitude slope waveSpeed
         elapsed layer settings ctx) = cur ctx
  /\ painted (parallaxCurve Math_sin Math_cos Math_PI n x width baseY amplitude slope
                waveSpeed elapsed layer settings ctx) = painted ctx.
Proof.
  induction n as [| n IH]; intros; cbn [parallaxCurve]; [split; reflexivity |].
  cbv zeta.
  match goal with
  | |- context [parallaxCurve _ _ _ n ?x' ?w ?b ?a ?s ?ws ?e ?l ?st ?c] =>
      destruct (IH x' w b a s ws e l st c) as [Hc Hp]; rewrite Hc, Hp
  end.
  destruct (Qeq_bool x 0); split; reflexivity.
Qed.

Lemma curveSteps_nonneg (width : Q) :
  0 <= width -> curveSteps width = S (Z.to_nat (Qfloor (width / 4))).
Proof.
  intros Hw. unfold curveSteps.
  assert (Hle : Qle_bool 0 width = true) by (apply Qle_bool_iff; exact Hw).
  rewrite Hle.
  assert (Hf : (0 <= Qfloor (width / 4))%Z).
  { change 0%Z with (Qfloor 0). apply Qfloor_resp_le.
    apply Qle_shift_div_l; lra. }
  rewrite Z2Nat.inj_add by lia. change (Z.to_nat 1) with 1%nat. lia.
Qed.

(** X10: Each parallax layer fills and then strokes one and the same path.  For
    a frame of positive width the path is a closed polygon: it
    starts with [moveTo] on the left edge, continues with one [lineTo] per
    further step of 4 pixels up to the width, then goes to the bottom right
    corner, to the bottom left corner and closes.  The layer leaves
    [globalAlpha] at 1. *)
Theorem parallaxLayer_paints_closed_polygon :
  forall (width height elapsed : Q) (settings : CinematicSettings) (ctx : Ctx)
         (layer : nat),
  0 < width ->
  exists (fillState strokeState : CtxState) (y0 : Q) (pts : list PathOp),
    let polygon :=
      MoveTo 0 y0 :: pts ++ [LineTo width height; LineTo 0 height; ClosePath] in
    painted (parallaxLayer Math_sin Math_cos Math_PI width height elapsed settings ctx
               layer)
    = painted ctx ++ [FillPath fillState polygon; StrokePath strokeState polygon]
    /\ Forall isLineTo pts
    /\ length pts = Z.to_nat (Qfloor (width / 4))
    /\ globalAlpha (cur (parallaxLayer Math_sin Math_cos Math_PI width height elapsed
                           settings ctx layer)) = 1.
Proof.
  intros width height elapsed settings ctx layer Hw.
  unfold parallaxLayer. cbv zeta.
  rewrite (curveSteps_nonneg width (Qlt_le_weak _ _ Hw)).
  set (depth := ofNat layer / 4).
  match goal with
  | |- context [parallaxCurve _ _ _ (S ?n) 0 ?w ?b ?a ?s ?ws ?e ?l ?st ?c] =>
      destruct (parallaxCurve_from_left_edge n w b a s ws e l st c)
        as (y0 & pts & Hpath & Hlen & Hlines);
      destruct (parallaxCurve_keeps_state (S n) 0 w b a s ws e l st c) as [Hcur Hpainted];
      set (curve := parallaxCurve _ _ _ (S n) 0 w b a s ws e l st c) in *
  end.
  cbn [beginPath path app] in Hpath. cbn [beginPath cur painted] in Hcur, Hpainted.
  eexists _, _, y0, pts. cbv zeta.
  split; [| split; [exact Hlines | split; [exact Hlen | reflexivity]]].
  cbn [setGlobalAlpha setStrokeStyle setLineWidth setFillStyle withState stroke fill emit
       addPath painted path cur].
  rewrite Hpainted, Hpath. rewrite <- !app_assoc. cbn [app]. reflexivity.
Qed.

End ParallaxFacts.

Lemma parallaxLayer_paints_closed_polygon_witness :
  0 < 1280
  /\ exists (fillState strokeState : CtxState) (y0 : Q) (pts : list PathOp),
       painted (parallaxLayer rationalWave rationalWave (22 # 7) 1280 720 2 demoSettings
                  freshCtx 2)
       = painted freshCtx
         ++ [ FillPath fillState
                (MoveTo 0 y0 :: pts ++ [LineTo 1280 720; LineTo 0 720; ClosePath]);
              StrokePath strokeState
                (MoveTo 0 y0 :: pts ++ [LineTo 1280 720; LineTo 0 720; ClosePath]) ]
       /\ length pts = 320%nat.
Proof.
  assert (Hw : 0 < 1280) by reflexivity.
  split; [exact Hw |].
  destruct (parallaxLayer_paints_closed_polygon rationalWave rationalWave (22 # 7)
              1280 720 2 demoSettings freshCtx 2 Hw)
    as (fs & ss & y0 & pts & Hpainted & _ & Hlen & _).
  exists fs, ss, y0, pts. split; [exact Hpainted | exact Hlen].
Defined.

Lemma mod1_range (x : Q) : 0 <= x -> 0 <= mod1 x < 1.
Proof.
  intros Hx. unfold mod1.
  assert (Hle : Qle_bool 0 x = true) by (apply Qle_bool_iff; exact Hx).
  rewrite Hle.
  pose proof (Qfloor_le x) as Hlo. pose proof (Qlt_floor x) as Hhi.
  rewrite inject_Z_plus in Hhi. change (inject_Z 1) with 1 in Hhi.
  split; lra.
Qed.

Section SweepFacts.

Variable Math_sin : Q -> Q.
Hypothesis sine_range : forall x, -1 <= Math_sin x <= 1.

Lemma lightSweep_band (width height elapsed : Q) (mood : Mood)
    (settings : CinematicSettings) (ctx : Ctx) (index : nat) :
  0 <= elapsed -> 0 <= width ->
  exists centre,
    filledRects (lightSweep Math_sin width height elapsed mood settings ctx index)
    = filledRects ctx
      ++ [ (centre - width * (0.15 + bloom settings * 0.25), height * 0.1,
            width * (0.15 + bloom settings * 0.25) * 2, height * 0.8) ]
    /\ 0.12 * width <= centre <= 0.88 * width.
Proof.
  intros He Hw. unfold lightSweep. cbv zeta.
  set (progress := mod1 (elapsed * 0.2 + ofNat index * 0.6)).
  set (s := Math_sin (elapsed * 0.6 + ofNat index)).
  exists (width * 0.2 + progress * width * 0.6 + s * width * 0.08).
  split.
  - unfold filledRects, fillRect, emit. cbn [painted setComposite setFillStyle withState].
    rewrite flat_map_app. reflexivity.
  - assert (Hp : 0 <= progress < 1).
    { apply mod1_range.
      assert (0 <= ofNat index).
      { unfold ofNat. change 0 with (inject_Z 0). rewrite <- Zle_Qle. lia. }
      lra. }
    pose proof (sine_range (elapsed * 0.6 + ofNat index)) as Hs. fold s in Hs.
    assert (E : width * 0.2 + progress * width * 0.6 + s * width * 0.08
                == (0.2 + progress * 0.6 + s * 0.08) * width) by ring.
    rewrite E. split; apply Qmult_le_compat_r; lra.
Qed.

End SweepFacts.

(** X11: The light layer paints three bands.  Each spans the frame from 10% to
    90% of its height and is [width * (0.15 + 0.25 * bloom)] wide on either
    side of a centre that lies between 12% and 88% of the frame width
    (elapsed time and width not negative, sine within [-1, 1]); the layer
    ends with the composite operation back at [source-over]. *)
Theorem paintLightSweeps_three_bands :
  forall (Math_sin : Q -> Q) (ctx : Ctx) (width height elapsed : Q) (mood : Mood)
         (settings : CinematicSettings),
  (forall x, -1 <= Math_sin x <= 1) -> 0 <= elapsed -> 0 <= width ->
  let half := width * (0.15 + bloom settings * 0.25) in
  exists c0 c1 c2 : Q,
    filledRects (paintLightSweeps Math_sin ctx width height elapsed mood settings)
    = filledRects ctx
      ++ [ (c0 - half, height * 0.1, half * 2, height * 0.8);
           (c1 - half, height * 0.1, half * 2, height * 0.8);
           (c2 - half, height * 0.1, half * 2, height * 0.8) ]
    /\ Forall (fun c => 0.12 * width <= c <= 0.88 * width) [c0; c1; c2]
    /\ globalCompositeOperation
         (cur (paintLightSweeps Math_sin ctx width height elapsed mood settings))
       = "source-over".
Proof.
  intros Math_sin ctx width height elapsed mood settings Hsin He Hw half.
  unfold paintLightSweeps. cbv zeta. cbn [seq fold_left].
  destruct (lightSweep_band Math_sin Hsin width height elapsed mood settings ctx 0 He Hw)
    as (c0 & R0 & B0).
  set (k0 := lightSweep Math_sin width height elapsed mood settings ctx 0) in *.
  destruct (lightSweep_band Math_sin Hsin width height elapsed mood settings k0 1 He Hw)
    as (c1 & R1 & B1).
  set (k1 := lightSweep Math_sin width height elapsed mood settings k0 1) in *.
  destruct (lightSweep_band Math_sin Hsin width height elapsed mood settings k1 2 He Hw)
    as (c2 & R2 & B2).
  set (k2 := lightSweep Math_sin width height elapsed mood settings k1 2) in *.
  exists c0, c1, c2. split; [| split].
  - change (filledRects (setComposite "source-over" k2)) with (filledRects k2).
    rewrite R2, R1, R0, <- !app_assoc. reflexivity.
  - repeat constructor; tauto.
  - reflexivity.
Qed.

Lemma paintLightSweeps_three_bands_witness :
  0 <= 2 /\ 0 <= 1280
  /\ exists c0 c1 c2 : Q,
       Forall (fun c => 0.12 * 1280 <= c <= 0.88 * 1280) [c0; c1; c2]
       /\ filledRects (paintLightSweeps rationalWave freshCtx 1280 720 2 noirMood
                         demoSettings)
          = filledRects freshCtx
            ++ [ (c0 - 1280 * (0.15 + bloom demoSettings * 0.25), 720 * 0.1,
                  1280 * (0.15 + bloom demoSettings * 0.25) * 2, 720 * 0.8);
                 (c1 - 1280 * (0.15 + bloom demoSettings * 0.25), 720 * 0.1,
                  1280 * (0.15 + bloom demoSettings * 0.25) * 2, 720 * 0.8);
                 (c2 - 1280 * (0.15 + bloom demoSettings * 0.25), 720 * 0.1,
                  1280 * (0.15 + bloom demoSettings * 0.25) * 2, 720 * 0.8) ].
Proof.
  assert (He : 0 <= 2) by discriminate.
  assert (Hw : 0 <= 1280) by discriminate.
  split; [exact He |]. split; [exact Hw |].
  destruct (paintLightSweeps_three_bands rationalWave freshCtx 1280 720 2 noirMood
              demoSettings rationalWave_bounded He Hw)
    as (c0 & c1 & c2 & Hrects & Hcentres & _).
  exists c0, c1, c2. split; [exact Hcentres | exact Hrects].
Defined.

(** ** Grain texture *)

Lemma toUint8Clamped_byte (x : Q) :
  exists z : Z, toUint8Clamped x = inject_Z z /\ (0 <= z <= 255)%Z.
Proof.
  unfold toUint8Clamped. cbv zeta.
  set (y := Qmax 0 (Qmin 255 x)).
  assert (Hy : 0 <= y <= 255).
  { unfold y. split.
    - apply Q.le_max_l.
    - apply Q.max_lub; [discriminate |]. apply Q.le_min_l. }
  destruct Hy as [Hlo Hhi].
  assert (Hf0 : (0 <= Qfloor y)%Z).
  { change 0%Z with (Qfloor 0). apply Qfloor_resp_le. exact Hlo. }
  assert (Hf255 : (Qfloor y <= 255)%Z).
  { change 255%Z with (Qfloor 255). apply Qfloor_resp_le. exact Hhi. }
  assert (Hup : 0.5 <= y - inject_Z (Qfloor y) -> (Qfloor y + 1 <= 255)%Z).
  { intros Hd.
    assert (Hlt : inject_Z (Qfloor y) < inject_Z 255) by (change (inject_Z 255) with 255; lra).
    rewrite <- Zlt_Qlt in Hlt. lia. }
  destruct (Qlt_le_dec (y - inject_Z (Qfloor y)) 0.5) as [Hdown | Hhalf].
  - exists (Qfloor y). split; [reflexivity | lia].
  - destruct (Qlt_le_dec 0.5 (y - inject_Z (Qfloor y))) as [Hover | Htie].
    + exists (Qfloor y + 1)%Z. split; [reflexivity |]. specialize (Hup Hhalf). lia.
    + destruct (Z.even (Qfloor y)).
      * exists (Qfloor y). split; [reflexivity | lia].
      * exists (Qfloor y + 1)%Z. split; [reflexivity |]. specialize (Hup Hhalf). lia.
Qed.

Lemma toUint8Clamped_near (x : Q) :
  0 <= x <= 255 -> -0.5 <= toUint8Clamped x - x <= 0.5.
Proof.
  intros [Hlo Hhi]. unfold toUint8Clamped. cbv zeta.
  assert (Hy : Qmax 0 (Qmin 255 x) == x).
  { rewrite (Q.min_r 255 x) by exact Hhi. apply Q.max_r. exact Hlo. }
  set (y := Qmax 0 (Qmin 255 x)) in *.
  pose proof (Qfloor_le y) as Hfl. pose proof (Qlt_floor y) as Hfu.
  rewrite inject_Z_plus in Hfu. change (inject_Z 1) with 1 in Hfu.
  destruct (Qlt_le_dec (y - inject_Z (Qfloor y)) 0.5) as [Hdown | Hhalf].
  - lra.
  - destruct (Qlt_le_dec 0.5 (y - inject_Z (Qfloor y))) as [Hover | Htie].
    + rewrite inject_Z_plus. change (inject_Z 1) with 1. lra.
    + destruct (Z.even (Qfloor y)).
      * lra.
      * rewrite inject_Z_plus. change (inject_Z 1) with 1. lra.
Qed.

Lemma texel_index (j c : nat) : (c < 4)%nat -> ((4 * j + c) / 4 = j /\ (4 * j + c) mod 4 = c)%nat.
Proof.
  intros Hc.
  assert (H : (4 * j + c = j * 4 + c)%nat) by lia. rewrite H.
  split.
  - rewrite Nat.div_add_l by lia. rewrite (Nat.div_small c 4) by lia. lia.
  - rewrite Nat.add_comm, Nat.Div0.mod_add. apply Nat.mod_small. lia.
Qed.

Lemma generateGrain_data (Math_random : nat -> Q) (tile : GrainTile) (k j c : nat) :
  (j < Z.to_nat (tileWidth tile * tileHeight tile))%nat -> (c < 4)%nat ->
  data (fst (generateGrain Math_random true tile k)) (4 * j + c)
  = if Nat.eqb c 3 then 35 else toUint8Clamped (Math_random (k + j)%nat * 255).
Proof.
  intros Hj Hc. cbn [generateGrain fst data].
  assert (Hin : ((4 * j + c <? 4 * Z.to_nat (tileWidth tile * tileHeight tile))%nat = true))
    by (apply Nat.ltb_lt; lia).
  rewrite Hin. destruct (texel_index j c Hc) as [Hdiv Hmod]. rewrite Hdiv, Hmod.
  reflexivity.
Qed.

(** X12: [generateGrain] with a 2D context writes every texel of the tile: the
    three colour bytes of a texel hold the same tint, the byte nearest to
    [Math.random() * 255], and its alpha byte is 35; every byte is an
    integer from 0 to 255 whatever [Math.random] returns; one call of
    [Math.random] is made per texel and the size of the tile is kept.
    Without a context the tile is left as it was and no call is made. *)
Theorem generateGrain_monochrome_texels :
  forall (Math_random : nat -> Q) (tile : GrainTile) (k : nat),
  let texels := Z.to_nat (tileWidth tile * tileHeight tile) in
  let result := generateGrain Math_random true tile k in
  generateGrain Math_random false tile k = (tile, k)
  /\ snd result = (k + texels)%nat
  /\ tileWidth (fst result) = tileWidth tile
  /\ tileHeight (fst result) = tileHeight tile
  /\ (forall i, exists z : Z, data (fst result) i = inject_Z z /\ (0 <= z <= 255)%Z)
  /\ (forall j, (j < texels)%nat ->
        data (fst result) (4 * j) = toUint8Clamped (Math_random (k + j)%nat * 255)
        /\ data (fst result) (4 * j + 1) = data (fst result) (4 * j)
        /\ data (fst result) (4 * j + 2) = data (fst result) (4 * j)
        /\ data (fst result) (4 * j + 3) = 35
        /\ (0 <= Math_random (k + j)%nat < 1 ->
            -0.5 <= data (fst result) (4 * j) - Math_random (k + j)%nat * 255 <= 0.5)).
Proof.
  intros Math_random tile k texels result.
  split; [reflexivity |]. split; [reflexivity |].
  split; [reflexivity |]. split; [reflexivity |].
  split.
  - intros i. subst result. cbn [generateGrain fst data]. fold texels.
    destruct (i <? 4 * texels)%nat.
    + destruct (Nat.eqb (i mod 4) 3).
      * exists 35%Z. split; [reflexivity | lia].
      * apply toUint8Clamped_byte.
    + exists 0%Z. split; [reflexivity | lia].
  - intros j Hj. subst result.
    pose proof (generateGrain_data Math_random tile k j 0 Hj ltac:(lia)) as B0.
    pose proof (generateGrain_data Math_random tile k j 1 Hj ltac:(lia)) as B1.
    pose proof (generateGrain_data Math_random tile k j 2 Hj ltac:(lia)) as B2.
    pose proof (generateGrain_data Math_random tile k j 3 Hj ltac:(lia)) as B3.
    rewrite Nat.add_0_r in B0. cbn [Nat.eqb] in B0, B1, B2, B3.
    rewrite B0, B1, B2, B3.
    repeat split; try reflexivity; apply toUint8Clamped_near; nra.
Qed.

Lemma generateGrain_monochrome_texels_witness :
  let result := generateGrain (fun _ => 0.5) true blankTile 7 in
  (0 < Z.to_nat (tileWidth blankTile * tileHeight blankTile))%nat
  /\ 0 <= 0.5 < 1
  /\ snd result = (7 + Z.to_nat (240 * 135))%nat
  /\ data (fst result) 3 = 35
  /\ -0.5 <= data (fst result) 0 - 0.5 * 255 <= 0.5.
Proof.
  intros result.
  assert (Hj : (0 < Z.to_nat (tileWidth blankTile * tileHeight blankTile))%nat).
  { change 0%nat with (Z.to_nat 0). apply Z2Nat.inj_lt; [lia | discriminate | reflexivity]. }
  assert (Hr : 0 <= 0.5 < 1) by (split; [discriminate | reflexivity]).
  destruct (generateGrain_monochrome_texels (fun _ => 0.5) blankTile 7)
    as (_ & Hcalls & _ & _ & _ & Htexel).
  destruct (Htexel 0%nat Hj) as (_ & _ & _ & Halpha & Hnear).
  split; [exact Hj |]. split; [exact Hr |].
  split; [exact Hcalls |]. split; [exact Halpha | exact (Hnear Hr)].
Defined.

(** ** The frame clock *)

Section ClockFacts.

Variables Math_sin Math_cos : Q -> Q.
Variable Math_PI : Q.
Variable Math_random : nat -> Q.

Lemma mapParticles_calls (n : nat) :
  forall index k, snd (mapParticles Math_random n index k) = (k + 5 * n)%nat.
Proof.
  induction n as [| n IH]; intros index k; cbn [mapParticles].
  - cbn [snd]. lia.
  - specialize (IH (S index) (k + 5)%nat).
    destruct (mapParticles Math_random n (S index) (k + 5)) as [rest k'].
    cbn [snd] in *. lia.
Qed.

Lemma generateGrain_shape (grainCtx : bool) (tile : GrainTile) (k : nat) :
  tileWidth (fst (generateGrain Math_random grainCtx tile k)) = tileWidth tile
  /\ tileHeight (fst (generateGrain Math_random grainCtx tile k)) = tileHeight tile
  /\ snd (generateGrain Math_random grainCtx tile k)
     = (k + if grainCtx then Z.to_nat (tileWidth tile * tileHeight tile) else 0)%nat.
Proof.
  unfold generateGrain.
  destruct grainCtx; cbn [fst snd tileWidth tileHeight]; repeat split; lia.
Qed.

(** What one tick changes of the clock. *)
Lemma renderFrame_step (s : FrameClock) (timestamp : Q) :
  let s' := renderFrame Math_sin Math_cos Math_PI Math_random s timestamp in
  clockWidth s' = clockWidth s /\ clockHeight s' = clockHeight s
  /\ clockSettings s' = clockSettings s /\ clockMood s' = clockMood s
  /\ clockStartTime s' = clockStartTime s /\ clockGrainCtx s' = clockGrainCtx s
  /\ tileWidth (clockGrainCanvas s') = tileWidth (clockGrainCanvas s)
  /\ tileHeight (clockGrainCanvas s') = tileHeight (clockGrainCanvas s)
  /\ cur (clockCtx s') = cur (clockCtx s)
  /\ saved (clockCtx s') = saved (clockCtx s)
  /\ (exists ops, painted (clockCtx s') = painted (clockCtx s) ++ ops)
  /\ randomCalls s'
     = (randomCalls s
        + if clockGrainCtx s
          then Z.to_nat (tileWidth (clockGrainCanvas s) * tileHeight (clockGrainCanvas s))
          else 0)%nat.
Proof.
  cbv zeta. unfold renderFrame.
  pose proof (drawFrame_frame Math_sin Math_cos Math_PI (clockCtx s) (clockWidth s)
                (clockHeight s) ((timestamp - clockStartTime s) / 1000) (clockSettings s)
                (clockMood s) (clockParticles s)
                (fst (generateGrain Math_random (clockGrainCtx s) (clockGrainCanvas s)
                        (randomCalls s)))) as Hframe.
  cbv zeta in Hframe.
  pose proof (generateGrain_shape (clockGrainCtx s) (clockGrainCanvas s) (randomCalls s))
    as Hgrain.
  destruct (generateGrain Math_random (clockGrainCtx s) (clockGrainCanvas s)
              (randomCalls s)) as [tile k].
  cbn [fst snd] in *.
  destruct (drawFrame Math_sin Math_cos Math_PI (clockCtx s) (clockWidth s)
              (clockHeight s) ((timestamp - clockStartTime s) / 1000) (clockSettings s)
              (clockMood s) (clockParticles s) tile) as [ctx ps].
  cbn [fst] in Hframe.
  destruct Hframe as (Hcur & Hsaved & ops & Hpainted & _).
  destruct Hgrain as (Hw & Hh & Hk).
  cbn [clockWidth clockHeight clockSettings clockMood clockStartTime clockGrainCtx
       clockGrainCanvas clockCtx randomCalls].
  repeat split; try assumption.
  eexists. exact Hpainted.
Qed.

Lemma runFrames_steps (timestamps : list Q) :
  forall s,
  let s' := runFrames Math_sin Math_cos Math_PI Math_random s timestamps in
  clockWidth s' = clockWidth s /\ clockHeight s' = clockHeight s
  /\ clockSettings s' = clockSettings s /\ clockMood s' = clockMood s
  /\ clockStartTime s' = clockStartTime s /\ clockGrainCtx s' = clockGrainCtx s
  /\ tileWidth (clockGrainCanvas s') = tileWidth (clockGrainCanvas s)
  /\ tileHeight (clockGrainCanvas s') = tileHeight (clockGrainCanvas s)
  /\ cur (clockCtx s') = cur (clockCtx s)
  /\ saved (clockCtx s') = saved (clockCtx s)
  /\ (exists ops, painted (clockCtx s') = painted (clockCtx s) ++ ops)
  /\ randomCalls s'
     = (randomCalls s
        + length timestamps
          * if clockGrainCtx s
            then Z.to_nat (tileWidth (clockGrainCanvas s) * tileHeight (clockGrainCanvas s))
            else 0)%nat.
Proof.
  unfold runFrames.
  induction timestamps as [| t rest IH]; intros s; cbn [fold_left length].
  - repeat split; try reflexivity.
    + exists []. symmetry. apply app_nil_r.
    + lia.
  - destruct (renderFrame_step s t)
      as (Hw & Hh & Hs & Hm & Ht & Hg & Htw & Hth & Hcur & Hsaved & [o1 Hp] & Hk).
    destruct (IH (renderFrame Math_sin Math_cos Math_PI Math_random s t))
      as (Hw' & Hh' & Hs' & Hm' & Ht' & Hg' & Htw' & Hth' & Hcur' & Hsaved' & [o2 Hp']
          & Hk').
    repeat split; try congruence.
    + exists (o1 ++ o2). rewrite Hp', Hp, app_assoc. reflexivity.
    + rewrite Hk', Hk, Hg, Htw, Hth. lia.
Qed.

End ClockFacts.

(** X13: The particle count is the rounded [120 * (parallax + 0.5)]: it grows
    with the parallax setting and lies between 60 and 180 for a setting in
    the range 0..1 of the slider; the effect builds exactly as many
    particles, with five calls of [Math.random] each; a setting of -0.5 or
    less gives no particle. *)
Theorem particleCount_between_60_and_180 :
  forall (Math_random : nat -> Q) (settings settings' : CinematicSettings) (k : nat),
  (0 <= parallax settings <= 1 ->
   60 <= particleCount settings <= 180
   /\ ofNat (length (fst (makeParticles Math_random settings k)))
      == particleCount settings)
  /\ (parallax settings <= parallax settings' ->
      particleCount settings <= particleCount settings')
  /\ snd (makeParticles Math_random settings k)
     = (k + 5 * length (fst (makeParticles Math_random settings k)))%nat
  /\ (parallax settings <= -0.5 -> fst (makeParticles Math_random settings k) = []).
Proof.
  intros Math_random settings settings' k.
  assert (Hlen : length (fst (makeParticles Math_random settings k))
                 = arrayLength (particleCount settings)).
  { unfold makeParticles. apply mapParticles_length. }
  assert (Hmono : forall x y : Q, x <= y -> Math_round x <= Math_round y).
  { intros x y Hxy. unfold Math_round. rewrite <- Zle_Qle. apply Qfloor_resp_le. lra. }
  split; [| split; [| split]].
  - intros [Hlo Hhi].
    assert (Hrange : 60 <= particleCount settings <= 180).
    { unfold particleCount. split.
      - change 60 with (Math_round 60). apply Hmono. lra.
      - change 180 with (Math_round 180). apply Hmono. lra. }
    split; [exact Hrange |].
    rewrite Hlen. unfold arrayLength, ofNat, particleCount, Math_round.
    rewrite Qfloor_Z. rewrite Z2Nat.id; [reflexivity |].
    change 0%Z with (Qfloor 0). apply Qfloor_resp_le. lra.
  - intros Hle. unfold particleCount. apply Hmono. lra.
  - unfold makeParticles. rewrite mapParticles_calls, mapParticles_length. reflexivity.
  - intros Hneg.
    assert (Hzero : arrayLength (particleCount settings) = 0%nat).
    { unfold arrayLength, particleCount, Math_round. rewrite Qfloor_Z.
      assert (H : (Qfloor (120 * (parallax settings + 0.5) + 0.5) <= 0)%Z).
      { change 0%Z with (Qfloor 0.5). apply Qfloor_resp_le. lra. }
      lia. }
    rewrite Hzero in Hlen.
    destruct (fst (makeParticles Math_random settings k)); [reflexivity | discriminate].
Qed.

Lemma particleCount_between_60_and_180_witness :
  0 <= parallax demoSettings <= 1
  /\ parallax demoSettings <= parallax demoSettings
  /\ 60 <= particleCount demoSettings <= 180
  /\ particleCount demoSettings <= particleCount demoSettings
  /\ ofNat (length (fst (makeParticles (fun _ => 0.5) demoSettings 0)))
     == particleCount demoSettings.
Proof.
  assert (Hrange : 0 <= parallax demoSettings <= 1) by (split; discriminate).
  assert (Hle : parallax demoSettings <= parallax demoSettings) by discriminate.
  destruct (particleCount_between_60_and_180 (fun _ => 0.5) demoSettings demoSettings 0)
    as (Hcount & Hmono & _).
  destruct (Hcount Hrange) as [Hbounds Hlength].
  split; [exact Hrange |]. split; [exact Hle |].
  split; [exact Hbounds |]. split; [exact (Hmono Hle) | exact Hlength].
Defined.

(** X14: From the start of the effect on and across any number of frames, the
    clock keeps the settings, mood, size and start time it was started
    with, and every frame hands the canvas back in the default drawing
    state the resize gave it, with an empty [save] stack; the number of
    calls of [Math.random] made is five per particle plus, when the grain
    canvas has a 2D context, one per texel of the 240 x 135 tile for the
    start and again for every frame. *)
Theorem clock_random_budget :
  forall (Math_sin Math_cos : Q -> Q) (Math_PI : Q) (Math_random : nat -> Q)
         (getResolution : string -> Q -> Q * Q) (moods : list Mood) (defaultMood : Mood)
         (canvasRef : option CanvasElement) (defaultSettings settings : CinematicSettings)
         (now : Q) (k : nat) (s : FrameClock) (timestamps : list Q),
  startClock Math_random getResolution moods defaultMood canvasRef defaultSettings
    settings now k = Some s ->
  let s' := runFrames Math_sin Math_cos Math_PI Math_random s timestamps in
  clockSettings s' = settings
  /\ clockMood s' = getMood moods defaultMood (moodId settings)
  /\ (clockWidth s', clockHeight s')
     = getResolution (resolutionPresetId settings) (aspectRatio settings)
  /\ clockStartTime s' = now
  /\ cur (clockCtx s') = cur freshCtx
  /\ saved (clockCtx s') = []
  /\ randomCalls s'
     = (k + 5 * length (clockParticles s)
        + if clockGrainCtx s then (1 + length timestamps) * Z.to_nat (240 * 135) else 0)%nat.
Proof.
  intros Math_sin Math_cos Math_PI Math_random getResolution moods defaultMood canvasRef
         defaultSettings settings now k s timestamps Hstart s'.
  destruct (runFrames_steps Math_sin Math_cos Math_PI Math_random timestamps s)
    as (Hw & Hh & Hs & Hm & Ht & Hg & _ & _ & Hcur & Hsaved & _ & Hk).
  fold s' in Hw, Hh, Hs, Hm, Ht, Hg, Hcur, Hsaved, Hk.
  rewrite Hw, Hh, Hs, Hm, Ht, Hcur, Hsaved, Hk. clear Hw Hh Hs Hm Ht Hg Hcur Hsaved Hk s'.
  unfold startClock in Hstart.
  destruct canvasRef as [canvas |]; [| discriminate].
  destruct (context2d canvas) as [ctx |]; [| discriminate].
  unfold mergeSettings in Hstart.
  destruct (getResolution (resolutionPresetId settings) (aspectRatio settings))
    as [width height].
  pose proof (mapParticles_calls Math_random (arrayLength (particleCount settings)) 0 k)
    as Hcalls.
  pose proof (mapParticles_length Math_random (arrayLength (particleCount settings)) 0 k)
    as Hlen.
  unfold makeParticles in Hstart.
  destruct (mapParticles Math_random (arrayLength (particleCount settings)) 0 k)
    as [particles k1].
  cbn [fst snd] in Hcalls, Hlen.
  destruct (generateGrain_shape Math_random (grainContext2d canvas) blankTile k1)
    as (Hwidth & Hheight & Hgrain).
  change (tileWidth blankTile) with 240%Z in Hwidth, Hgrain.
  change (tileHeight blankTile) with 135%Z in Hheight, Hgrain.
  destruct (generateGrain Math_random (grainContext2d canvas) blankTile k1)
    as [tile k2].
  cbn [fst snd] in Hwidth, Hheight, Hgrain. injection Hstart as <-.
  cbn [clockSettings clockMood clockWidth clockHeight clockStartTime clockCtx
       clockParticles clockGrainCtx clockGrainCanvas randomCalls].
  rewrite Hwidth, Hheight, Hgrain, Hcalls, Hlen.
  generalize (Z.to_nat (240 * 135)). intros texels.
  (do 6 (split; [reflexivity |])).
  destruct (grainContext2d canvas); lia.
Qed.

Lemma clock_random_budget_witness :
  exists s,
    startClock (fun _ => 0.5) sampleResolution [noirMood] noirMood (Some sampleCanvas)
      demoSettings demoSettings 1000 0 = Some s
    /\ length (clockParticles s) = 120%nat
    /\ randomCalls (runFrames rationalWave rationalWave (22 # 7) (fun _ => 0.5) s
                      [1016; 1033])
       = (0 + 5 * length (clockParticles s) + (1 + 2) * Z.to_nat (240 * 135))%nat.
Proof.
  eexists. split; [reflexivity |]. split; [reflexivity |].
  refine (proj2 (proj2 (proj2 (proj2 (proj2 (proj2
            (clock_random_budget rationalWave rationalWave (22 # 7) (fun _ => 0.5)
               sampleResolution [noirMood] noirMood (Some sampleCanvas) demoSettings
               demoSettings 1000 0 _ [1016; 1033] eq_refl))))))).
Defined.

(** ** More on the capture session *)

(** X15: Without a canvas, or in a browser without [MediaRecorder],
    [handleGenerate] only sets the error message (the one about the canvas
    when both are missing) and returns: no browser call is made, and
    [isGenerating], [progress], [videoUrl] and the two refs are left as
    they were. *)
Theorem handleGenerate_refuses_without_canvas_or_recorder :
  forall (settings : CinematicSettings) (sc : Scenario) (c : Component) (b : Browser),
  canvasPresent sc && mediaRecorderDefined sc = false ->
  let result := handleGenerate settings sc c b in
  let message :=
    if canvasPresent sc
    then "MediaRecorder n’est pas disponible dans ce navigateur. Essayez Chrome ou Edge version récente."
    else "Canvas introuvable pour l’enregistrement." in
  fst result = Ok tt
  /\ trace (snd result) = [SetError (Some message)]
  /\ browser (snd result) = b
  /\ error (comp (snd result)) = Some message
  /\ isGenerating (comp (snd result)) = isGenerating c
  /\ progress (comp (snd result)) = progress c
  /\ videoUrl (comp (snd result)) = videoUrl c
  /\ mediaRecorderRef (comp (snd result)) = mediaRecorderRef c
  /\ progressIntervalRef (comp (snd result)) = progressIntervalRef c.
Proof.
  intros settings [canvas defined capture ctor start ch tk lt snk] c b Hmissing.
  cbn [canvasPresent mediaRecorderDefined] in *. cbv zeta.
  destruct canvas, defined; try discriminate; repeat split; reflexivity.
Qed.

Lemma handleGenerate_refuses_without_canvas_or_recorder_witness :
  let sc := {| canvasPresent := false; mediaRecorderDefined := false;
               captureStreamWorks := true; constructorThrows := None;
               startThrows := None; chunks := []; ticks := []; lateTicks := [];
               sink := StopsOnRequest |} in
  canvasPresent sc && mediaRecorderDefined sc = false
  /\ trace (snd (handleGenerate demoSettings sc componentWithArtifact browserWithArtifact))
     = [SetError (Some "Canvas introuvable pour l’enregistrement.")]
  /\ videoUrl (comp (snd (handleGenerate demoSettings sc componentWithArtifact
                            browserWithArtifact))) = Some 1%nat.
Proof.
  intros sc.
  assert (Hmissing : canvasPresent sc && mediaRecorderDefined sc = false) by reflexivity.
  destruct (handleGenerate_refuses_without_canvas_or_recorder demoSettings sc
              componentWithArtifact browserWithArtifact Hmissing)
    as (_ & Htrace & _ & _ & _ & _ & Hurl & _).
  split; [exact Hmissing |]. split; [exact Htrace | exact Hurl].
Defined.


(** X16: [handleGenerate] lets no exception out: whatever is thrown between
    [try] and [finally] ends in the error message.  Past its two checks it
    returns with [isGenerating] false, with no error exactly when the
    session completed, and with [videoUrl] holding the new URL then and
    nothing otherwise.  It fails to return only when the sink fires neither
    [stop] nor [error]: nothing bounds the wait for [stopPromise]. *)
Theorem handleGenerate_catches_every_failure :
  forall (settings : CinematicSettings) (sc : Scenario) (c : Component) (b : Browser),
  let result := handleGenerate settings sc c b in
  (forall e, fst result <> Throw e)
  /\ (fst result = Pending
      <-> passesChecks sc = true /\ constructorThrows sc = None
          /\ startThrows sc = None /\ sink sc = Silent)
  /\ (canvasPresent sc = true -> mediaRecorderDefined sc = true ->
      fst result = Ok tt ->
      isGenerating (comp (snd result)) = false
      /\ (error (comp (snd result)) = None <-> completes sc = true)
      /\ videoUrl (comp (snd result)) = (if completes sc then Some (nextUrl b) else None)
      /\ (completes sc = true -> progress (comp (snd result)) = 100)).
Proof.
  intros settings sc c b. cbv zeta. unfold passesChecks, completes.
  run_session sc c b.
  all: split; [intros e; discriminate |].
  all: split; [split; [try discriminate; intros _; repeat split; reflexivity
                      | intros (H1 & H2 & H3 & H4); try discriminate; reflexivity] |].
  all: intros Hcanvas Hdefined Hresult; try discriminate.
  all: split; [reflexivity |].
  all: split; [split; intros H; try reflexivity; discriminate |].
  all: split; [reflexivity |].
  all: intros H; try discriminate; reflexivity.
Qed.

Lemma handleGenerate_catches_every_failure_witness :
  let result := handleGenerate demoSettings unsupportedCodecScenario initialComponent
                  initialBrowser in
  canvasPresent unsupportedCodecScenario = true
  /\ mediaRecorderDefined unsupportedCodecScenario = true
  /\ fst result = Ok tt
  /\ isGenerating (comp (snd result)) = false
  /\ videoUrl (comp (snd result)) = None.
Proof.
  intros result.
  destruct (handleGenerate_catches_every_failure demoSettings unsupportedCodecScenario
              initialComponent initialBrowser) as (_ & _ & Hreturn).
  destruct (Hreturn eq_refl eq_refl eq_refl) as (Hidle & _ & Hurl & _).
  split; [reflexivity |]. split; [reflexivity |]. split; [reflexivity |].
  split; [exact Hidle | exact Hurl].
Defined.

(** X17: The calls of a session that completes, in order: the three resets, the
    release of the previous artifact if there is one, capture, construction
    and start of the recorder, the 120 ms interval and the deadline timer,
    and one progress report per interval reading.  Where the recorder is
    still recording at the deadline, [recorder.stop()] is called then and
    the object URL of the kept chunks is created when the recorder
    answers, after the reports of the interval in between; where the
    recorder stopped by itself, the object URL is created at that moment,
    the interval goes on reporting until the deadline and
    [recorder.stop()] is not called.  Then come [setVideoUrl],
    [setProgress(100)] and the releases of [finally]. *)
Theorem completed_session_call_order :
  forall (settings : CinematicSettings) (sc : Scenario) (c : Component) (b : Browser),
  completes sc = true ->
  let report := fun elapsed => SetProgress (tickProgress (duration settings * 1000) elapsed) in
  let created := CreateObjectURL (nextUrl b) (keptBlobs (chunks sc)) in
  trace (snd (handleGenerate settings sc c b))
  = [SetError None; SetIsGenerating true; SetProgress 0]
    ++ match videoUrl c with
       | Some u => [RevokeObjectURL u; SetVideoUrl None]
       | None => []
       end
    ++ [CaptureStream (frameRate settings) (Some (nextStream b));
        NewMediaRecorder (nextStream b) (recorderOptions settings);
        RecorderStart;
        SetInterval (nextTimer b) 120;
        SetTimeout (S (nextTimer b)) (duration settings * 1000)]
    ++ map report (ticks sc)
    ++ match sink sc with
       | StopsOnRequest => RecorderStop :: map report (lateTicks sc) ++ [created]
       | _ => created :: map report (lateTicks sc)
       end
    ++ [SetVideoUrl (Some (nextUrl b)); SetProgress 100]
    ++ (if Nat.eqb (nextTimer b) 0 then [] else [ClearInterval (nextTimer b)])
    ++ [TrackStop (nextStream b); SetIsGenerating false].
Proof.
  intros settings sc c b. cbv zeta. unfold completes.
  run_session sc c b; intros Hcompletes; try discriminate;
    cbn [Nat.eqb app]; rewrite <- ?app_assoc; reflexivity.
Qed.

(** A recorder that stops by itself halfway: the URL is created before the
    last two reports. *)
Lemma completed_session_call_order_witness :
  completes earlyStopScenario = true
  /\ trace (snd (handleGenerate demoSettings earlyStopScenario initialComponent
                   initialBrowser))
     = [SetError None; SetIsGenerating true; SetProgress 0;
        CaptureStream 30 (Some 1%nat);
        NewMediaRecorder 1 (recorderOptions demoSettings);
        RecorderStart; SetInterval 1 120; SetTimeout 2 (6 * 1000);
        SetProgress (tickProgress (6 * 1000) 120);
        SetProgress (tickProgress (6 * 1000) 3000);
        CreateObjectURL 1 [4096%nat];
        SetProgress (tickProgress (6 * 1000) 3120);
        SetProgress (tickProgress (6 * 1000) 5990);
        SetVideoUrl (Some 1%nat); SetProgress 100;
        ClearInterval 1; TrackStop 1; SetIsGenerating false].
Proof.
  split; [reflexivity |].
  exact (completed_session_call_order demoSettings earlyStopScenario initialComponent
           initialBrowser eq_refl).
Defined.

(** *** The artifact *)

Lemma keptBlobs_positive (chunks : list (option nat)) :
  Forall (fun size => (0 < size)%nat) (keptBlobs chunks).
Proof.
  induction chunks as [| [size |] rest IH]; cbn [keptBlobs flat_map].
  - constructor.
  - destruct (0 <? size)%nat eqn:Hsize; cbn [app].
    + constructor; [apply Nat.ltb_lt; exact Hsize | exact IH].
    + exact IH.
  - exact IH.
Qed.

Lemma keptBlobs_bytes (chunks : list (option nat)) :
  list_sum (keptBlobs chunks) = list_sum (payloadSizes chunks).
Proof.
  induction chunks as [| [size |] rest IH]; [reflexivity | |].
  - change (keptBlobs (Some size :: rest))
      with ((if (0 <? size)%nat then [size] else []) ++ keptBlobs rest).
    change (list_sum (payloadSizes (Some size :: rest)))
      with (size + list_sum (payloadSizes rest))%nat.
    rewrite list_sum_app, IH.
    destruct (0 <? size)%nat eqn:Hsize; cbn [list_sum fold_right]; [lia |].
    apply Nat.ltb_ge in Hsize. lia.
  - change (keptBlobs (None :: rest)) with (keptBlobs rest).
    change (list_sum (payloadSizes (None :: rest)))
      with (0 + list_sum (payloadSizes rest))%nat.
    rewrite IH. reflexivity.
Qed.

Lemma keptBlobs_in_order (chunks : list (option nat)) :
  sublist (keptBlobs chunks) (payloadSizes chunks).
Proof.
  induction chunks as [| [size |] rest IH]; cbn [keptBlobs flat_map payloadSizes map].
  - constructor.
  - fold (keptBlobs rest). fold (payloadSizes rest).
    destruct (0 <? size)%nat; cbn [app].
    + apply sublist_skip. exact IH.
    + apply sublist_cons. exact IH.
  - fold (keptBlobs rest). fold (payloadSizes rest). cbn [app].
    apply sublist_cons. exact IH.
Qed.

(** X18: The artifact of a completed session is the blob of the non-empty
    chunks in the order of their arrival: it is registered under the URL
    that [videoUrl] holds, no empty chunk is in it and no byte of the
    payloads is lost. *)
Theorem artifact_holds_the_non_empty_chunks :
  forall (settings : CinematicSettings) (sc : Scenario) (c : Component) (b : Browser),
  completes sc = true ->
  let result := handleGenerate settings sc c b in
  videoUrl (comp (snd result)) = Some (nextUrl b)
  /\ objectUrls (browser (snd result)) !! nextUrl b = Some (keptBlobs (chunks sc))
  /\ Forall (fun size => (0 < size)%nat) (keptBlobs (chunks sc))
  /\ sublist (keptBlobs (chunks sc)) (payloadSizes (chunks sc))
  /\ list_sum (keptBlobs (chunks sc)) = list_sum (payloadSizes (chunks sc)).
Proof.
  intros settings sc c b Hcompletes result.
  split; [| split; [| split; [apply keptBlobs_positive
                             | split; [apply keptBlobs_in_order | apply keptBlobs_bytes]]]].
  - subst result. revert Hcompletes. unfold completes.
    run_session sc c b; intros Hcompletes; try discriminate; reflexivity.
  - subst result. revert Hcompletes. unfold completes.
    run_session sc c b; intros Hcompletes; try discriminate; apply lookup_insert_eq.
Qed.

Lemma artifact_holds_the_non_empty_chunks_witness :
  completes okScenario = true
  /\ objectUrls (browser (snd (handleGenerate demoSettings okScenario initialComponent
                                 initialBrowser))) !! 1%nat
     = Some (keptBlobs [Some 4096%nat; None; Some 0%nat])
  /\ list_sum (keptBlobs [Some 4096%nat; None; Some 0%nat])
     = list_sum (payloadSizes [Some 4096%nat; None; Some 0%nat]).
Proof.
  destruct (artifact_holds_the_non_empty_chunks demoSettings okScenario initialComponent
              initialBrowser eq_refl) as (_ & Hblob & _ & _ & Hbytes).
  split; [reflexivity |]. split; [exact Hblob | exact Hbytes].
Defined.

(** *** Failures *)

(** Refutes the membership of a call in a trace that is listed but for the
    progress reports of the interval readings. *)
Ltac not_in_trace :=
  rewrite ?in_app_iff, ?in_map_iff; cbn [In];
  let Hin := fresh "Hin" in
  intros Hin;
  repeat match goal with
         | H : _ \/ _ |- _ => destruct H as [H | H]
         | H : In _ (_ ++ _) |- _ => apply in_app_or in H
         | H : In _ (map _ _) |- _ =>
             let x := fresh "x" in
             apply in_map_iff in H; destruct H as (x & H & _)
         | H : In _ (_ :: _) |- _ => cbn [In] in H
         | H : exists _, _ /\ _ |- _ =>
             let x := fresh "x" in destruct H as (x & H & _)
         | H : False |- _ => destruct H
         | H : In _ [] |- _ => destruct H
         | H : _ = _ |- _ => discriminate H
         end.

(** Establishes the membership of a call in a listed trace. *)
Ltac in_trace :=
  solve [repeat first [left; reflexivity | right | apply in_or_app; right]].

(** Names the outcome of the session, so that it is run once. *)
Ltac name_session settings sc c b r :=
  let Hr := fresh "Hr" in
  set (r := handleGenerate settings sc c b);
  assert (Hr : r = handleGenerate settings sc c b) by reflexivity;
  clearbody r; revert r Hr.

(** X19: Past the two checks, each failure ends in its own message: a capture
    that yields no stream in the fixed message of the routine, before any
    recorder is constructed; a throwing constructor or [start()] in the
    message of the thrown error, or in the generic message if the value
    thrown is not an [Error]; an [error] event of the recorder in the
    message of its [error] property, or in the fixed message when the
    event has none, and then [recorder.stop()] is not called. *)
Theorem failure_message_shown :
  forall (settings : CinematicSettings) (sc : Scenario) (c : Component) (b : Browser),
  canvasPresent sc = true -> mediaRecorderDefined sc = true ->
  let result := handleGenerate settings sc c b in
  (captureStreamWorks sc = false ->
   error (comp (snd result))
   = Some "Impossible de capturer le flux vidéo depuis le canvas."
   /\ recorderCalls (trace (snd result)) = [])
  /\ (captureStreamWorks sc = true ->
      (forall e, constructorThrows sc = Some e ->
         error (comp (snd result)) = Some (shownMessage e)
         /\ ~ In RecorderStart (trace (snd result)))
      /\ (constructorThrows sc = None ->
          (forall e, startThrows sc = Some e ->
             error (comp (snd result)) = Some (shownMessage e)
             /\ progressIntervalRef (comp (snd result)) = progressIntervalRef c)
          /\ (startThrows sc = None ->
              forall cause follows, sink sc = Fails cause follows ->
              error (comp (snd result))
              = Some (match cause with
                      | Some message => message
                      | None => "Erreur inconnue pendant l’enregistrement."
                      end)
              /\ ~ In RecorderStop (trace (snd result))))).
Proof.
  intros settings sc c b. cbv zeta.
  run_session sc c b; intros Hcanvas Hdefined; try discriminate.
  all: split; [intros Hcapture; first [discriminate | split; reflexivity] |].
  all: intros Hcapture; try discriminate.
  all: split;
       [intros e0 Hctor;
        first [discriminate
              | injection Hctor as <-; split; [reflexivity | not_in_trace]] |].
  all: intros Hctor; try discriminate.
  all: split;
       [intros e0 Hstart;
        first [discriminate | injection Hstart as <-; split; reflexivity] |].
  all: intros Hstart cause0 follows0 Hsink; try discriminate.
  all: injection Hsink as <- <-.
  all: split; [| not_in_trace].
  all: lazymatch goal with
       | |- context [match ?x with Some _ => _ | None => _ end] => destruct x
       end; reflexivity.
Qed.

Lemma failure_message_shown_witness :
  let result := handleGenerate demoSettings recorderErrorScenario initialComponent
                  initialBrowser in
  canvasPresent recorderErrorScenario = true
  /\ mediaRecorderDefined recorderErrorScenario = true
  /\ captureStreamWorks recorderErrorScenario = true
  /\ constructorThrows recorderErrorScenario = None
  /\ startThrows recorderErrorScenario = None
  /\ sink recorderErrorScenario = Fails None true
  /\ error (comp (snd result)) = Some "Erreur inconnue pendant l’enregistrement."
  /\ ~ In RecorderStop (trace (snd result)).
Proof.
  intros result.
  destruct (failure_message_shown demoSettings recorderErrorScenario initialComponent
              initialBrowser eq_refl eq_refl) as (_ & Hcaptured).
  destruct (Hcaptured eq_refl) as (_ & Hconstructed).
  destruct (Hconstructed eq_refl) as (_ & Hstarted).
  destruct (Hstarted eq_refl None true eq_refl) as (Hmessage & Hnostop).
  do 6 (split; [reflexivity |]).
  split; [exact Hmessage | exact Hnostop].
Defined.

(** X20: When the recorder fires [error] and then [stop], [onstop] still
    creates an object URL for the chunks, but [stopPromise] is already
    rejected: the routine returns with the error shown and [videoUrl]
    empty, the URL stays registered, and the cleanup of the effect on
    [videoUrl] at unmount does not revoke it either. *)
Theorem recorder_error_orphans_blob_url :
  forall (settings : CinematicSettings) (sc : Scenario) (c : Component) (b : Browser)
         (cause : option string),
  passesChecks sc = true -> constructorThrows sc = None -> startThrows sc = None ->
  sink sc = Fails cause true ->
  let result := handleGenerate settings sc c b in
  fst result = Ok tt
  /\ videoUrl (comp (snd result)) = None
  /\ In (CreateObjectURL (nextUrl b) (keptBlobs (chunks sc))) (trace (snd result))
  /\ objectUrls (browser (snd result)) !! nextUrl b = Some (keptBlobs (chunks sc))
  /\ fst (unmountAfter result) = Ok tt
  /\ objectUrls (browser (snd (unmountAfter result))) !! nextUrl b
     = Some (keptBlobs (chunks sc)).
Proof.
  intros settings sc c b cause0 Hchecks Hctor Hstart Hsink result.
  assert (Hcore : fst result = Ok tt
                  /\ videoUrl (comp (snd result)) = None
                  /\ In (CreateObjectURL (nextUrl b) (keptBlobs (chunks sc)))
                        (trace (snd result))
                  /\ objectUrls (browser (snd result)) !! nextUrl b
                     = Some (keptBlobs (chunks sc))).
  { subst result. revert Hchecks Hctor Hstart Hsink. unfold passesChecks.
    run_session sc c b; intros Hchecks Hctor Hstart Hsink; try discriminate.
    all: split; [reflexivity |].
    all: split; [reflexivity |].
    all: split; [in_trace | apply lookup_insert_eq]. }
  destruct Hcore as (Hok & Hurl & Hin & Hlookup).
  split; [exact Hok |]. split; [exact Hurl |]. split; [exact Hin |].
  split; [exact Hlookup |].
  unfold unmountAfter. rewrite Hurl. cbn [videoUrlCleanup]. unfold ret. cbn [fst snd].
  split; [reflexivity | exact Hlookup].
Qed.

Lemma recorder_error_orphans_blob_url_witness :
  let result := handleGenerate demoSettings recorderErrorScenario initialComponent
                  initialBrowser in
  passesChecks recorderErrorScenario = true
  /\ sink recorderErrorScenario = Fails None true
  /\ videoUrl (comp (snd result)) = None
  /\ objectUrls (browser (snd (unmountAfter result))) !! nextUrl initialBrowser
     = Some [2048%nat].
Proof.
  intros result.
  destruct (recorder_error_orphans_blob_url demoSettings recorderErrorScenario
              initialComponent initialBrowser None eq_refl eq_refl eq_refl eq_refl)
    as (_ & Hurl & _ & _ & _ & Horphan).
  split; [reflexivity |]. split; [reflexivity |].
  split; [exact Hurl | exact Horphan].
Defined.

(** X21: Unless the recorder fires [stop] after [error], a call of
    [handleGenerate] that returns, followed by the unmount of the
    component, leaves no object URL registered that was not registered
    before the call, and the URL that [videoUrl] held before the call is
    not registered any more. *)
Theorem unmount_revokes_the_artifact :
  forall (settings : CinematicSettings) (sc : Scenario) (c : Component) (b : Browser),
  fst (handleGenerate settings sc c b) = Ok tt ->
  (forall cause, sink sc <> Fails cause true) ->
  let after := unmountAfter (handleGenerate settings sc c b) in
  fst after = Ok tt
  /\ (dom (objectUrls (browser (snd after))) ⊆ dom (objectUrls b))
  /\ forall u, videoUrl c = Some u -> objectUrls (browser (snd after)) !! u = None.
Proof.
  intros settings sc c b. cbv zeta. unfold unmountAfter.
  name_session settings sc c b r.
  run_session sc c b; intros r -> Hreturns Hsink; try discriminate.
  all: try (exfalso; eapply Hsink; reflexivity).
  all: clear Hreturns Hsink; unfold videoUrlCleanup, revokeObjectURL; run.
  all: split; [reflexivity |].
  all: split; [rewrite ?dom_delete_L, ?dom_insert_L, ?dom_delete_L; gset_tauto |].
  all: intros u0 Hu; try discriminate; try injection Hu as <-.
  all: rewrite ?lookup_delete_eq; try reflexivity.
  all: match goal with
       | |- delete ?v _ !! ?u = None =>
           destruct (decide (u = v)) as [-> | Hother];
           [apply lookup_delete_eq
           | rewrite lookup_delete_ne, lookup_insert_ne by congruence;
             apply lookup_delete_eq]
       end.
Qed.

Lemma unmount_revokes_the_artifact_witness :
  let after := unmountAfter (handleGenerate demoSettings okScenario componentWithArtifact
                               browserWithArtifact) in
  fst (handleGenerate demoSettings okScenario componentWithArtifact browserWithArtifact)
  = Ok tt
  /\ (forall cause, sink okScenario <> Fails cause true)
  /\ videoUrl componentWithArtifact = Some 1%nat
  /\ (dom (objectUrls (browser (snd after))) ⊆ dom (objectUrls browserWithArtifact))
  /\ objectUrls (browser (snd after)) !! 1%nat = None.
Proof.
  intros after.
  assert (Hreturns : fst (handleGenerate demoSettings okScenario componentWithArtifact
                            browserWithArtifact) = Ok tt) by reflexivity.
  assert (Hsink : forall cause, sink okScenario <> Fails cause true)
    by (intros cause; discriminate).
  destruct (unmount_revokes_the_artifact demoSettings okScenario componentWithArtifact
              browserWithArtifact Hreturns Hsink) as (_ & Hdom & Hgone).
  split; [exact Hreturns |]. split; [exact Hsink |]. split; [reflexivity |].
  split; [exact Hdom | exact (Hgone 1%nat eq_refl)].
Defined.

(** *** A sink that never answers *)

(** X22: When the sink fires neither [stop] nor [error], [handleGenerate] asks
    it to stop at the deadline and then waits for [stopPromise] without
    bound: [finally] is not reached, so [isGenerating] stays true, the
    interval keeps reporting progress, the tracks of the captured stream
    stay live, and [videoUrl] stays empty. *)
Theorem silent_sink_never_finishes :
  forall (settings : CinematicSettings) (sc : Scenario) (c : Component) (b : Browser),
  passesChecks sc = true -> constructorThrows sc = None -> startThrows sc = None ->
  sink sc = Silent ->
  let result := handleGenerate settings sc c b in
  fst result = Pending
  /\ isGenerating (comp (snd result)) = true
  /\ videoUrl (comp (snd result)) = None
  /\ error (comp (snd result)) = None
  /\ In RecorderStop (trace (snd result))
  /\ (nextStream b ∈ liveTracks (browser (snd result)))
  /\ (nextTimer b ∈ activeIntervals (browser (snd result)))
  /\ progressReports (trace (snd result))
     = 0 :: map (tickProgress (duration settings * 1000)) (ticks sc ++ lateTicks sc).
Proof.
  intros settings sc c b. cbv zeta. unfold passesChecks.
  run_session sc c b; intros Hchecks Hctor Hstart Hsink; try discriminate.
  all: clear Hchecks Hctor Hstart Hsink.
  all: split; [reflexivity |].
  all: split; [reflexivity |].
  all: split; [reflexivity |].
  all: split; [reflexivity |].
  all: split; [in_trace |].
  all: split; [gset_tauto |].
  all: split; [gset_tauto |].
  all: observe; rewrite map_app; reflexivity.
Qed.

Lemma silent_sink_never_finishes_witness :
  let result := handleGenerate demoSettings silentScenario initialComponent
                  initialBrowser in
  passesChecks silentScenario = true
  /\ sink silentScenario = Silent
  /\ fst result = Pending
  /\ isGenerating (comp (snd result)) = true
  /\ (1%nat ∈ liveTracks (browser (snd result))).
Proof.
  intros result.
  destruct (silent_sink_never_finishes demoSettings silentScenario initialComponent
              initialBrowser eq_refl eq_refl eq_refl eq_refl)
    as (Hpending & Hbusy & _ & _ & _ & Hlive & _).
  split; [reflexivity |]. split; [reflexivity |].
  split; [exact Hpending |]. split; [exact Hbusy | exact Hlive].
Defined.

(** *** Release *)

(** X23: Once the recorder has been constructed, a call that returns has
    stopped the tracks of the stream it captured and cleared the interval
    it set: no track and no interval timer is live that was not live
    before the call, whether the session completed, [start()] threw or the
    recorder failed. *)
Theorem resources_released_once_recorder_exists :
  forall (settings : CinematicSettings) (sc : Scenario) (c : Component) (b : Browser),
  passesChecks sc = true -> constructorThrows sc = None -> nextTimer b <> 0%nat ->
  fst (handleGenerate settings sc c b) = Ok tt ->
  let result := handleGenerate settings sc c b in
  In (TrackStop (nextStream b)) (trace (snd result))
  /\ (nextStream b ∉ liveTracks (browser (snd result)))
  /\ (liveTracks (browser (snd result)) ⊆ liveTracks b)
  /\ (activeIntervals (browser (snd result)) ⊆ activeIntervals b)
  /\ mediaRecorderRef (comp (snd result))
     = Some {| stream := nextStream b; options := recorderOptions settings |}.
Proof.
  intros settings sc c b Hchecks Hctor Htimer Hreturns result.
  destruct (handleGenerate_releases_after_construction settings sc c b Hchecks Hctor
              Htimer Hreturns) as (Hstopped & Htracks & Hintervals).
  split; [| split; [exact Hstopped | split; [exact Htracks | split; [exact Hintervals |]]]].
  - subst result. revert Hchecks Hctor Hreturns. unfold passesChecks. clear.
    name_session settings sc c b r.
    run_session sc c b; intros r -> Hchecks Hctor Hreturns; try discriminate; run;
      in_trace.
  - subst result. revert Hchecks Hctor Hreturns. unfold passesChecks. clear.
    name_session settings sc c b r.
    run_session sc c b; intros r -> Hchecks Hctor Hreturns; try discriminate; run;
      reflexivity.
Qed.

Lemma resources_released_once_recorder_exists_witness :
  let result := handleGenerate demoSettings recorderErrorScenario initialComponent
                  initialBrowser in
  passesChecks recorderErrorScenario = true
  /\ constructorThrows recorderErrorScenario = None
  /\ nextTimer initialBrowser <> 0%nat
  /\ fst result = Ok tt
  /\ In (TrackStop 1) (trace (snd result))
  /\ (liveTracks (browser (snd result)) ⊆ liveTracks initialBrowser).
Proof.
  intros result.
  assert (Htimer : nextTimer initialBrowser <> 0%nat) by discriminate.
  destruct (resources_released_once_recorder_exists demoSettings recorderErrorScenario
              initialComponent initialBrowser eq_refl eq_refl Htimer eq_refl)
    as (Hstop & _ & Htracks & _).
  split; [reflexivity |]. split; [reflexivity |]. split; [exact Htimer |].
  split; [reflexivity |]. split; [exact Hstop | exact Htracks].
Defined.

(** ** The settings form *)



(** X25: What a change of one setting reaches: the shot plan is rebuilt to the
    same plan unless the key is [duration], [moodId] or [cameraMotionId],
    and a change of the duration alters the durations of the shots only;
    the options of the recorder follow [bloom] alone and the particle count
    [parallax] alone. *)
Theorem setting_change_reaches_its_consumers :
  forall (moods : list Mood) (defaultMood : Mood) (cameraMotions : list CameraMotion)
         (defaultMotion : CameraMotion) (toLowerCase : string -> string)
         (change : SettingChange) (settings : CinematicSettings),
  let plan := buildShotPlan moods defaultMood cameraMotions defaultMotion toLowerCase in
  (~ In (changedKey change) ["duration"; "moodId"; "cameraMotionId"] ->
   plan (handleSettingChange change settings) = plan settings)
  /\ (changedKey change = "duration" ->
      map title (plan (handleSettingChange change settings)) = map title (plan settings)
      /\ map description (plan (handleSettingChange change settings))
         = map description (plan settings))
  /\ (changedKey change <> "bloom" ->
      recorderOptions (handleSettingChange change settings) = recorderOptions settings)
  /\ (changedKey change <> "parallax" ->
      particleCount (handleSettingChange change settings) = particleCount settings).
Proof.
  intros moods defaultMood cameraMotions defaultMotion toLowerCase change settings plan.
  subst plan.
  destruct change; cbn [changedKey In];
    (split; [intros Hkey; first [reflexivity | exfalso; apply Hkey; tauto] |]);
    (split; [intros Hkey; first [discriminate Hkey | split; reflexivity] |]);
    (split; intros Hkey; first [reflexivity | exfalso; apply Hkey; reflexivity]).
Qed.

Lemma setting_change_reaches_its_consumers_witness :
  ~ In (changedKey (ChangeGrain 0.9)) ["duration"; "moodId"; "cameraMotionId"]
  /\ changedKey (ChangeGrain 0.9) <> "bloom"
  /\ buildShotPlan [noirMood] noirMood [orbitMotion] orbitMotion (fun s => s)
       (handleSettingChange (ChangeGrain 0.9) demoSettings)
     = buildShotPlan [noirMood] noirMood [orbitMotion] orbitMotion (fun s => s)
         demoSettings
  /\ recorderOptions (handleSettingChange (ChangeGrain 0.9) demoSettings)
     = recorderOptions demoSettings.
Proof.
  assert (Hkey : ~ In (changedKey (ChangeGrain 0.9))
                      ["duration"; "moodId"; "cameraMotionId"]).
  { cbn [changedKey In]. intros [H | [H | [H | H]]]; try discriminate H; exact H. }
  assert (Hbloom : changedKey (ChangeGrain 0.9) <> "bloom") by discriminate.
  destruct (setting_change_reaches_its_consumers [noirMood] noirMood [orbitMotion]
              orbitMotion (fun s => s) (ChangeGrain 0.9) demoSettings)
    as (Hplan & _ & Hoptions & _).
  split; [exact Hkey |]. split; [exact Hbloom |].
  split; [exact (Hplan Hkey) | exact (Hoptions Hbloom)].
Defined.

(** ** Bit rate of the recorder *)

(** X26: The bit rate requested from the recorder is a whole number, never
    below 2,500,000, equal to that floor for a bloom of 5/12 or less, not
    above 6,000,000 for a bloom of at most 1, and it does not decrease
    when the bloom grows. *)
Theorem recorder_bitrate_floor_and_ceiling :
  forall (settings settings' : CinematicSettings),
  let rate := fun s => videoBitsPerSecond (recorderOptions s) in
  2500000 <= rate settings
  /\ (exists n : Z, rate settings == inject_Z n)
  /\ (bloom settings <= 5 # 12 -> rate settings == 2500000)
  /\ (bloom settings <= 1 -> rate settings <= 6000000)
  /\ (bloom settings <= bloom settings' -> rate settings <= rate settings').
Proof.
  intros settings settings' rate. subst rate.
  cbn [recorderOptions videoBitsPerSecond]. unfold Math_max.
  assert (Hmono : forall x y : Q, x <= y -> Math_round x <= Math_round y).
  { intros x y Hxy. unfold Math_round. rewrite <- Zle_Qle. apply Qfloor_resp_le. lra. }
  split; [apply Q.le_max_l |]. split; [| split; [| split]].
  - destruct (Q.max_spec 2500000 (Math_round (6000000 * bloom settings)))
      as [[_ Hmax] | [_ Hmax]].
    + exists (Qfloor (6000000 * bloom settings + 0.5)). exact Hmax.
    + exists 2500000%Z. exact Hmax.
  - intros Hlow. apply Q.max_l.
    change 2500000 with (Math_round 2500000). apply Hmono. lra.
  - intros Hhigh. apply Q.max_lub; [discriminate |].
    apply Qle_trans with (Math_round 6000000); [apply Hmono; lra | discriminate].
  - intros Hle. apply Q.max_le_compat_l. apply Hmono. lra.
Qed.

Lemma recorder_bitrate_floor_and_ceiling_witness :
  bloom (handleSettingChange (ChangeBloom 0.25) demoSettings) <= 5 # 12
  /\ bloom demoSettings <= 1
  /\ videoBitsPerSecond (recorderOptions (handleSettingChange (ChangeBloom 0.25)
                                            demoSettings)) == 2500000
  /\ videoBitsPerSecond (recorderOptions demoSettings) <= 6000000.
Proof.
  assert (Hlow : bloom (handleSettingChange (ChangeBloom 0.25) demoSettings) <= 5 # 12)
    by discriminate.
  assert (Hhigh : bloom demoSettings <= 1) by discriminate.
  split; [exact Hlow |]. split; [exact Hhigh |]. split.
  - exact (proj1 (proj2 (proj2 (recorder_bitrate_floor_and_ceiling
                                  (handleSettingChange (ChangeBloom 0.25) demoSettings)
                                  demoSettings))) Hlow).
  - exact (proj1 (proj2 (proj2 (proj2 (recorder_bitrate_floor_and_ceiling demoSettings
                                         demoSettings)))) Hhigh).
Defined.
